(** * Phenotype-driven module and gene ranking: a shallow embedding

    The development follows the Python sources file by file:
    [data_loader] (the reference data and its indexes), [output_models]
    (the value objects), [scoring_engine], [prediction_engine] and
    [decision_tree] (the interactive session).

    Numbers.  Python's [float] is read as an exact rational ([Q]); two
    scores are "the same" when they are [Qeq]-equal ([==]).  Rounding,
    infinities and NaN are outside the model.  Python's [int] is [Z].
    A total accumulated in a loop over a set depends, in floating point, on
    the order of the visit; properties that relate two such runs are stated
    on the terms accumulated (the entries of the explanation), which do not
    depend on it, and not on the two totals.

    Containers.  A [Set[str]] is a [gset string] and a [for] loop over it
    visits [elements s]; a [Dict] read by key only is a [gmap]; the one
    dictionary whose insertion order reaches the output
    ([gene_scores] in [rank_genes]) is an association list.

    Sorting.  [list.sort(key=..., reverse=True)] is a stable sort in
    descending key order; since a stable sort is determined by its input,
    it is embedded as a stable insertion sort ([sort_desc]). *)

From Stdlib Require Import QArith Qminmax Qabs Lqa.
From stdpp Require Import gmap strings list fin_maps sorting.

Local Open Scope string_scope.
Local Open Scope list_scope.
Local Open Scope stdpp_scope.

(** ** Numeric helpers *)

(** [a < b] on floats, as a boolean. *)
Definition Qltb (a b : Q) : bool :=
  match Qcompare a b with Lt => true | _ => false end.

(** [sum] of a list of numbers. *)
Definition Qsum (l : list Q) : Q := foldr Qplus 0%Q l.

(** Comparison of [(a1, a2) < (b1, b2)] on Python tuples of floats. *)
Definition Qpair_ltb (a b : Q * Q) : bool :=
  match Qcompare a.1 b.1 with
  | Lt => true
  | Eq => Qltb a.2 b.2
  | Gt => false
  end.

(** [l[:n]]: the first [n] elements, or all but the last [-n] when [n] is
    negative. *)
Definition py_take {A} (n : Z) (l : list A) : list A :=
  if (0 <=? n)%Z then take (Z.to_nat n) l
  else take (length l - Z.to_nat (- n)) l.

(** ** [list.sort(key=key, reverse=True)] *)
Section stable_sort.
Context {A K : Type} (key : A → K) (ltb : K → K → bool).

(** [x] stood before every element of [l] in the input: it goes after the
    elements with a strictly greater key and before the first one whose
    key is not greater, which keeps equal keys in input order. *)
Fixpoint insert_desc (x : A) (l : list A) : list A :=
  match l with
  | [] => [x]
  | y :: l' =>
      if ltb (key x) (key y) then y :: insert_desc x l' else x :: y :: l'
  end.

Definition sort_desc (l : list A) : list A := foldr insert_desc [] l.
End stable_sort.

(** ** A dictionary in insertion order *)
Section alist.
Context {V : Type}.

Fixpoint alist_get (k : string) (d : list (string * V)) : option V :=
  match d with
  | [] => None
  | (k', v) :: d' => if decide (k = k') then Some v else alist_get k d'
  end.

(** [d[k] = v]: an existing key keeps its position, a new one goes last. *)
Fixpoint alist_set (k : string) (v : V) (d : list (string * V))
  : list (string * V) :=
  match d with
  | [] => [(k, v)]
  | (k', v') :: d' =>
      if decide (k = k') then (k, v) :: d' else (k', v') :: alist_set k v d'
  end.
End alist.

(** ** data_loader.py *)
Module data_loader.

Record PhenotypeProfile := {
  pp_name : string;
  pp_hpo_id : string;
  pp_genes_with : list string;
  pp_genes_without : list string;
  pp_prevalence : Q;
  pp_specificity : Q;
  pp_non_target_ird_genes : list string;
  pp_non_ird_genes : list string
}.

Record ModuleProfile := {
  mp_module_id : Z;
  mp_phenotypes : gmap string PhenotypeProfile;
  mp_all_genes : gset string
}.

Record GeneInfo := {
  gi_gene : string;
  gi_module_id : Z;
  gi_stability_score : Q;
  gi_classification : string
}.

Record DataLoader := {
  module_profiles : gmap Z ModuleProfile;
  gene_mapping : gmap string GeneInfo;
  phenotype_to_modules : gmap string (gset Z);
  phenotype_name_to_hpo : gmap string string;
  module_genes : gmap Z (gset string)
}.

(** [DataLoader.__init__]: every table empty. *)
Definition DataLoader_init : DataLoader :=
  {| module_profiles := ∅; gene_mapping := ∅; phenotype_to_modules := ∅;
     phenotype_name_to_hpo := ∅; module_genes := ∅ |}.

(** [str.lower] on the ASCII letters. *)
Definition lower_ascii (c : Ascii.ascii) : Ascii.ascii :=
  let n := Ascii.nat_of_ascii c in
  if (65 <=? n)%nat && (n <=? 90)%nat then Ascii.ascii_of_nat (n + 32)
  else c.

Fixpoint lower (s : string) : string :=
  match s with
  | EmptyString => EmptyString
  | String c s' => String (lower_ascii c) (lower s')
  end.

(** One row of the gene classification table; [row_gene = None] is a
    missing cell ([pd.isna]). *)
Record GeneRow := {
  row_gene : option string;
  row_module_id : Z;
  row_stability_score : Q;
  row_classification : string
}.

Definition _load_gene_mapping_row (self : DataLoader) (row : GeneRow)
  : DataLoader :=
  match row_gene row with
  | None => self
  | Some gene =>
      if decide (gene = "") then self
      else
        let info := {| gi_gene := gene;
                       gi_module_id := row_module_id row;
                       gi_stability_score := row_stability_score row;
                       gi_classification := row_classification row |} in
        let module_id := row_module_id row in
        let genes := default ∅ (module_genes self !! module_id) in
        {| module_profiles := module_profiles self;
           gene_mapping := <[gene := info]> (gene_mapping self);
           phenotype_to_modules := phenotype_to_modules self;
           phenotype_name_to_hpo := phenotype_name_to_hpo self;
           module_genes :=
             <[module_id := {[gene]} ∪ genes]> (module_genes self) |}
  end.

Definition _load_gene_mapping (rows : list GeneRow) (self : DataLoader)
  : DataLoader :=
  foldl _load_gene_mapping_row self rows.

(** The body of the inner loop of [_build_indexes]. *)
Definition _build_indexes_pheno (module_id : Z) (self : DataLoader)
    (entry : string * PhenotypeProfile) : DataLoader :=
  let '(hpo_id, pheno) := entry in
  let modules := default ∅ (phenotype_to_modules self !! hpo_id) in
  let name_lower := lower (pp_name pheno) in
  {| module_profiles := module_profiles self;
     gene_mapping := gene_mapping self;
     phenotype_to_modules :=
       <[hpo_id := {[module_id]} ∪ modules]> (phenotype_to_modules self);
     phenotype_name_to_hpo :=
       match phenotype_name_to_hpo self !! name_lower with
       | Some _ => phenotype_name_to_hpo self
       | None => <[name_lower := hpo_id]> (phenotype_name_to_hpo self)
       end;
     module_genes := module_genes self |}.

Definition _build_indexes_module (self : DataLoader)
    (entry : Z * ModuleProfile) : DataLoader :=
  let '(module_id, profile) := entry in
  foldl (_build_indexes_pheno module_id) self
        (map_to_list (mp_phenotypes profile)).

Definition _build_indexes (self : DataLoader) : DataLoader :=
  foldl _build_indexes_module self (map_to_list (module_profiles self)).

(** [load]: the two files are read by pandas, which is outside the model;
    the table is taken as its rows and the workbook as the module
    profiles [_load_module_profiles] stores. *)
Definition load (rows : list GeneRow) (profiles : gmap Z ModuleProfile)
  : DataLoader :=
  let self := _load_gene_mapping rows DataLoader_init in
  let self := {| module_profiles := profiles;
                 gene_mapping := gene_mapping self;
                 phenotype_to_modules := phenotype_to_modules self;
                 phenotype_name_to_hpo := phenotype_name_to_hpo self;
                 module_genes := module_genes self |} in
  _build_indexes self.

Definition resolve_phenotype (self : DataLoader) (identifier : string)
  : option string :=
  if String.prefix "HP:" identifier then
    match phenotype_to_modules self !! identifier with
    | Some _ => Some identifier
    | None => None
    end
  else phenotype_name_to_hpo self !! lower identifier.

Definition get_gene_info (self : DataLoader) (gene : string)
  : option GeneInfo :=
  gene_mapping self !! gene.

Definition get_module_profile (self : DataLoader) (module_id : Z)
  : option ModuleProfile :=
  module_profiles self !! module_id.

Definition get_module_genes (self : DataLoader) (module_id : Z)
  : gset string :=
  default ∅ (module_genes self !! module_id).

(** [sorted(self.module_profiles.keys())] *)
Definition get_all_module_ids (self : DataLoader) : list Z :=
  merge_sort Z.le (elements (dom (module_profiles self))).

End data_loader.

(** ** output_models.py *)
Module output_models.

Record PhenotypeInfo := {
  pi_name : string;
  pi_hpo_id : string;
  pi_prevalence : Q;
  pi_specificity : Q;
  pi_genes : list string
}.

Record ModuleMatch := {
  mm_module_id : Z;
  mm_score : Q;
  mm_confidence : Q;
  mm_gene_count : Z;
  mm_contributing_phenotypes : list PhenotypeInfo;
  mm_penalized_phenotypes : list PhenotypeInfo
}.

Record GeneCandidate := {
  gc_gene : string;
  gc_module_id : Z;
  gc_support_score : Q;
  gc_stability_score : Q;
  gc_classification : string;
  gc_supporting_phenotypes : list string
}.

(** The [explanation] text of an item.  The f-strings print floats with
    one decimal; the model keeps which sentence it is and the numbers
    that go into it. *)
Inductive Explanation :=
| PresentInModule (prevalence specificity : Q)
| ExcludedButPresent
| SupportsModule (prevalence specificity : Q)
| NotPresentInProfile
| PenalizesModule (prevalence : Q).

Record ExplainabilityItem := {
  ei_phenotype_name : string;
  ei_hpo_id : string;
  ei_contribution : Q;
  ei_explanation : Explanation
}.

(** The [reason] text of a prediction; as for [Explanation], the sentence
    and the numbers printed in it. *)
Inductive Reason :=
| VeryCommon (prevalence : Q)
| Common (prevalence : Q)
| HighlySpecific (specificity : Q)
| Characteristic (prevalence specificity : Q)
| Discriminating (more_common_in_best : bool)
| DiscriminatingBetween (top_prevalence : Q) (top_module : Z)
                        (second_prevalence : Q) (second_module : Z).

Record PhenotypePrediction := {
  pr_name : string;
  pr_hpo_id : string;
  pr_prevalence : Q;
  pr_specificity : Q;
  pr_reason : Reason
}.

Record QueryResult := {
  qr_matched_modules : list ModuleMatch;
  qr_best_module : option ModuleMatch;
  qr_candidate_genes : list GeneCandidate;
  qr_alternative_genes : list GeneCandidate;
  qr_predicted_phenotypes : list PhenotypePrediction;
  qr_discriminative_questions : list PhenotypePrediction;
  qr_explanation : list ExplainabilityItem;
  qr_observed_phenotypes : list string;
  qr_excluded_phenotypes : list string;
  qr_unmatched_inputs : list string
}.

Record GeneQueryResult := {
  gq_gene : string;
  gq_module_id : Z;
  gq_stability_score : Q;
  gq_classification : string;
  gq_module_genes : list GeneCandidate;
  gq_characteristic_phenotypes : list PhenotypeInfo
}.

End output_models.

(** ** scoring_engine.py *)
Module scoring_engine.
Import data_loader output_models.

Record ScoringConfig := {
  prevalence_weight : Q;
  specificity_weight : Q;
  exclusion_penalty : Q;
  stability_bonus : Q;
  min_confidence_threshold : Q
}.

(** [ScoringConfig()] *)
Definition ScoringConfig_default : ScoringConfig :=
  {| prevalence_weight := 1; specificity_weight := 1;
     exclusion_penalty := 1 # 2; stability_bonus := 1 # 10;
     min_confidence_threshold := 1 # 10 |}.

Record ScoringEngine := {
  se_loader : DataLoader;
  se_config : ScoringConfig
}.

(** [ScoringEngine.__init__]: [config or ScoringConfig()]. *)
Definition ScoringEngine_init (loader : DataLoader)
    (config : option ScoringConfig) : ScoringEngine :=
  {| se_loader := loader;
     se_config := default ScoringConfig_default config |}.

Definition score_phenotype (self : ScoringEngine) (pheno : PhenotypeProfile)
  : Q :=
  let prevalence := (pp_prevalence pheno / 100)%Q in
  let specificity := (pp_specificity pheno / 100)%Q in
  (prevalence_weight (se_config self) * prevalence +
   specificity_weight (se_config self) * specificity)%Q.

(** Loop state of [score_module]: the running [score] and [explanations]. *)
Definition score_state : Type := Q * list ExplainabilityItem.

(** Body of [for hpo_id in observed_hpo_ids]. *)
Definition score_observed (self : ScoringEngine) (profile : ModuleProfile)
    (st : score_state) (hpo_id : string) : score_state :=
  match mp_phenotypes profile !! hpo_id with
  | Some pheno =>
      let contribution := score_phenotype self pheno in
      ((st.1 + contribution)%Q,
       st.2 ++ [{| ei_phenotype_name := pp_name pheno;
                   ei_hpo_id := hpo_id;
                   ei_contribution := contribution;
                   ei_explanation :=
                     PresentInModule (pp_prevalence pheno)
                                     (pp_specificity pheno) |}])
  | None => st
  end.

(** Body of [for hpo_id in excluded_hpo_ids]. *)
Definition score_excluded (self : ScoringEngine) (profile : ModuleProfile)
    (st : score_state) (hpo_id : string) : score_state :=
  match mp_phenotypes profile !! hpo_id with
  | Some pheno =>
      if Qltb 0 (pp_prevalence pheno) then
        let penalty :=
          (score_phenotype self pheno * exclusion_penalty (se_config self))%Q
        in
        ((st.1 - penalty)%Q,
         st.2 ++ [{| ei_phenotype_name := pp_name pheno;
                     ei_hpo_id := hpo_id;
                     ei_contribution := (- penalty)%Q;
                     ei_explanation := ExcludedButPresent |}])
      else st
  | None => st
  end.

Definition score_module (self : ScoringEngine) (module_id : Z)
    (observed_hpo_ids excluded_hpo_ids : gset string) : score_state :=
  match get_module_profile (se_loader self) module_id with
  | None => (0%Q, [])
  | Some profile =>
      let st := foldl (score_observed self profile) (0%Q, [])
                      (elements observed_hpo_ids) in
      let st := foldl (score_excluded self profile) st
                      (elements excluded_hpo_ids) in
      (Qmax 0 st.1, st.2)
  end.

(** Body of [for exp in explanations] in [rank_modules]; the state is
    the pair [(contributing, penalized)]. *)
Definition collect_phenotype (profile : option ModuleProfile)
    (st : list PhenotypeInfo * list PhenotypeInfo)
    (exp : ExplainabilityItem) : list PhenotypeInfo * list PhenotypeInfo :=
  let hpo_id := ei_hpo_id exp in
  match profile ≫= (λ p, mp_phenotypes p !! hpo_id) with
  | Some pheno =>
      let info := {| pi_name := pp_name pheno;
                     pi_hpo_id := hpo_id;
                     pi_prevalence := pp_prevalence pheno;
                     pi_specificity := pp_specificity pheno;
                     pi_genes := pp_genes_with pheno |} in
      if Qltb 0 (ei_contribution exp) then (st.1 ++ [info], st.2)
      else (st.1, st.2 ++ [info])
  | None => st
  end.

(** Body of [for module_id in self.loader.get_all_module_ids()]: the
    [ModuleMatch] appended to [results]. *)
Definition module_match (self : ScoringEngine)
    (observed_hpo_ids excluded_hpo_ids : gset string) (module_id : Z)
  : ModuleMatch :=
  let '(score, explanations) :=
    score_module self module_id observed_hpo_ids excluded_hpo_ids in
  let profile := get_module_profile (se_loader self) module_id in
  let gene_count :=
    match profile with
    | Some p => Z.of_nat (size (mp_all_genes p))
    | None => 0%Z
    end in
  let '(contributing, penalized) :=
    foldl (collect_phenotype profile) ([], []) explanations in
  {| mm_module_id := module_id;
     mm_score := score;
     mm_confidence := 0;
     mm_gene_count := gene_count;
     mm_contributing_phenotypes := contributing;
     mm_penalized_phenotypes := penalized |}.

(** [match.confidence = c] *)
Definition set_confidence (c : Q) (m : ModuleMatch) : ModuleMatch :=
  {| mm_module_id := mm_module_id m;
     mm_score := mm_score m;
     mm_confidence := c;
     mm_gene_count := mm_gene_count m;
     mm_contributing_phenotypes := mm_contributing_phenotypes m;
     mm_penalized_phenotypes := mm_penalized_phenotypes m |}.

(** The confidence step of [rank_modules], on the sorted [results]. *)
Definition assign_confidence (results : list ModuleMatch)
  : list ModuleMatch :=
  match results with
  | [] => []
  | r0 :: [] =>
      if Qltb 0 (mm_score r0) then [set_confidence 1 r0] else results
  | r0 :: (r1 :: _) as others =>
      if Qltb 0 (mm_score r0) then
        let separation := ((mm_score r0 - mm_score r1) / mm_score r0)%Q in
        let confidence0 := Qmin 1 (Qmax 0 separation) in
        set_confidence confidence0 r0 ::
        map (λ m,
               if Qltb 0 (mm_score r0) then
                 let relative_score := (mm_score m / mm_score r0)%Q in
                 set_confidence (relative_score * (1 - confidence0))%Q m
               else m)
            others
      else results
  end.

Definition rank_modules (self : ScoringEngine)
    (observed_hpo_ids excluded_hpo_ids : gset string) : list ModuleMatch :=
  let results :=
    map (module_match self observed_hpo_ids excluded_hpo_ids)
        (get_all_module_ids (se_loader self)) in
  let results := sort_desc mm_score Qltb results in
  assign_confidence results.

(** [gene_scores]: gene to [(score, pheno list)], in insertion order. *)
Definition gene_scores_t : Type := list (string * (Q * list string)).

(** Body of [for gene in pheno.genes_with]. *)
Definition support_gene (contribution : Q) (pheno_name : string)
    (gene_scores : gene_scores_t) (gene : string) : gene_scores_t :=
  let gene_scores :=
    match alist_get gene gene_scores with
    | Some _ => gene_scores
    | None => alist_set gene (0%Q, []) gene_scores
    end in
  match alist_get gene gene_scores with
  | Some (current_score, pheno_list) =>
      alist_set gene ((current_score + contribution)%Q,
                      pheno_list ++ [pheno_name]) gene_scores
  | None => gene_scores
  end.

(** Body of [for hpo_id in observed_hpo_ids] in [rank_genes]. *)
Definition support_phenotype (self : ScoringEngine)
    (profile : ModuleProfile) (gene_scores : gene_scores_t)
    (hpo_id : string) : gene_scores_t :=
  match mp_phenotypes profile !! hpo_id with
  | None => gene_scores
  | Some pheno =>
      let contribution := score_phenotype self pheno in
      foldl (support_gene contribution (pp_name pheno)) gene_scores
            (pp_genes_with pheno)
  end.

(** Body of [for gene in module_genes]. *)
Definition add_module_gene (gene_scores : gene_scores_t) (gene : string)
  : gene_scores_t :=
  match alist_get gene gene_scores with
  | Some _ => gene_scores
  | None => alist_set gene (0%Q, []) gene_scores
  end.

(** Body of [for gene, (support_score, supporting_phenos) in
    gene_scores.items()]; [None] is the [continue]. *)
Definition gene_candidate (self : ScoringEngine) (module_id : Z)
    (entry : string * (Q * list string)) : option GeneCandidate :=
  let '(gene, (support_score, supporting_phenos)) := entry in
  match get_gene_info (se_loader self) gene with
  | None => None
  | Some gene_info =>
      let final_score :=
        if decide (gi_classification gene_info = "core") then
          (support_score + stability_bonus (se_config self))%Q
        else if decide (gi_classification gene_info = "unstable") then
          (support_score - stability_bonus (se_config self) * (1 # 2))%Q
        else support_score in
      Some {| gc_gene := gene;
              gc_module_id := module_id;
              gc_support_score := final_score;
              gc_stability_score := gi_stability_score gene_info;
              gc_classification := gi_classification gene_info;
              gc_supporting_phenotypes := supporting_phenos |}
  end.

Definition rank_genes (self : ScoringEngine) (module_id : Z)
    (observed_hpo_ids : gset string) : list GeneCandidate :=
  match get_module_profile (se_loader self) module_id with
  | None => []
  | Some profile =>
      let gene_scores :=
        foldl (support_phenotype self profile) []
              (elements observed_hpo_ids) in
      let module_genes := get_module_genes (se_loader self) module_id in
      let gene_scores :=
        foldl add_module_gene gene_scores (elements module_genes) in
      let candidates := omap (gene_candidate self module_id) gene_scores in
      sort_desc (λ x, (gc_support_score x, gc_stability_score x))
                Qpair_ltb candidates
  end.

(** Key of the sort in [get_module_explanation] and [explain_scoring]. *)
Definition abs_contribution (x : ExplainabilityItem) : Q :=
  Qabs (ei_contribution x).

Definition get_module_explanation (self : ScoringEngine) (module_id : Z)
    (observed_hpo_ids excluded_hpo_ids : gset string)
  : list ExplainabilityItem :=
  let '(_, explanations) :=
    score_module self module_id observed_hpo_ids excluded_hpo_ids in
  sort_desc abs_contribution Qltb explanations.

End scoring_engine.

(** ** prediction_engine.py *)
Module prediction_engine.
Import data_loader output_models scoring_engine.

Record PredictionConfig := {
  min_prevalence : Q;
  min_specificity : Q;
  max_predictions : Z
}.

(** [PredictionConfig()] *)
Definition PredictionConfig_default : PredictionConfig :=
  {| min_prevalence := 20; min_specificity := 5; max_predictions := 10 |}.

Record PredictionEngine := {
  pe_loader : DataLoader;
  pe_config : PredictionConfig
}.

Definition PredictionEngine_init (loader : DataLoader)
    (config : option PredictionConfig) : PredictionEngine :=
  {| pe_loader := loader;
     pe_config := default PredictionConfig_default config |}.

(** Body of [for hpo_id in observed_hpo_ids] in [explain_scoring]. *)
Definition explain_observed (profile : ModuleProfile)
    (explanations : list ExplainabilityItem) (hpo_id : string)
  : list ExplainabilityItem :=
  match mp_phenotypes profile !! hpo_id with
  | Some pheno =>
      let score := ((pp_prevalence pheno + pp_specificity pheno) / 200)%Q in
      explanations ++
        [{| ei_phenotype_name := pp_name pheno;
            ei_hpo_id := hpo_id;
            ei_contribution := score;
            ei_explanation :=
              SupportsModule (pp_prevalence pheno) (pp_specificity pheno) |}]
  | None =>
      explanations ++
        [{| ei_phenotype_name := "Unknown";
            ei_hpo_id := hpo_id;
            ei_contribution := 0;
            ei_explanation := NotPresentInProfile |}]
  end.

(** Body of [for hpo_id in excluded_hpo_ids] in [explain_scoring]. *)
Definition explain_excluded (profile : ModuleProfile)
    (explanations : list ExplainabilityItem) (hpo_id : string)
  : list ExplainabilityItem :=
  match mp_phenotypes profile !! hpo_id with
  | Some pheno =>
      if Qltb 0 (pp_prevalence pheno) then
        let penalty :=
          ((pp_prevalence pheno + pp_specificity pheno) / 400)%Q in
        explanations ++
          [{| ei_phenotype_name := pp_name pheno;
              ei_hpo_id := hpo_id;
              ei_contribution := (- penalty)%Q;
              ei_explanation := PenalizesModule (pp_prevalence pheno) |}]
      else explanations
  | None => explanations
  end.

Definition explain_scoring (self : PredictionEngine) (module_id : Z)
    (observed_hpo_ids excluded_hpo_ids : gset string)
  : list ExplainabilityItem :=
  match get_module_profile (pe_loader self) module_id with
  | None => []
  | Some profile =>
      let explanations :=
        foldl (explain_observed profile) [] (elements observed_hpo_ids) in
      let explanations :=
        foldl (explain_excluded profile) explanations
              (elements excluded_hpo_ids) in
      sort_desc abs_contribution Qltb explanations
  end.

(** A loop over [profile.phenotypes.items()] visits the entries in the
    dictionary's insertion order, which a [gmap] does not record; the
    embedding visits [map_to_list], and what is proved below holds for
    whatever order that is. *)

Definition _build_reason (pheno : PhenotypeProfile) : Reason :=
  if negb (Qltb (pp_prevalence pheno) 80) then
    VeryCommon (pp_prevalence pheno)
  else if negb (Qltb (pp_prevalence pheno) 50) then
    Common (pp_prevalence pheno)
  else if negb (Qltb (pp_specificity pheno) 50) then
    HighlySpecific (pp_specificity pheno)
  else Characteristic (pp_prevalence pheno) (pp_specificity pheno).

(** Body of the loop of [predict_missing_phenotypes]: the candidate
    appended, [None] for a [continue]. *)
Definition missing_candidate (self : PredictionEngine)
    (already_mentioned : gset string) (entry : string * PhenotypeProfile)
  : option (Q * PhenotypePrediction) :=
  let '(hpo_id, pheno) := entry in
  if decide (hpo_id ∈ already_mentioned) then None
  else if Qltb (pp_prevalence pheno) (min_prevalence (pe_config self))
  then None
  else if Qltb (pp_specificity pheno) (min_specificity (pe_config self))
  then None
  else
    let prediction_score :=
      (pp_prevalence pheno * pp_specificity pheno / 100)%Q in
    Some (prediction_score,
          {| pr_name := pp_name pheno;
             pr_hpo_id := hpo_id;
             pr_prevalence := pp_prevalence pheno;
             pr_specificity := pp_specificity pheno;
             pr_reason := _build_reason pheno |}).

Definition predict_missing_phenotypes (self : PredictionEngine)
    (module_id : Z) (observed_hpo_ids excluded_hpo_ids : gset string)
  : list PhenotypePrediction :=
  match get_module_profile (pe_loader self) module_id with
  | None => []
  | Some profile =>
      let already_mentioned := observed_hpo_ids ∪ excluded_hpo_ids in
      let candidates :=
        omap (missing_candidate self already_mentioned)
             (map_to_list (mp_phenotypes profile)) in
      let candidates := sort_desc fst Qltb candidates in
      map snd (py_take (max_predictions (pe_config self)) candidates)
  end.

(** Body of the loop of [get_expected_phenotypes]. *)
Definition expected_candidate (entry : string * PhenotypeProfile)
  : Q * PhenotypePrediction :=
  let '(hpo_id, pheno) := entry in
  let score := (pp_prevalence pheno * pp_specificity pheno / 100)%Q in
  (score,
   {| pr_name := pp_name pheno;
      pr_hpo_id := hpo_id;
      pr_prevalence := pp_prevalence pheno;
      pr_specificity := pp_specificity pheno;
      pr_reason := _build_reason pheno |}).

Definition get_expected_phenotypes (self : PredictionEngine) (module_id : Z)
    (top_n : Z) : list PhenotypePrediction :=
  match get_module_profile (pe_loader self) module_id with
  | None => []
  | Some profile =>
      let candidates :=
        map expected_candidate (map_to_list (mp_phenotypes profile)) in
      let candidates := sort_desc fst Qltb candidates in
      map snd (py_take top_n candidates)
  end.

(** [second_pheno.prevalence if second_pheno else 0.0] *)
Definition second_prevalence_of (second_profile : ModuleProfile)
    (hpo_id : string) : Q :=
  match mp_phenotypes second_profile !! hpo_id with
  | Some second_pheno => pp_prevalence second_pheno
  | None => 0
  end.

(** Loop state of [suggest_next_question]: [best_discriminator] and
    [best_discrimination_score]. *)
Definition question_state : Type := option PhenotypePrediction * Q.

(** Body of the loop of [suggest_next_question]. *)
Definition suggest_step (second_profile : ModuleProfile)
    (already_asked : gset string) (st : question_state)
    (entry : string * PhenotypeProfile) : question_state :=
  let '(hpo_id, pheno) := entry in
  if decide (hpo_id ∈ already_asked) then st
  else
    let top_prevalence := pp_prevalence pheno in
    let second_prevalence := second_prevalence_of second_profile hpo_id in
    let discrimination := Qabs (top_prevalence - second_prevalence) in
    let avg_prevalence := ((top_prevalence + second_prevalence) / 2)%Q in
    if Qltb avg_prevalence 10 then st
    else
      let weighted_score := (discrimination * (avg_prevalence / 100))%Q in
      if Qltb st.2 weighted_score then
        (Some {| pr_name := pp_name pheno;
                 pr_hpo_id := hpo_id;
                 pr_prevalence := top_prevalence;
                 pr_specificity := pp_specificity pheno;
                 pr_reason :=
                   Discriminating (Qltb second_prevalence top_prevalence) |},
         weighted_score)
      else st.

Definition suggest_next_question (self : PredictionEngine)
    (ranked_modules : list ModuleMatch)
    (observed_hpo_ids excluded_hpo_ids : gset string)
  : option PhenotypePrediction :=
  match ranked_modules with
  | top_module :: second_module :: _ =>
      match get_module_profile (pe_loader self) (mm_module_id top_module),
            get_module_profile (pe_loader self) (mm_module_id second_module)
      with
      | Some top_profile, Some second_profile =>
          let already_asked := observed_hpo_ids ∪ excluded_hpo_ids in
          (foldl (suggest_step second_profile already_asked) (None, 0%Q)
                 (map_to_list (mp_phenotypes top_profile))).1
      | _, _ => None
      end
  | _ => None
  end.

(** Body of the loop of [get_discriminative_questions]. *)
Definition discriminative_candidate (top_module second_module : ModuleMatch)
    (second_profile : ModuleProfile) (already_asked : gset string)
    (entry : string * PhenotypeProfile) : option (Q * PhenotypePrediction) :=
  let '(hpo_id, pheno) := entry in
  if decide (hpo_id ∈ already_asked) then None
  else
    let top_prevalence := pp_prevalence pheno in
    let second_prevalence := second_prevalence_of second_profile hpo_id in
    let discrimination := Qabs (top_prevalence - second_prevalence) in
    let avg_prevalence := ((top_prevalence + second_prevalence) / 2)%Q in
    if Qltb avg_prevalence 10 then None
    else
      let weighted_score := (discrimination * (avg_prevalence / 100))%Q in
      Some (weighted_score,
            {| pr_name := pp_name pheno;
               pr_hpo_id := hpo_id;
               pr_prevalence := top_prevalence;
               pr_specificity := pp_specificity pheno;
               pr_reason :=
                 DiscriminatingBetween
                   top_prevalence (mm_module_id top_module)
                   second_prevalence (mm_module_id second_module) |}).

Definition get_discriminative_questions (self : PredictionEngine)
    (ranked_modules : list ModuleMatch)
    (observed_hpo_ids excluded_hpo_ids : gset string) (top_n : Z)
  : list PhenotypePrediction :=
  match ranked_modules with
  | top_module :: second_module :: _ =>
      if negb (Qltb 0 (mm_score second_module)) then []
      else
        match get_module_profile (pe_loader self) (mm_module_id top_module),
              get_module_profile (pe_loader self)
                                 (mm_module_id second_module)
        with
        | Some top_profile, Some second_profile =>
            let already_asked := observed_hpo_ids ∪ excluded_hpo_ids in
            let candidates :=
              omap (discriminative_candidate top_module second_module
                      second_profile already_asked)
                   (map_to_list (mp_phenotypes top_profile)) in
            let candidates := sort_desc fst Qltb candidates in
            map snd (py_take top_n candidates)
        | _, _ => []
        end
  | _ => []
  end.

End prediction_engine.

(** ** decision_tree.py *)
Module decision_tree.
Import data_loader output_models scoring_engine prediction_engine.

Inductive Response := YES | NO | UNKNOWN.

Record SessionState := {
  observed : gset string;
  excluded : gset string;
  unknown : gset string;
  history : list (string * string * Response)
}.

(** [SessionState()] *)
Definition SessionState_init : SessionState :=
  {| observed := ∅; excluded := ∅; unknown := ∅; history := [] |}.

(** The [asked] property. *)
Definition asked (st : SessionState) : gset string :=
  observed st ∪ excluded st ∪ unknown st.

Record InteractiveSession := {
  loader : DataLoader;
  scorer : ScoringEngine;
  predictor : PredictionEngine;
  state : SessionState;
  _cached_modules : list ModuleMatch;
  _cache_valid : bool
}.

(** [InteractiveSession.__init__] with an explicit loader. *)
Definition InteractiveSession_init (loader : DataLoader)
    (scoring_config : option ScoringConfig)
    (prediction_config : option PredictionConfig) : InteractiveSession :=
  {| loader := loader;
     scorer := ScoringEngine_init loader scoring_config;
     predictor := PredictionEngine_init loader prediction_config;
     state := SessionState_init;
     _cached_modules := [];
     _cache_valid := false |}.

Definition reset (self : InteractiveSession) : InteractiveSession :=
  {| loader := loader self;
     scorer := scorer self;
     predictor := predictor self;
     state := SessionState_init;
     _cached_modules := _cached_modules self;
     _cache_valid := false |}.

Definition _update_cache (self : InteractiveSession) : InteractiveSession :=
  if _cache_valid self then self
  else
    {| loader := loader self;
       scorer := scorer self;
       predictor := predictor self;
       state := state self;
       _cached_modules :=
         rank_modules (scorer self) (observed (state self))
                      (excluded (state self));
       _cache_valid := true |}.

Definition answer (self : InteractiveSession) (identifier : string)
    (response : Response) (phenotype_name : option string)
  : InteractiveSession :=
  let hpo_id :=
    match resolve_phenotype (loader self) identifier with
    | Some hpo_id => hpo_id
    | None => identifier
    end in
  let st := state self in
  (* discard from any previous category *)
  let observed0 := observed st ∖ {[hpo_id]} in
  let excluded0 := excluded st ∖ {[hpo_id]} in
  let unknown0 := unknown st ∖ {[hpo_id]} in
  (* [phenotype_name or identifier]: an empty name counts as absent *)
  let name :=
    match phenotype_name with
    | Some n => if decide (n = "") then identifier else n
    | None => identifier
    end in
  let st' :=
    match response with
    | YES =>
        {| observed := {[hpo_id]} ∪ observed0; excluded := excluded0;
           unknown := unknown0;
           history := history st ++ [(name, hpo_id, response)] |}
    | NO =>
        {| observed := observed0; excluded := {[hpo_id]} ∪ excluded0;
           unknown := unknown0;
           history := history st ++ [(name, hpo_id, response)] |}
    | UNKNOWN =>
        {| observed := observed0; excluded := excluded0;
           unknown := {[hpo_id]} ∪ unknown0;
           history := history st ++ [(name, hpo_id, response)] |}
    end in
  {| loader := loader self;
     scorer := scorer self;
     predictor := predictor self;
     state := st';
     _cached_modules := _cached_modules self;
     _cache_valid := false |}.

Definition answer_yes (self : InteractiveSession) (identifier : string) :=
  answer self identifier YES None.

Definition answer_no (self : InteractiveSession) (identifier : string) :=
  answer self identifier NO None.

Definition answer_unknown (self : InteractiveSession)
    (identifier : string) :=
  answer self identifier UNKNOWN None.

(** [get_ranked_modules]: the session after the call and what it returns. *)
Definition get_ranked_modules (self : InteractiveSession)
  : InteractiveSession * list ModuleMatch :=
  let self := _update_cache self in
  (self, _cached_modules self).

(** The calls a client can make on a session that change it. *)
Inductive Op :=
| OpAnswer (identifier : string) (response : Response)
           (phenotype_name : option string)
| OpReset
| OpGetRankedModules.

Definition step (self : InteractiveSession) (op : Op) : InteractiveSession :=
  match op with
  | OpAnswer identifier response phenotype_name =>
      answer self identifier response phenotype_name
  | OpReset => reset self
  | OpGetRankedModules => (get_ranked_modules self).1
  end.

(** A fresh session after the calls [ops], oldest first. *)
Definition run (ops : list Op) (self : InteractiveSession)
  : InteractiveSession :=
  foldl step self ops.

(** [get_best_module]: [self._cached_modules[0] if self._cached_modules
    else None]. *)
Definition get_best_module (self : InteractiveSession)
  : InteractiveSession * option ModuleMatch :=
  let self := _update_cache self in
  (self, head (_cached_modules self)).

Definition get_candidate_genes (self : InteractiveSession) (top_n : Z)
  : InteractiveSession * list GeneCandidate :=
  let '(self, best) := get_best_module self in
  match best with
  | None => (self, [])
  | Some best =>
      if negb (Qltb 0 (mm_score best)) then (self, [])
      else
        (self,
         py_take top_n
           (rank_genes (scorer self) (mm_module_id best)
                       (observed (state self))))
  end.

Definition get_next_question (self : InteractiveSession)
  : InteractiveSession * option PhenotypePrediction :=
  let self := _update_cache self in
  match _cached_modules self with
  | [] => (self, None)
  | _ =>
      (self,
       suggest_next_question (predictor self) (_cached_modules self)
         (observed (state self))
         (excluded (state self) ∪ unknown (state self)))
  end.

Definition get_predicted_phenotypes (self : InteractiveSession) (top_n : Z)
  : InteractiveSession * list PhenotypePrediction :=
  let '(self, best) := get_best_module self in
  match best with
  | None => (self, [])
  | Some best =>
      if negb (Qltb 0 (mm_score best)) then (self, [])
      else
        (self,
         py_take top_n
           (predict_missing_phenotypes (predictor self) (mm_module_id best)
              (observed (state self)) (excluded (state self))))
  end.

(** [get_current_result], with the default [top_n] of the calls it makes. *)
Definition get_current_result (self : InteractiveSession)
  : InteractiveSession * QueryResult :=
  let self := _update_cache self in
  let '(self, best) := get_best_module self in
  let '(self, candidates) :=
    match best with
    | Some _ => get_candidate_genes self 20
    | None => (self, [])
    end in
  let '(self, predictions) :=
    match best with
    | Some _ => get_predicted_phenotypes self 10
    | None => (self, [])
    end in
  let explanation :=
    match best with
    | Some b =>
        if Qltb 0 (mm_score b) then
          explain_scoring (predictor self) (mm_module_id b)
                          (observed (state self)) (excluded (state self))
        else []
    | None => []
    end in
  (self,
   {| qr_matched_modules := _cached_modules self;
      qr_best_module := best;
      qr_candidate_genes := candidates;
      qr_alternative_genes := [];
      qr_predicted_phenotypes := predictions;
      qr_discriminative_questions := [];
      qr_explanation := explanation;
      qr_observed_phenotypes := elements (observed (state self));
      qr_excluded_phenotypes := elements (excluded (state self));
      qr_unmatched_inputs := [] |}).

End decision_tree.

(** ** clinical_support.py *)
Module clinical_support.
Import data_loader output_models scoring_engine prediction_engine.

Record ClinicalSupportEngine := {
  cs_loader : DataLoader;
  cs_scorer : ScoringEngine;
  cs_predictor : PredictionEngine
}.

(** [ClinicalSupportEngine.__init__]: the loader reads the two files, taken
    here as their content (see [load]). *)
Definition ClinicalSupportEngine_init (rows : list GeneRow)
    (profiles : gmap Z ModuleProfile)
    (scoring_config : option ScoringConfig)
    (prediction_config : option PredictionConfig) : ClinicalSupportEngine :=
  let loader := load rows profiles in
  {| cs_loader := loader;
     cs_scorer := ScoringEngine_init loader scoring_config;
     cs_predictor := PredictionEngine_init loader prediction_config |}.

(** Body of the loop of [_resolve_phenotypes]; [if hpo_id:] also refuses an
    empty identifier. *)
Definition _resolve_phenotypes_step (self : ClinicalSupportEngine)
    (st : gset string * list string) (identifier : string)
  : gset string * list string :=
  match resolve_phenotype (cs_loader self) identifier with
  | Some hpo_id =>
      if decide (hpo_id = "") then (st.1, st.2 ++ [identifier])
      else ({[hpo_id]} ∪ st.1, st.2)
  | None => (st.1, st.2 ++ [identifier])
  end.

Definition _resolve_phenotypes (self : ClinicalSupportEngine)
    (phenotypes : list string) : gset string * list string :=
  foldl (_resolve_phenotypes_step self) (∅, []) phenotypes.

(** Body of [for mod in next_best_modules] in [query]. *)
Definition alternatives_step (self : ClinicalSupportEngine)
    (observed_ids : gset string) (all_alternatives : list GeneCandidate)
    (mod_ : ModuleMatch) : list GeneCandidate :=
  if Qltb 0 (mm_score mod_) then
    all_alternatives ++
      rank_genes (cs_scorer self) (mm_module_id mod_) observed_ids
  else all_alternatives.

(** [query]; [observed or []] makes an absent list an empty one, so both
    arguments are lists. *)
Definition query (self : ClinicalSupportEngine)
    (observed excluded : list string) (top_genes top_predictions : Z)
  : QueryResult :=
  let '(observed_ids, unmatched_obs) := _resolve_phenotypes self observed in
  let '(excluded_ids, unmatched_exc) := _resolve_phenotypes self excluded in
  let all_unmatched := unmatched_obs ++ unmatched_exc in
  let ranked_modules :=
    rank_modules (cs_scorer self) observed_ids excluded_ids in
  let best_module := head ranked_modules in
  let candidate_genes :=
    match best_module with
    | Some best =>
        if Qltb 0 (mm_score best) then
          py_take top_genes
            (rank_genes (cs_scorer self) (mm_module_id best) observed_ids)
        else []
    | None => []
    end in
  let predicted :=
    match best_module with
    | Some best =>
        if Qltb 0 (mm_score best) then
          py_take top_predictions
            (predict_missing_phenotypes (cs_predictor self)
               (mm_module_id best) observed_ids excluded_ids)
        else []
    | None => []
    end in
  let alternative_genes :=
    if decide (1 < length ranked_modules)%nat then
      let next_best_modules := take 4 (drop 1 ranked_modules) in
      let all_alternatives :=
        foldl (alternatives_step self observed_ids) [] next_best_modules in
      let all_alternatives :=
        sort_desc (λ x, (gc_support_score x, gc_stability_score x))
                  Qpair_ltb all_alternatives in
      py_take 3 all_alternatives
    else [] in
  let discriminative :=
    get_discriminative_questions (cs_predictor self) ranked_modules
                                 observed_ids excluded_ids 20 in
  let explanation :=
    match best_module with
    | Some best =>
        if Qltb 0 (mm_score best) then
          explain_scoring (cs_predictor self) (mm_module_id best)
                          observed_ids excluded_ids
        else []
    | None => []
    end in
  {| qr_matched_modules := ranked_modules;
     qr_best_module := best_module;
     qr_candidate_genes := candidate_genes;
     qr_alternative_genes := alternative_genes;
     qr_predicted_phenotypes := predicted;
     qr_discriminative_questions := discriminative;
     qr_explanation := explanation;
     qr_observed_phenotypes := elements observed_ids;
     qr_excluded_phenotypes := elements excluded_ids;
     qr_unmatched_inputs := all_unmatched |}.

(** Body of [for g in self.loader.get_module_genes(module_id)] in
    [query_gene]. *)
Definition module_gene_entry (self : ClinicalSupportEngine) (gene : string)
    (module_id : Z) (g : string) : option GeneCandidate :=
  match get_gene_info (cs_loader self) g with
  | Some g_info =>
      if decide (g = gene) then None
      else
        Some {| gc_gene := g;
                gc_module_id := module_id;
                gc_support_score := 0;
                gc_stability_score := gi_stability_score g_info;
                gc_classification := gi_classification g_info;
                gc_supporting_phenotypes := [] |}
  | None => None
  end.

(** Body of [for pred in char_phenotypes] in [query_gene]. *)
Definition characteristic_info (profile : ModuleProfile)
    (pred : PhenotypePrediction) : option PhenotypeInfo :=
  match mp_phenotypes profile !! pr_hpo_id pred with
  | Some pheno =>
      Some {| pi_name := pp_name pheno;
              pi_hpo_id := pr_hpo_id pred;
              pi_prevalence := pp_prevalence pheno;
              pi_specificity := pp_specificity pheno;
              pi_genes := pp_genes_with pheno |}
  | None => None
  end.

Definition query_gene (self : ClinicalSupportEngine) (gene : string)
    (top_phenotypes : Z) : option GeneQueryResult :=
  match get_gene_info (cs_loader self) gene with
  | None => None
  | Some gene_info =>
      let module_id := gi_module_id gene_info in
      let module_genes :=
        omap (module_gene_entry self gene module_id)
             (elements (get_module_genes (cs_loader self) module_id)) in
      let module_genes := sort_desc gc_stability_score Qltb module_genes in
      let char_phenotypes :=
        get_expected_phenotypes (cs_predictor self) module_id
                                top_phenotypes in
      let pheno_infos :=
        match get_module_profile (cs_loader self) module_id with
        | Some profile => omap (characteristic_info profile) char_phenotypes
        | None => []
        end in
      Some {| gq_gene := gene;
              gq_module_id := module_id;
              gq_stability_score := gi_stability_score gene_info;
              gq_classification := gi_classification gene_info;
              gq_module_genes := module_genes;
              gq_characteristic_phenotypes := pheno_infos |}
  end.

Definition suggest_next_phenotype (self : ClinicalSupportEngine)
    (observed excluded : list string) : option PhenotypePrediction :=
  let '(observed_ids, _) := _resolve_phenotypes self observed in
  let '(excluded_ids, _) := _resolve_phenotypes self excluded in
  let ranked := rank_modules (cs_scorer self) observed_ids excluded_ids in
  suggest_next_question (cs_predictor self) ranked observed_ids excluded_ids.

End clinical_support.

Import data_loader output_models scoring_engine prediction_engine
       decision_tree clinical_support.

(** * Reference definitions

    What the specification says the operations compute, written from its
    wording, to be compared with the embedding above. *)

(** The sum of [f] over the members of a set. *)
Definition set_sum (f : string → Q) (X : gset string) : Q :=
  Qsum (map f (elements X)).

(** [x] may stand before [y] in a list sorted by descending [key]. *)
Definition score_desc {A} (key : A → Q) (x y : A) : Prop :=
  (key y <= key x)%Q.

(** The phenotype map of a module; a module without a profile has none. *)
Definition phenotypes_of (loader : DataLoader) (module_id : Z)
  : gmap string PhenotypeProfile :=
  match get_module_profile loader module_id with
  | Some profile => mp_phenotypes profile
  | None => ∅
  end.

(** [prevalence_weight * (prevalence/100) + specificity_weight *
    (specificity/100)] *)
Definition phenotype_score (config : ScoringConfig) (pheno : PhenotypeProfile)
  : Q :=
  (prevalence_weight config * (pp_prevalence pheno / 100) +
   specificity_weight config * (pp_specificity pheno / 100))%Q.

(** What an observed identifier adds: the phenotype score when the module
    has the phenotype, nothing otherwise. *)
Definition observed_reward (config : ScoringConfig)
    (phenotypes : gmap string PhenotypeProfile) (hpo_id : string) : Q :=
  match phenotypes !! hpo_id with
  | Some pheno => phenotype_score config pheno
  | None => 0
  end.

(** What an excluded identifier takes away: the phenotype score times
    [exclusion_penalty] when the module has the phenotype with positive
    prevalence, nothing otherwise. *)
Definition excluded_penalty (config : ScoringConfig)
    (phenotypes : gmap string PhenotypeProfile) (hpo_id : string) : Q :=
  match phenotypes !! hpo_id with
  | Some pheno =>
      if Qltb 0 (pp_prevalence pheno)
      then (phenotype_score config pheno * exclusion_penalty config)%Q
      else 0
  | None => 0
  end.

(** Rewards minus penalties, floored at zero. *)
Definition module_score (config : ScoringConfig)
    (phenotypes : gmap string PhenotypeProfile)
    (observed_ids excluded_ids : gset string) : Q :=
  Qmax 0 (set_sum (observed_reward config phenotypes) observed_ids -
          set_sum (excluded_penalty config phenotypes) excluded_ids).

(** [x] stands before [y] in a ranking: a higher score, or the same score
    and a lower module identifier. *)
Definition ranked_before (x y : ModuleMatch) : Prop :=
  (mm_score y < mm_score x)%Q ∨
  (mm_score x == mm_score y ∧ (mm_module_id x < mm_module_id y)%Z).

(** [x] may stand before [y] in a list sorted by descending pairs: a
    greater first component, or equal first components and a second one
    that is not smaller. *)
Definition lex_desc {A} (key : A → Q * Q) (x y : A) : Prop :=
  ((key y).1 < (key x).1)%Q ∨
  ((key x).1 == (key y).1 ∧ ((key y).2 <= (key x).2)%Q).

(** The key of the sort in [rank_genes]. *)
Definition gene_sort_key (c : GeneCandidate) : Q * Q :=
  (gc_support_score c, gc_stability_score c).

(** [d[k] = v] on a list of keys: a new key goes last. *)
Definition add_key (k : string) (keys : list string) : list string :=
  if decide (k ∈ keys) then keys else keys ++ [k].

(** The score predictions are ordered by: [prevalence * specificity / 100]. *)
Definition prediction_score (p : PhenotypePrediction) : Q :=
  (pr_prevalence p * pr_specificity p / 100)%Q.

(** A prediction that reports a phenotype of the map: its identifier is a
    key and it carries that phenotype's name and numbers. *)
Definition predicts (phenotypes : gmap string PhenotypeProfile)
    (p : PhenotypePrediction) : Prop :=
  ∃ pheno, phenotypes !! pr_hpo_id p = Some pheno ∧
           pr_name p = pp_name pheno ∧
           pr_prevalence p = pp_prevalence pheno ∧
           pr_specificity p = pp_specificity pheno.

(** How well a phenotype of the top module tells it from the runner-up:
    the gap between the two prevalences, weighted by their mean over 100. *)
Definition weighted_discrimination (second_profile : ModuleProfile)
    (hpo_id : string) (pheno : PhenotypeProfile) : Q :=
  (Qabs (pp_prevalence pheno - second_prevalence_of second_profile hpo_id) *
   ((pp_prevalence pheno + second_prevalence_of second_profile hpo_id) / 2
    / 100))%Q.

(** A phenotype worth asking about: not asked yet, and with a mean
    prevalence of at least 10. *)
Definition askable (second_profile : ModuleProfile)
    (already_asked : gset string) (hpo_id : string)
    (pheno : PhenotypeProfile) : Prop :=
  (hpo_id ∉ already_asked) ∧
  (10 <= (pp_prevalence pheno + second_prevalence_of second_profile hpo_id)
         / 2)%Q.

(** An excluded identifier that [explain_scoring] writes an entry for: the
    module has it, with a prevalence above zero. *)
Definition is_penalised (phenotypes : gmap string PhenotypeProfile)
    (hpo_id : string) : bool :=
  match phenotypes !! hpo_id with
  | Some pheno => Qltb 0 (pp_prevalence pheno)
  | None => false
  end.

(** A valid cache holds the ranking of the current answers. *)
Definition cache_coherent (self : InteractiveSession) : Prop :=
  _cache_valid self = true →
  _cached_modules self =
  rank_modules (scorer self) (observed (state self)) (excluded (state self)).

(** The response of the latest history entry filed under a key. *)
Definition last_response (entries : list (string * string * Response))
    (key : string) : option Response :=
  foldl (λ acc entry, if decide (entry.1.2 = key) then Some entry.2 else acc)
        None entries.

(** What [_resolve_phenotypes] accepts for an input: its resolution, unless
    there is none or it is the empty string. *)
Definition resolves_to (data : DataLoader) (identifier : string)
  : option string :=
  match resolve_phenotype data identifier with
  | Some hpo_id => if decide (hpo_id = "") then None else Some hpo_id
  | None => None
  end.

(** The inputs [_resolve_phenotypes] reports as unmatched. *)
Definition is_unmatched (data : DataLoader) (identifier : string) : bool :=
  bool_decide (resolves_to data identifier = None).

(** A query result without its list of unmatched inputs. *)
Definition forget_unmatched (q : QueryResult) : QueryResult :=
  {| qr_matched_modules := qr_matched_modules q;
     qr_best_module := qr_best_module q;
     qr_candidate_genes := qr_candidate_genes q;
     qr_alternative_genes := qr_alternative_genes q;
     qr_predicted_phenotypes := qr_predicted_phenotypes q;
     qr_discriminative_questions := qr_discriminative_questions q;
     qr_explanation := qr_explanation q;
     qr_observed_phenotypes := qr_observed_phenotypes q;
     qr_excluded_phenotypes := qr_excluded_phenotypes q;
     qr_unmatched_inputs := [] |}.

(** The weighted discrimination of a question, read off the prediction:
    its prevalence is the top module's. *)
Definition question_weight (second_profile : ModuleProfile)
    (q : PhenotypePrediction) : Q :=
  (Qabs (pr_prevalence q - second_prevalence_of second_profile (pr_hpo_id q)) *
   ((pr_prevalence q + second_prevalence_of second_profile (pr_hpo_id q)) / 2
    / 100))%Q.

(** What one observed identifier adds to a gene's support: the phenotype
    score once for every occurrence of the gene in the phenotype's
    [genes_with], nothing when the module lacks the phenotype. *)
Definition phenotype_support (self : ScoringEngine) (profile : ModuleProfile)
    (gene : string) (hpo_id : string) : Q :=
  match mp_phenotypes profile !! hpo_id with
  | Some pheno =>
      Qsum (map (λ g, if decide (g = gene) then score_phenotype self pheno
                      else 0%Q)
                (pp_genes_with pheno))
  | None => 0
  end.

(** The running score filed under a gene, zero when there is none. *)
Definition score_in (gene_scores : gene_scores_t) (gene : string) : Q :=
  match alist_get gene gene_scores with
  | Some (score, _) => score
  | None => 0
  end.

(** The entries the two loops of [score_module] append for one identifier:
    one for an observed identifier the module has, one for an excluded
    identifier the module has with a prevalence above zero, none otherwise. *)
Definition observed_entries (self : ScoringEngine) (profile : ModuleProfile)
    (hpo_id : string) : list ExplainabilityItem :=
  match mp_phenotypes profile !! hpo_id with
  | Some pheno =>
      [{| ei_phenotype_name := pp_name pheno;
          ei_hpo_id := hpo_id;
          ei_contribution := score_phenotype self pheno;
          ei_explanation :=
            PresentInModule (pp_prevalence pheno) (pp_specificity pheno) |}]
  | None => []
  end.

Definition excluded_entries (self : ScoringEngine) (profile : ModuleProfile)
    (hpo_id : string) : list ExplainabilityItem :=
  match mp_phenotypes profile !! hpo_id with
  | Some pheno =>
      if Qltb 0 (pp_prevalence pheno) then
        [{| ei_phenotype_name := pp_name pheno;
            ei_hpo_id := hpo_id;
            ei_contribution :=
              (- (score_phenotype self pheno *
                  exclusion_penalty (se_config self)))%Q;
            ei_explanation := ExcludedButPresent |}]
      else []
  | None => []
  end.

(** An identifier the phenotype map does not have. *)
Definition is_absent (phenotypes : gmap string PhenotypeProfile)
    (hpo_id : string) : bool :=
  match phenotypes !! hpo_id with
  | Some _ => false
  | None => true
  end.

(** The data model's ranges: prevalence and specificity are percentages. *)
Definition profile_in_range (pheno : PhenotypeProfile) : Prop :=
  ((0 <= pp_prevalence pheno)%Q ∧ (pp_prevalence pheno <= 100)%Q) ∧
  ((0 <= pp_specificity pheno)%Q ∧ (pp_specificity pheno <= 100)%Q).

Definition phenotypes_in_range (phenotypes : gmap string PhenotypeProfile)
  : Prop :=
  map_Forall (λ _ pheno, profile_in_range pheno) phenotypes.

(** Weights and penalty that are not negative, as the defaults are. *)
Definition weights_nonneg (config : ScoringConfig) : Prop :=
  (0 <= prevalence_weight config)%Q ∧
  (0 <= specificity_weight config)%Q ∧
  (0 <= exclusion_penalty config)%Q.

(** The three answer sets of a session share no identifier. *)
Definition sets_disjoint (st : SessionState) : Prop :=
  observed st ## excluded st ∧
  observed st ## unknown st ∧
  excluded st ## unknown st.

(** The key [answer] files an identifier under: its resolution, or the
    identifier itself when it does not resolve. *)
Definition answer_key (loader : DataLoader) (identifier : string) : string :=
  default identifier (resolve_phenotype loader identifier).

(** [phenotype_name or identifier]: the name an answer is filed under in
    the history. *)
Definition history_name (phenotype_name : option string)
    (identifier : string) : string :=
  match phenotype_name with
  | Some n => if decide (n = "") then identifier else n
  | None => identifier
  end.

(** The set of a session state that matches a response. *)
Definition response_set (st : SessionState) (response : Response)
  : gset string :=
  match response with
  | YES => observed st
  | NO => excluded st
  | UNKNOWN => unknown st
  end.

(** The entry [explain_scoring] makes for an excluded phenotype of the
    module: minus [(prevalence + specificity) / 400]. *)
Definition exclusion_item (hpo_id : string) (pheno : PhenotypeProfile)
  : ExplainabilityItem :=
  {| ei_phenotype_name := pp_name pheno;
     ei_hpo_id := hpo_id;
     ei_contribution :=
       (- ((pp_prevalence pheno + pp_specificity pheno) / 400))%Q;
     ei_explanation := PenalizesModule (pp_prevalence pheno) |}.

(** The stability adjustment of a gene's support score: plus the bonus for
    a core gene, minus half of it for an unstable one, nothing otherwise. *)
Definition stability_adjustment (config : ScoringConfig)
    (classification : string) : Q :=
  if decide (classification = "core") then stability_bonus config
  else if decide (classification = "unstable")
       then (- (stability_bonus config * (1 # 2)))%Q
       else 0.

(** A candidate for a gene no observed phenotype supports: no supporting
    phenotype, and a support score that is the stability adjustment of the
    gene's classification. *)
Definition untouched_candidate (self : ScoringEngine) (module_id : Z)
    (c : GeneCandidate) : Prop :=
  gc_module_id c = module_id ∧
  gc_supporting_phenotypes c = [] ∧
  ∃ gene_info,
    get_gene_info (se_loader self) (gc_gene c) = Some gene_info ∧
    gc_classification c = gi_classification gene_info ∧
    gc_stability_score c = gi_stability_score gene_info ∧
    gc_support_score c ==
      stability_adjustment (se_config self) (gi_classification gene_info).

(** Every gene listed under a module has an entry in the gene table. *)
Definition module_genes_classified (data : DataLoader) : Prop :=
  ∀ module_id genes gene,
    module_genes data !! module_id = Some genes → gene ∈ genes →
    is_Some (gene_mapping data !! gene).



(** Deciding the range conditions, to check them on concrete data. *)
#[global] Instance Qle_decision (a b : Q) : Decision (a <= b)%Q.
Proof.
  destruct (Qlt_le_dec b a) as [H|H].
  - right. by apply Qlt_not_le.
  - by left.
Defined.

#[global] Instance Qlt_decision (a b : Q) : Decision (a < b)%Q.
Proof.
  destruct (Qlt_le_dec a b) as [H|H].
  - by left.
  - right. by apply Qle_not_lt.
Defined.

#[global] Instance Response_eq_dec : EqDecision Response.
Proof. solve_decision. Defined.

#[global] Instance Qeq_decision (a b : Q) : Decision (a == b).
Proof. apply Qeq_dec. Defined.

#[global] Instance profile_in_range_decision (pheno : PhenotypeProfile) :
  Decision (profile_in_range pheno).
Proof. unfold profile_in_range. apply _. Defined.

#[global] Instance phenotypes_in_range_decision
    (phenotypes : gmap string PhenotypeProfile) :
  Decision (phenotypes_in_range phenotypes).
Proof. unfold phenotypes_in_range. apply _. Defined.

#[global] Instance weights_nonneg_decision (config : ScoringConfig) :
  Decision (weights_nonneg config).
Proof. unfold weights_nonneg. apply _. Defined.

(** * A small reference data set

    Two modules sharing one phenotype, and four classified genes; used to
    run the definitions on concrete input. *)

Definition ex_phenotype (name hpo_id : string) (prevalence specificity : Q)
    (genes_with : list string) : PhenotypeProfile :=
  {| pp_name := name; pp_hpo_id := hpo_id;
     pp_genes_with := genes_with; pp_genes_without := [];
     pp_prevalence := prevalence; pp_specificity := specificity;
     pp_non_target_ird_genes := []; pp_non_ird_genes := [] |}.

Definition ex_module_7 : ModuleProfile :=
  {| mp_module_id := 7;
     mp_phenotypes :=
       <["HP:0001513" :=
           ex_phenotype "Obesity" "HP:0001513" 80 40 ["BBS1"; "BBS2"]]>
       (<["HP:0000510" :=
           ex_phenotype "Rod-cone dystrophy" "HP:0000510" 90 10 ["BBS1"]]> ∅);
     mp_all_genes := {["BBS1"; "BBS2"; "ARL6"]} |}.

Definition ex_module_11 : ModuleProfile :=
  {| mp_module_id := 11;
     mp_phenotypes :=
       <["HP:0000407" :=
           ex_phenotype "Sensorineural hearing impairment" "HP:0000407"
                        70 50 ["USH2A"]]>
       (<["HP:0000510" :=
           ex_phenotype "Rod-cone dystrophy" "HP:0000510" 60 5 ["USH2A"]]> ∅);
     mp_all_genes := {["USH2A"]} |}.

Definition ex_profiles : gmap Z ModuleProfile :=
  <[7%Z := ex_module_7]> (<[11%Z := ex_module_11]> ∅).

Definition ex_gene_row (gene : string) (module_id : Z) (stability : Q)
    (classification : string) : GeneRow :=
  {| row_gene := Some gene; row_module_id := module_id;
     row_stability_score := stability;
     row_classification := classification |}.

Definition ex_rows : list GeneRow :=
  [ ex_gene_row "BBS1" 7 (9 # 10) "core";
    ex_gene_row "BBS2" 7 (1 # 2) "peripheral";
    ex_gene_row "ARL6" 7 (1 # 5) "unstable";
    ex_gene_row "USH2A" 11 (4 # 5) "core" ].

Definition ex_loader : DataLoader := load ex_rows ex_profiles.

Definition ex_scorer : ScoringEngine := ScoringEngine_init ex_loader None.

(** The ranking of the reference data for one observed phenotype. *)
Definition ex_ranking : list ModuleMatch :=
  Eval vm_compute in rank_modules ex_scorer {["HP:0000510"]} ∅.

(** A workbook whose identifier column holds a lower-case [hp:] key. *)
Definition lowercase_key_profiles : gmap Z ModuleProfile :=
  <[3%Z := {| mp_module_id := 3;
              mp_phenotypes :=
                <["hp:0000510" :=
                    ex_phenotype "Rod-cone dystrophy" "hp:0000510"
                                 90 10 ["RHO"]]> ∅;
              mp_all_genes := {["RHO"]} |}]> ∅.


(** * Properties *)

(** ** Comparisons and sums of rationals *)

Lemma Qltb_lt (a b : Q) : Qltb a b = true ↔ (a < b)%Q.
Proof.
  unfold Qltb. rewrite Qlt_alt. destruct (a ?= b)%Q; split; congruence.
Qed.

Lemma Qltb_ge (a b : Q) : Qltb a b = false ↔ (b <= a)%Q.
Proof.
  unfold Qltb. rewrite Qge_alt. destruct (a ?= b)%Q; split; congruence.
Qed.

Lemma Qsum_app (l1 l2 : list Q) : Qsum (l1 ++ l2) == (Qsum l1 + Qsum l2)%Q.
Proof.
  induction l1 as [|x l1 IH]; simpl.
  - lra.
  - rewrite IH. lra.
Qed.

Lemma Qsum_Permutation (l1 l2 : list Q) : l1 ≡ₚ l2 → Qsum l1 == Qsum l2.
Proof.
  induction 1 as [|x l1 l2 _ IH|x y l|l1 l2 l3 _ IH1 _ IH2]; simpl.
  - reflexivity.
  - rewrite IH. reflexivity.
  - lra.
  - rewrite IH1. exact IH2.
Qed.


Lemma Qsum_map_zero {A} (f : A → Q) (l : list A) :
  Forall (λ a, f a == 0) l → Qsum (map f l) == 0.
Proof.
  induction 1 as [|a l Ha _ IH]; simpl.
  - reflexivity.
  - rewrite Ha, IH. lra.
Qed.

(** Sums over the elements of a finite set. *)
Section set_sums.
Context (f : string → Q).
Local Abbreviation set_sum := (set_sum f).

Lemma set_sum_disj_union (X Y : gset string) :
  X ## Y → set_sum (X ∪ Y) == (set_sum X + set_sum Y)%Q.
Proof.
  intros Hdisj. unfold set_sum.
  rewrite (Qsum_Permutation _ (map f (elements X ++ elements Y))).
  - rewrite map_app. apply Qsum_app.
  - apply Permutation_map, elements_disj_union, Hdisj.
Qed.

Lemma set_sum_singleton (x : string) : set_sum {[x]} == f x.
Proof. unfold set_sum. rewrite elements_singleton. simpl. lra. Qed.


(** An element whose term is zero can be added or removed freely. *)
Lemma set_sum_difference_zero (X : gset string) (x : string) :
  f x == 0 → set_sum (X ∖ {[x]}) == set_sum X.
Proof.
  intros Hx. destruct (decide (x ∈ X)) as [Hin|Hnin].
  - assert (X = {[x]} ∪ X ∖ {[x]}) as HX.
    { apply union_difference_L. set_solver. }
    rewrite HX at 2.
    rewrite set_sum_disj_union by set_solver.
    rewrite set_sum_singleton, Hx. lra.
  - replace (X ∖ {[x]}) with X by set_solver. reflexivity.
Qed.

Lemma set_sum_insert_zero (X : gset string) (x : string) :
  f x == 0 → set_sum ({[x]} ∪ X ∖ {[x]}) == set_sum X.
Proof.
  intros Hx. rewrite set_sum_disj_union by set_solver.
  rewrite set_sum_singleton, Hx, set_sum_difference_zero by exact Hx. lra.
Qed.
End set_sums.

(** ** The stable descending sort *)
Section stable_sort_facts.
Context {A K : Type} (key : A → K) (ltb : K → K → bool).

Lemma insert_desc_Permutation (x : A) (l : list A) :
  insert_desc key ltb x l ≡ₚ x :: l.
Proof.
  induction l as [|y l IH]; simpl; [done|].
  destruct (ltb (key x) (key y)); [|done].
  rewrite IH. apply perm_swap.
Qed.

Lemma sort_desc_Permutation (l : list A) : sort_desc key ltb l ≡ₚ l.
Proof.
  induction l as [|x l IH]; simpl; [done|].
  rewrite insert_desc_Permutation. by f_equiv.
Qed.

Lemma elem_of_sort_desc (x : A) (l : list A) :
  x ∈ sort_desc key ltb l ↔ x ∈ l.
Proof. by rewrite sort_desc_Permutation. Qed.
End stable_sort_facts.

Section sort_by_score.
Context {A : Type} (key : A → Q).

Lemma insert_desc_sorted (x : A) (l : list A) :
  StronglySorted (score_desc key) l →
  StronglySorted (score_desc key) (insert_desc key Qltb x l).
Proof.
  induction 1 as [|y l Hl IH Hy]; simpl.
  - repeat constructor.
  - destruct (Qltb (key x) (key y)) eqn:Hcmp.
    + constructor; [exact IH|].
      apply Forall_forall. intros z Hz.
      rewrite insert_desc_Permutation in Hz.
      apply elem_of_cons in Hz as [-> |Hz].
      * apply Qltb_lt in Hcmp. unfold score_desc. lra.
      * rewrite Forall_forall in Hy. by apply Hy.
    + apply Qltb_ge in Hcmp.
      constructor; [by constructor|].
      constructor; [exact Hcmp|].
      eapply Forall_impl; [exact Hy|].
      unfold score_desc. simpl. intros z Hz. lra.
Qed.

Lemma sort_desc_sorted (l : list A) :
  StronglySorted (score_desc key) (sort_desc key Qltb l).
Proof.
  induction l as [|x l IH]; simpl.
  - constructor.
  - by apply insert_desc_sorted.
Qed.
End sort_by_score.

(** ** [score_module] *)
Section score_module_facts.
Context (self : ScoringEngine) (profile : ModuleProfile).

Lemma score_phenotype_eq (pheno : PhenotypeProfile) :
  score_phenotype self pheno = phenotype_score (se_config self) pheno.
Proof. reflexivity. Qed.

(** The first loop adds the rewards one by one. *)
Lemma foldl_score_observed (l : list string) (st : score_state) :
  (foldl (score_observed self profile) st l).1 ==
  (st.1 + Qsum (map (observed_reward (se_config self)
                                     (mp_phenotypes profile)) l))%Q.
Proof.
  revert st. induction l as [|h l IH]; intros st; simpl.
  - lra.
  - rewrite IH. unfold score_observed, observed_reward.
    destruct (mp_phenotypes profile !! h); simpl.
    + rewrite score_phenotype_eq. lra.
    + lra.
Qed.

(** The second loop takes the penalties away one by one. *)
Lemma foldl_score_excluded (l : list string) (st : score_state) :
  (foldl (score_excluded self profile) st l).1 ==
  (st.1 - Qsum (map (excluded_penalty (se_config self)
                                      (mp_phenotypes profile)) l))%Q.
Proof.
  revert st. induction l as [|h l IH]; intros st; simpl.
  - lra.
  - rewrite IH. unfold score_excluded, excluded_penalty.
    destruct (mp_phenotypes profile !! h) as [pheno|]; simpl; [|lra].
    destruct (Qltb 0 (pp_prevalence pheno)); simpl.
    + rewrite score_phenotype_eq. lra.
    + lra.
Qed.
End score_module_facts.

Lemma score_module_known (self : ScoringEngine) (module_id : Z)
    (profile : ModuleProfile) (observed_ids excluded_ids : gset string) :
  get_module_profile (se_loader self) module_id = Some profile →
  (score_module self module_id observed_ids excluded_ids).1 ==
  module_score (se_config self) (mp_phenotypes profile)
               observed_ids excluded_ids.
Proof.
  intros Hp. unfold score_module, module_score, set_sum. rewrite Hp. simpl.
  apply Q.max_compat; [reflexivity|].
  rewrite foldl_score_excluded, foldl_score_observed. simpl. lra.
Qed.

Lemma score_module_nonneg (self : ScoringEngine) (module_id : Z)
    (observed_ids excluded_ids : gset string) :
  (0 <= (score_module self module_id observed_ids excluded_ids).1)%Q.
Proof.
  unfold score_module.
  destruct (get_module_profile (se_loader self) module_id); simpl.
  - apply Q.le_max_l.
  - lra.
Qed.

(** The score of any module, known or not, in the specification's terms. *)
Lemma score_module_eq (self : ScoringEngine) (module_id : Z)
    (observed_ids excluded_ids : gset string) :
  (score_module self module_id observed_ids excluded_ids).1 ==
  module_score (se_config self) (phenotypes_of (se_loader self) module_id)
               observed_ids excluded_ids.
Proof.
  unfold phenotypes_of.
  destruct (get_module_profile (se_loader self) module_id) as [profile|] eqn:Hp.
  - by apply score_module_known.
  - unfold score_module, module_score, set_sum. rewrite Hp. simpl.
    rewrite !Qsum_map_zero.
    + reflexivity.
    + apply Forall_forall. intros h _. unfold excluded_penalty.
      by rewrite lookup_empty.
    + apply Forall_forall. intros h _. unfold observed_reward.
      by rewrite lookup_empty.
Qed.

(** C1. For every module identifier and every pair of observed and excluded
    sets, the score returned by [score_module] is the sum, over the observed
    identifiers present in the module's phenotype map, of
    [prevalence_weight*(prevalence/100) + specificity_weight*(specificity/100)],
    minus the sum, over the excluded identifiers present with prevalence
    above zero, of that phenotype score times [exclusion_penalty]; absent
    identifiers contribute nothing, and the result is the maximum of 0 and
    that signed sum. *)
Theorem score_module_is_floored_signed_sum (self : ScoringEngine)
    (module_id : Z) (observed_ids excluded_ids : gset string) :
  (score_module self module_id observed_ids excluded_ids).1 ==
  Qmax 0
    (set_sum (observed_reward (se_config self)
                (phenotypes_of (se_loader self) module_id)) observed_ids -
     set_sum (excluded_penalty (se_config self)
                (phenotypes_of (se_loader self) module_id)) excluded_ids).
Proof. apply score_module_eq. Qed.


(** ** The entries of an explanation *)
Section entries_of_sets.
Context {A : Type} (f : string → list A).


End entries_of_sets.

Section score_module_entries.
Context (self : ScoringEngine) (profile : ModuleProfile).

Lemma foldl_score_observed_entries (l : list string) (st : score_state) :
  (foldl (score_observed self profile) st l).2 =
  st.2 ++ (l ≫= observed_entries self profile).
Proof.
  revert st. induction l as [|h l IH]; intros st; cbn [foldl].
  - by rewrite app_nil_r.
  - rewrite IH, bind_cons, app_assoc. f_equal.
    unfold score_observed, observed_entries.
    destruct (mp_phenotypes profile !! h); [done|by rewrite app_nil_r].
Qed.

Lemma foldl_score_excluded_entries (l : list string) (st : score_state) :
  (foldl (score_excluded self profile) st l).2 =
  st.2 ++ (l ≫= excluded_entries self profile).
Proof.
  revert st. induction l as [|h l IH]; intros st; cbn [foldl].
  - by rewrite app_nil_r.
  - rewrite IH, bind_cons, app_assoc. f_equal.
    unfold score_excluded, excluded_entries.
    destruct (mp_phenotypes profile !! h) as [ph|]; [|by rewrite app_nil_r].
    destruct (Qltb 0 (pp_prevalence ph)); [done|by rewrite app_nil_r].
Qed.

End score_module_entries.

(** The explanation of a known module, loop by loop. *)
Lemma score_module_entries (self : ScoringEngine) (module_id : Z)
    (profile : ModuleProfile) (observed_ids excluded_ids : gset string) :
  get_module_profile (se_loader self) module_id = Some profile →
  (score_module self module_id observed_ids excluded_ids).2 =
  (elements observed_ids ≫= observed_entries self profile) ++
  (elements excluded_ids ≫= excluded_entries self profile).
Proof.
  intros Hp. unfold score_module. rewrite Hp. cbn [snd].
  by rewrite foldl_score_excluded_entries, foldl_score_observed_entries.
Qed.





Example ex_score_7 :
  (score_module ex_scorer 7 {["HP:0001513"]} {["HP:0000510"]}).1 == 7 # 10.
Proof. vm_compute. reflexivity. Qed.

(** ** [get_all_module_ids] *)

Lemma get_all_module_ids_Permutation (loader : DataLoader) :
  get_all_module_ids loader ≡ₚ elements (dom (module_profiles loader)).
Proof. apply merge_sort_Permutation. Qed.

Lemma NoDup_get_all_module_ids (loader : DataLoader) :
  NoDup (get_all_module_ids loader).
Proof.
  rewrite get_all_module_ids_Permutation. apply NoDup_elements.
Qed.

Lemma elem_of_get_all_module_ids (loader : DataLoader) (module_id : Z) :
  module_id ∈ get_all_module_ids loader ↔
  is_Some (get_module_profile loader module_id).
Proof.
  rewrite get_all_module_ids_Permutation, elem_of_elements, elem_of_dom.
  reflexivity.
Qed.

(** ** [rank_modules] *)
Section rank_modules_facts.
Context (self : ScoringEngine) (observed_ids excluded_ids : gset string).

Local Abbreviation module_match :=
  (module_match self observed_ids excluded_ids).

Lemma module_match_id (module_id : Z) :
  mm_module_id (module_match module_id) = module_id.
Proof.
  unfold scoring_engine.module_match.
  destruct (score_module _ _ _ _) as [score explanations].
  by destruct (foldl _ _ _).
Qed.

Lemma module_match_score (module_id : Z) :
  mm_score (module_match module_id) =
  (score_module self module_id observed_ids excluded_ids).1.
Proof.
  unfold scoring_engine.module_match.
  destruct (score_module _ _ _ _) as [score explanations].
  by destruct (foldl _ _ _).
Qed.

Lemma module_match_confidence (module_id : Z) :
  mm_confidence (module_match module_id) = 0%Q.
Proof.
  unfold scoring_engine.module_match.
  destruct (score_module _ _ _ _) as [score explanations].
  by destruct (foldl _ _ _).
Qed.

Lemma map_id_module_match (ids : list Z) :
  map mm_module_id (map module_match ids) = ids.
Proof.
  induction ids as [|i ids IH]; simpl; [done|].
  by rewrite module_match_id, IH.
Qed.
End rank_modules_facts.

(** The confidence step changes nothing but the confidence. *)
Lemma assign_confidence_ids (results : list ModuleMatch) :
  map mm_module_id (assign_confidence results) = map mm_module_id results.
Proof.
  destruct results as [|r0 [|r1 rest]]; simpl; [done| |].
  - by destruct (Qltb 0 (mm_score r0)).
  - destruct (Qltb 0 (mm_score r0)); [|done]. simpl.
    f_equal. f_equal. rewrite map_map. by apply map_ext.
Qed.

Lemma assign_confidence_scores (results : list ModuleMatch) :
  map mm_score (assign_confidence results) = map mm_score results.
Proof.
  destruct results as [|r0 [|r1 rest]]; simpl; [done| |].
  - by destruct (Qltb 0 (mm_score r0)).
  - destruct (Qltb 0 (mm_score r0)); [|done]. simpl.
    f_equal. f_equal. rewrite map_map. by apply map_ext.
Qed.

Lemma assign_confidence_id_score (results : list ModuleMatch) :
  map (λ m, (mm_module_id m, mm_score m)) (assign_confidence results) =
  map (λ m, (mm_module_id m, mm_score m)) results.
Proof.
  destruct results as [|r0 [|r1 rest]]; simpl; [done| |].
  - by destruct (Qltb 0 (mm_score r0)).
  - destruct (Qltb 0 (mm_score r0)); [|done]. simpl.
    f_equal. f_equal. rewrite map_map. by apply map_ext.
Qed.

(** Sortedness by a key only looks at the keys. *)
Lemma sorted_same_keys {A} (key : A → Q) (l l' : list A) :
  map key l = map key l' →
  StronglySorted (score_desc key) l → StronglySorted (score_desc key) l'.
Proof.
  revert l'. induction l as [|x l IH]; intros [|x' l'] Heq Hs;
    simpl in Heq; try discriminate; [constructor|].
  injection Heq as Hx Hl.
  apply StronglySorted_inv in Hs as [Hs Hall].
  constructor; [by apply IH|].
  unfold score_desc in *.
  apply (Forall_map key (λ q, (q <= key x')%Q)).
  rewrite <- Hl, <- Hx.
  by apply (Forall_map key (λ q, (q <= key x)%Q)).
Qed.

Lemma rank_modules_ids (self : ScoringEngine)
    (observed_ids excluded_ids : gset string) :
  map mm_module_id (rank_modules self observed_ids excluded_ids) ≡ₚ
  get_all_module_ids (se_loader self).
Proof.
  unfold rank_modules. rewrite assign_confidence_ids.
  rewrite (Permutation_map _ (sort_desc_Permutation _ _ _)).
  by rewrite map_id_module_match.
Qed.

Lemma rank_modules_sorted (self : ScoringEngine)
    (observed_ids excluded_ids : gset string) :
  StronglySorted (score_desc mm_score)
                 (rank_modules self observed_ids excluded_ids).
Proof.
  unfold rank_modules.
  eapply sorted_same_keys; [symmetry; apply assign_confidence_scores|].
  apply sort_desc_sorted.
Qed.

Lemma rank_modules_scores (self : ScoringEngine)
    (observed_ids excluded_ids : gset string) :
  Forall (λ m, mm_score m =
               (score_module self (mm_module_id m)
                             observed_ids excluded_ids).1)
         (rank_modules self observed_ids excluded_ids).
Proof.
  unfold rank_modules.
  set (sorted := sort_desc _ _ _).
  assert (Forall (λ p : Z * Q,
            p.2 = (score_module self p.1 observed_ids excluded_ids).1)
          (map (λ m, (mm_module_id m, mm_score m)) sorted)) as H.
  { apply Forall_map, Forall_forall. intros m Hm. simpl.
    apply elem_of_sort_desc, list_elem_of_In, in_map_iff in Hm
      as (i & <- & _).
    by rewrite module_match_id, module_match_score. }
  rewrite <- assign_confidence_id_score in H.
  by apply Forall_map in H.
Qed.

(** C2. For every observed and excluded set, [rank_modules] returns exactly
    one [ModuleMatch] for each module identifier the data provider knows,
    whatever its score, and the list is sorted by score, highest first. *)
Theorem rank_modules_one_match_per_module_sorted (self : ScoringEngine)
    (observed_ids excluded_ids : gset string) :
  let results := rank_modules self observed_ids excluded_ids in
  NoDup (map mm_module_id results) ∧
  (∀ module_id,
     module_id ∈ map mm_module_id results ↔
     is_Some (get_module_profile (se_loader self) module_id)) ∧
  Forall (λ m, mm_score m =
               (score_module self (mm_module_id m)
                             observed_ids excluded_ids).1) results ∧
  StronglySorted (score_desc mm_score) results.
Proof.
  simpl. repeat split.
  - rewrite rank_modules_ids. apply NoDup_get_all_module_ids.
  - rewrite rank_modules_ids. apply elem_of_get_all_module_ids.
  - rewrite rank_modules_ids. apply elem_of_get_all_module_ids.
  - apply rank_modules_scores.
  - apply rank_modules_sorted.
Qed.

(** ** Confidence *)

Lemma clamp_unit_range (x : Q) :
  (0 <= Qmin 1 (Qmax 0 x))%Q ∧ (Qmin 1 (Qmax 0 x) <= 1)%Q.
Proof.
  split.
  - apply Q.min_glb; [lra|apply Q.le_max_l].
  - apply Q.le_min_l.
Qed.

(** [min(1.0, max(0.0, x))] returns its first argument, the literal [1],
    as soon as [x] is worth one. *)
Lemma clamp_unit_one (x : Q) : x == 1 → Qmin 1 (Qmax 0 x) = 1%Q.
Proof.
  intros Hx. unfold Qmin, GenericMinMax.gmin.
  destruct (1 ?= Qmax 0 x)%Q eqn:Hcmp; try reflexivity.
  apply Qgt_alt in Hcmp.
  pose proof (Q.le_max_r 0 x). lra.
Qed.

Lemma relative_confidence_range (s s0 c0 : Q) :
  (0 <= s)%Q → (s <= s0)%Q → (0 < s0)%Q → (0 <= c0)%Q → (c0 <= 1)%Q →
  (0 <= s / s0 * (1 - c0))%Q ∧ (s / s0 * (1 - c0) <= 1)%Q.
Proof.
  intros Hs Hle Hs0 Hc0 Hc1.
  assert (0 <= s / s0)%Q by (apply Qle_shift_div_l; lra).
  assert (s / s0 <= 1)%Q by (apply Qle_shift_div_r; lra).
  split; nra.
Qed.

(** A confidence in the closed unit interval. *)
Lemma assign_confidence_range (results : list ModuleMatch) :
  StronglySorted (score_desc mm_score) results →
  Forall (λ m, (0 <= mm_score m)%Q) results →
  Forall (λ m, (0 <= mm_confidence m)%Q ∧ (mm_confidence m <= 1)%Q) results →
  Forall (λ m, (0 <= mm_confidence m)%Q ∧ (mm_confidence m <= 1)%Q)
         (assign_confidence results).
Proof.
  intros Hsorted Hscore Hconf.
  destruct results as [|r0 [|r1 rest]]; unfold assign_confidence;
    [constructor| |].
  - destruct (Qltb 0 (mm_score r0)); [|exact Hconf].
    constructor; [|constructor]. simpl. lra.
  - destruct (Qltb 0 (mm_score r0)) eqn:Hpos; [|exact Hconf].
    apply Qltb_lt in Hpos.
    set (c0 := Qmin 1 _).
    assert ((0 <= c0)%Q ∧ (c0 <= 1)%Q) as [Hc0 Hc1]
      by apply clamp_unit_range.
    constructor; [by simpl|].
    apply StronglySorted_inv in Hsorted as [_ Hle].
    apply Forall_cons in Hscore as [_ Hscore].
    apply Forall_map, Forall_forall. intros m Hm. simpl.
    rewrite Forall_forall in Hle, Hscore.
    apply relative_confidence_range; auto.
    by apply Hle.
Qed.

(** C4. Every [ModuleMatch] returned by [rank_modules] has its confidence
    in the closed interval from 0 to 1: the first one by the clamp, the
    others because scores are not negative and the list is sorted. *)
Theorem rank_modules_confidence_in_unit_interval (self : ScoringEngine)
    (observed_ids excluded_ids : gset string) :
  Forall (λ m, (0 <= mm_confidence m)%Q ∧ (mm_confidence m <= 1)%Q)
         (rank_modules self observed_ids excluded_ids).
Proof.
  unfold rank_modules. apply assign_confidence_range.
  - apply sort_desc_sorted.
  - apply Forall_forall. intros m Hm.
    apply elem_of_sort_desc, list_elem_of_In, in_map_iff in Hm
      as (i & <- & _).
    rewrite module_match_score. apply score_module_nonneg.
  - apply Forall_forall. intros m Hm.
    apply elem_of_sort_desc, list_elem_of_In, in_map_iff in Hm
      as (i & <- & _).
    rewrite module_match_confidence. lra.
Qed.

(** The sorted list starts with the one module that scores. *)
Lemma sorted_head_unique_positive (self : ScoringEngine)
    (observed_ids excluded_ids : gset string) (k : Z) :
  k ∈ get_all_module_ids (se_loader self) →
  (0 < (score_module self k observed_ids excluded_ids).1)%Q →
  Forall (λ j, j ≠ k →
               (score_module self j observed_ids excluded_ids).1 == 0)
         (get_all_module_ids (se_loader self)) →
  ∃ rest,
    sort_desc mm_score Qltb
      (map (module_match self observed_ids excluded_ids)
           (get_all_module_ids (se_loader self))) =
    module_match self observed_ids excluded_ids k :: rest ∧
    Forall (λ r, mm_module_id r ≠ k ∧ mm_score r == 0) rest.
Proof.
  intros Hk Hpos Hzero.
  set (mk := module_match self observed_ids excluded_ids).
  set (ids := get_all_module_ids (se_loader self)) in *.
  pose proof (sort_desc_Permutation mm_score Qltb (map mk ids)) as Hperm.
  pose proof (sort_desc_sorted mm_score (map mk ids)) as Hsorted.
  assert (NoDup (map mm_module_id (sort_desc mm_score Qltb (map mk ids))))
    as Hnodup.
  { rewrite (Permutation_map _ Hperm). unfold mk.
    rewrite map_id_module_match. apply NoDup_get_all_module_ids. }
  assert (∀ m, m ∈ sort_desc mm_score Qltb (map mk ids) →
               m = mk (mm_module_id m) ∧ mm_module_id m ∈ ids) as Hmem.
  { intros m Hm. rewrite Hperm in Hm.
    apply list_elem_of_In, in_map_iff in Hm as (i & <- & Hi).
    unfold mk. rewrite module_match_id. split; [done|].
    by apply list_elem_of_In. }
  assert (∀ m, m ∈ sort_desc mm_score Qltb (map mk ids) →
               mm_module_id m ≠ k → mm_score m == 0) as Hother.
  { intros m Hm Hne. destruct (Hmem m Hm) as [-> Hin].
    unfold mk in *. rewrite module_match_id in *.
    rewrite module_match_score.
    rewrite Forall_forall in Hzero. by apply Hzero. }
  assert (mk k ∈ sort_desc mm_score Qltb (map mk ids)) as Hkin.
  { rewrite Hperm. apply list_elem_of_In, in_map, list_elem_of_In, Hk. }
  assert (0 < mm_score (mk k))%Q as Hkpos.
  { unfold mk. by rewrite module_match_score. }
  destruct (sort_desc mm_score Qltb (map mk ids)) as [|m0 rest] eqn:Hs.
  { by apply elem_of_nil in Hkin. }
  apply StronglySorted_inv in Hsorted as [_ Hle].
  simpl in Hnodup. apply NoDup_cons in Hnodup as [Hfresh _].
  assert (mm_module_id m0 = k) as Hm0.
  { destruct (decide (mm_module_id m0 = k)) as [|Hne]; [done|].
    exfalso.
    assert (mm_score m0 == 0) as Hz by (apply Hother; [left|done]).
    apply elem_of_cons in Hkin as [Heq|Hin].
    - apply Hne. rewrite <- Heq. unfold mk. apply module_match_id.
    - rewrite Forall_forall in Hle. specialize (Hle _ Hin).
      unfold score_desc in Hle. lra. }
  exists rest. split.
  - f_equal. destruct (Hmem m0) as [-> _]; [left|]. by rewrite Hm0.
  - apply Forall_forall. intros r Hr.
    assert (mm_module_id r ≠ k) as Hne.
    { intros Heq. apply Hfresh. rewrite Hm0, <- Heq.
      apply list_elem_of_In, in_map, list_elem_of_In, Hr. }
    split; [done|]. apply Hother; [by right|done].
Qed.

(** C3. When exactly one module scores above zero and every other module
    scores zero, the [ModuleMatch] that [rank_modules] returns for that
    module has confidence exactly 1.0, whether or not other modules exist;
    it is the first of the list and the only one for that module. *)
Theorem unique_positive_module_confidence_one (self : ScoringEngine)
    (observed_ids excluded_ids : gset string) (k : Z) :
  k ∈ get_all_module_ids (se_loader self) →
  (0 < (score_module self k observed_ids excluded_ids).1)%Q →
  Forall (λ j, j ≠ k →
               (score_module self j observed_ids excluded_ids).1 == 0)
         (get_all_module_ids (se_loader self)) →
  ∃ m rest,
    rank_modules self observed_ids excluded_ids = m :: rest ∧
    mm_module_id m = k ∧
    mm_confidence m = 1%Q ∧
    Forall (λ r, mm_module_id r ≠ k) rest.
Proof.
  intros Hk Hpos Hzero.
  destruct (sorted_head_unique_positive self observed_ids excluded_ids k
              Hk Hpos Hzero) as (rest & Hsort & Hrest).
  unfold rank_modules. rewrite Hsort.
  set (m0 := module_match self observed_ids excluded_ids k).
  assert (mm_score m0 = (score_module self k observed_ids excluded_ids).1)
    as Hs0 by apply module_match_score.
  assert (Qltb 0 (mm_score m0) = true) as Hlt
    by (apply Qltb_lt; by rewrite Hs0).
  assert (0 < mm_score m0)%Q as Hpos0 by (by rewrite Hs0).
  destruct rest as [|r1 rest]; unfold assign_confidence; rewrite Hlt.
  - exists (set_confidence 1 m0), []. repeat split; [|constructor].
    apply module_match_id.
  - eexists _, _. split; [reflexivity|]. repeat split.
    + apply module_match_id.
    + simpl. apply clamp_unit_one.
      apply Forall_cons in Hrest as [[_ Hr1] _].
      rewrite Hr1. field. lra.
    + apply Forall_map. eapply Forall_impl; [exact Hrest|].
      intros r [Hne _]. by simpl.
Qed.

Lemma unique_positive_module_confidence_one_witness :
  ∃ m rest,
    rank_modules ex_scorer {["HP:0001513"]} ∅ = m :: rest ∧
    mm_module_id m = 7%Z ∧
    mm_confidence m = 1%Q ∧
    Forall (λ r, mm_module_id r ≠ 7%Z) rest.
Proof.
  apply unique_positive_module_confidence_one.
  - apply (bool_decide_unpack _). vm_compute. reflexivity.
  - vm_compute. reflexivity.
  - apply (bool_decide_unpack _). vm_compute. reflexivity.
Defined.

Example ex_rank_modules :
  map (λ m, (mm_module_id m, Qred (mm_score m), Qred (mm_confidence m)))
      (rank_modules ex_scorer {["HP:0000510"]} ∅) =
  [(7%Z, 1, 7 # 20); (11%Z, 13 # 20, 169 # 400)]%Q.
Proof. vm_compute. reflexivity. Qed.

(** ** Unknown modules *)

(** C8. For a module identifier without a profile the engine degrades
    instead of failing: [score_module] returns score 0 with no explanation
    and [rank_genes] returns no gene.  Both are plain functions of the
    module identifier, defined for every one of them. *)
Theorem unknown_module_yields_zero_and_empty (self : ScoringEngine)
    (module_id : Z) (observed_ids excluded_ids : gset string) :
  get_module_profile (se_loader self) module_id = None →
  score_module self module_id observed_ids excluded_ids = (0%Q, []) ∧
  rank_genes self module_id observed_ids = [].
Proof.
  intros Hnone. unfold score_module, rank_genes. by rewrite Hnone.
Qed.

Lemma unknown_module_yields_zero_and_empty_witness :
  score_module ex_scorer 99 {["HP:0001513"]} {["HP:0000510"]} = (0%Q, []) ∧
  rank_genes ex_scorer 99 {["HP:0001513"]} = [].
Proof.
  apply unknown_module_yields_zero_and_empty.
  vm_compute. reflexivity.
Defined.

(** ** The interactive session *)

Lemma answer_state_sets (self : InteractiveSession) (identifier : string)
    (response : Response) (phenotype_name : option string) :
  let key := answer_key (loader self) identifier in
  let st := state self in
  let st' := state (answer self identifier response phenotype_name) in
  observed st' =
    (if decide (response = YES) then {[key]} ∪ observed st ∖ {[key]}
     else observed st ∖ {[key]}) ∧
  excluded st' =
    (if decide (response = NO) then {[key]} ∪ excluded st ∖ {[key]}
     else excluded st ∖ {[key]}) ∧
  unknown st' =
    (if decide (response = UNKNOWN) then {[key]} ∪ unknown st ∖ {[key]}
     else unknown st ∖ {[key]}).
Proof.
  unfold answer, answer_key.
  destruct (resolve_phenotype (loader self) identifier); simpl;
    by destruct response.
Qed.

Lemma answer_response_set (self : InteractiveSession) (identifier : string)
    (response : Response) (phenotype_name : option string)
    (x : string) (r : Response) :
  let key := answer_key (loader self) identifier in
  x ∈ response_set (state (answer self identifier response phenotype_name)) r
  ↔ (x = key ∧ r = response) ∨ (x ≠ key ∧ x ∈ response_set (state self) r).
Proof.
  intros key.
  destruct (answer_state_sets self identifier response phenotype_name)
    as (Ho & He & Hu). fold key in Ho, He, Hu. clearbody key.
  destruct r; unfold response_set; [rewrite Ho|rewrite He|rewrite Hu];
    clear Ho He Hu; case_decide; subst;
    rewrite ?elem_of_union, elem_of_difference, ?elem_of_singleton;
    naive_solver.
Qed.

Lemma sets_disjoint_alt (st : SessionState) :
  sets_disjoint st ↔
  ∀ x r1 r2, x ∈ response_set st r1 → x ∈ response_set st r2 → r1 = r2.
Proof.
  unfold sets_disjoint. split.
  - intros (Hoe & Hou & Heu) x r1 r2 H1 H2.
    destruct r1, r2; simpl in *; try done; set_solver.
  - intros H. repeat split; intros x H1 H2.
    + by specialize (H x YES NO H1 H2).
    + by specialize (H x YES UNKNOWN H1 H2).
    + by specialize (H x NO UNKNOWN H1 H2).
Qed.

Lemma answer_sets_disjoint (self : InteractiveSession) (identifier : string)
    (response : Response) (phenotype_name : option string) :
  sets_disjoint (state self) →
  sets_disjoint (state (answer self identifier response phenotype_name)).
Proof.
  rewrite !sets_disjoint_alt. intros Hinv x r1 r2 H1 H2.
  apply answer_response_set in H1, H2.
  destruct H1 as [[Hx1 ->]|[Hne1 H1]], H2 as [[Hx2 ->]|[Hne2 H2]];
    [done|done|done|].
  exact (Hinv x r1 r2 H1 H2).
Qed.

Lemma reset_sets_disjoint (self : InteractiveSession) :
  sets_disjoint (state (reset self)).
Proof. unfold sets_disjoint. simpl. set_solver. Qed.

Lemma _update_cache_state (self : InteractiveSession) :
  state (_update_cache self) = state self.
Proof. unfold _update_cache. by destruct (_cache_valid self). Qed.

Lemma step_sets_disjoint (self : InteractiveSession) (op : Op) :
  sets_disjoint (state self) → sets_disjoint (state (step self op)).
Proof.
  intros Hinv. destruct op; unfold step.
  - by apply answer_sets_disjoint.
  - apply reset_sets_disjoint.
  - unfold get_ranked_modules. cbn [fst]. by rewrite _update_cache_state.
Qed.

Lemma run_sets_disjoint (ops : list Op) (self : InteractiveSession) :
  sets_disjoint (state self) → sets_disjoint (state (run ops self)).
Proof.
  revert self. induction ops as [|op ops IH]; intros self Hinv; simpl.
  - exact Hinv.
  - by apply IH, step_sets_disjoint.
Qed.

(** C9. Starting from a fresh session, after any sequence of answers and
    resets (and ranking queries) the observed, excluded and unknown sets are
    pairwise disjoint.  An answer takes its key out of all three sets and
    puts it into the one set matching the response, leaving every other
    identifier where it was. *)
Theorem session_sets_pairwise_disjoint (data : DataLoader)
    (scoring_config : option ScoringConfig)
    (prediction_config : option PredictionConfig) (ops : list Op) :
  let session :=
    run ops (InteractiveSession_init data scoring_config prediction_config) in
  sets_disjoint (state session) ∧
  ∀ identifier response phenotype_name x r,
    x ∈ response_set
          (state (answer session identifier response phenotype_name)) r
    ↔ (x = answer_key (loader session) identifier ∧ r = response) ∨
      (x ≠ answer_key (loader session) identifier ∧
       x ∈ response_set (state session) r).
Proof.
  simpl. split.
  - apply run_sets_disjoint. unfold sets_disjoint. simpl. set_solver.
  - intros. apply answer_response_set.
Qed.

(** ** [explain_scoring] *)
Section explain_scoring_facts.
Context (profile : ModuleProfile).

(** The first loop only appends. *)
Lemma foldl_explain_observed_acc (l : list string)
    (acc : list ExplainabilityItem) (x : ExplainabilityItem) :
  x ∈ acc → x ∈ foldl (explain_observed profile) acc l.
Proof.
  revert acc. induction l as [|h l IH]; intros acc Hx; simpl; [done|].
  apply IH. unfold explain_observed.
  destruct (mp_phenotypes profile !! h); apply elem_of_app; by left.
Qed.

(** No entry of the first loop carries the penalty text. *)
Lemma foldl_explain_observed_tags (l : list string)
    (acc : list ExplainabilityItem) :
  Forall (λ x, ∀ p, ei_explanation x ≠ PenalizesModule p) acc →
  Forall (λ x, ∀ p, ei_explanation x ≠ PenalizesModule p)
         (foldl (explain_observed profile) acc l).
Proof.
  revert acc. induction l as [|h l IH]; intros acc Hacc; simpl; [done|].
  apply IH. unfold explain_observed.
  destruct (mp_phenotypes profile !! h); apply Forall_app; split; try done;
    by repeat constructor.
Qed.

(** What the second loop leaves in the list. *)
Lemma elem_of_foldl_explain_excluded (l : list string)
    (acc : list ExplainabilityItem) (x : ExplainabilityItem) :
  x ∈ foldl (explain_excluded profile) acc l ↔
  x ∈ acc ∨
  ∃ h pheno, h ∈ l ∧ mp_phenotypes profile !! h = Some pheno ∧
             (0 < pp_prevalence pheno)%Q ∧ x = exclusion_item h pheno.
Proof.
  revert acc. induction l as [|h l IH]; intros acc; simpl.
  - split; [by left|]. intros [?|(h & ph & Hin & _)]; [done|].
    by apply elem_of_nil in Hin.
  - rewrite IH. unfold explain_excluded.
    destruct (mp_phenotypes profile !! h) as [pheno|] eqn:Hlook.
    + destruct (Qltb 0 (pp_prevalence pheno)) eqn:Hprev.
      * apply Qltb_lt in Hprev. rewrite elem_of_app, list_elem_of_singleton.
        split.
        -- intros [[?| ->]|(h' & ph & Hin & ?)]; [by left| |].
           ++ right. exists h, pheno. split; [left|]; done.
           ++ right. exists h', ph. split; [by right|done].
        -- intros [?|(h' & ph & Hin & Hl & Hp & ->)]; [by left; left|].
           apply elem_of_cons in Hin as [-> |Hin].
           ++ left; right. by simplify_eq.
           ++ right. by exists h', ph.
      * apply Qltb_ge in Hprev. split.
        -- intros [?|(h' & ph & Hin & ?)]; [by left|].
           right. exists h', ph. split; [by right|done].
        -- intros [?|(h' & ph & Hin & Hl & Hp & ->)]; [by left|].
           apply elem_of_cons in Hin as [-> |Hin].
           ++ simplify_eq. lra.
           ++ right. by exists h', ph.
    + split.
      * intros [?|(h' & ph & Hin & ?)]; [by left|].
        right. exists h', ph. split; [by right|done].
      * intros [?|(h' & ph & Hin & Hl & Hp & ->)]; [by left|].
        apply elem_of_cons in Hin as [-> |Hin]; [congruence|].
        right. by exists h', ph.
Qed.
End explain_scoring_facts.

(** C7. For an excluded identifier whose phenotype is in the module with
    prevalence above zero, [explain_scoring] records the contribution
    [-(prevalence + specificity)/400]: that entry is in the explanation,
    and it is the only penalty entry for the identifier.  The explanation
    does not read the scoring configuration: two sessions over the same data
    whose scoring configurations differ (in [exclusion_penalty] or anything
    else) explain alike. *)
Theorem explain_scoring_exclusion_contribution (data : DataLoader)
    (prediction_config : option PredictionConfig)
    (scoring_config1 scoring_config2 : option ScoringConfig)
    (module_id : Z) (profile : ModuleProfile)
    (observed_ids excluded_ids : gset string)
    (hpo_id : string) (pheno : PhenotypeProfile) :
  get_module_profile data module_id = Some profile →
  hpo_id ∈ excluded_ids →
  mp_phenotypes profile !! hpo_id = Some pheno →
  (0 < pp_prevalence pheno)%Q →
  let session1 :=
    InteractiveSession_init data scoring_config1 prediction_config in
  let session2 :=
    InteractiveSession_init data scoring_config2 prediction_config in
  let explanation :=
    explain_scoring (predictor session1) module_id
                    observed_ids excluded_ids in
  exclusion_item hpo_id pheno ∈ explanation ∧
  ei_contribution (exclusion_item hpo_id pheno) ==
    - ((pp_prevalence pheno + pp_specificity pheno) / 400) ∧
  (∀ item p, item ∈ explanation → ei_hpo_id item = hpo_id →
             ei_explanation item = PenalizesModule p →
             item = exclusion_item hpo_id pheno) ∧
  explain_scoring (predictor session2) module_id observed_ids excluded_ids =
  explanation.
Proof.
  intros Hprofile Hin Hlook Hprev. simpl.
  unfold explain_scoring. simpl. rewrite Hprofile.
  repeat split.
  - apply elem_of_sort_desc, elem_of_foldl_explain_excluded. right.
    exists hpo_id, pheno. repeat split; try done.
    by apply elem_of_elements.
  - intros item p Hitem Hid Htag.
    apply elem_of_sort_desc, elem_of_foldl_explain_excluded in Hitem
      as [Hobs|(h & ph & _ & Hl & _ & ->)].
    + exfalso.
      assert (Forall (λ x, ∀ p, ei_explanation x ≠ PenalizesModule p)
                (foldl (explain_observed profile) []
                       (elements observed_ids))) as Htags
        by (apply foldl_explain_observed_tags; constructor).
      rewrite Forall_forall in Htags. exact (Htags item Hobs p Htag).
    + simpl in Hid. subst h. by simplify_eq.
Qed.

Lemma explain_scoring_exclusion_contribution_witness :
  let pheno := ex_phenotype "Rod-cone dystrophy" "HP:0000510" 90 10 ["BBS1"] in
  let explanation :=
    explain_scoring
      (predictor (InteractiveSession_init ex_loader None None)) 7
      {["HP:0001513"]} {["HP:0000510"]} in
  exclusion_item "HP:0000510" pheno ∈ explanation ∧
  ei_contribution (exclusion_item "HP:0000510" pheno) ==
    - ((pp_prevalence pheno + pp_specificity pheno) / 400) ∧
  (∀ item p, item ∈ explanation → ei_hpo_id item = "HP:0000510" →
             ei_explanation item = PenalizesModule p →
             item = exclusion_item "HP:0000510" pheno) ∧
  explain_scoring
    (predictor
       (InteractiveSession_init ex_loader
          (Some {| prevalence_weight := 1; specificity_weight := 1;
                   exclusion_penalty := 9 # 10; stability_bonus := 1 # 10;
                   min_confidence_threshold := 1 # 10 |}) None)) 7
    {["HP:0001513"]} {["HP:0000510"]} =
  explanation.
Proof.
  apply (explain_scoring_exclusion_contribution ex_loader None None
           (Some {| prevalence_weight := 1; specificity_weight := 1;
                    exclusion_penalty := 9 # 10; stability_bonus := 1 # 10;
                    min_confidence_threshold := 1 # 10 |})
           7 ex_module_7).
  - vm_compute. reflexivity.
  - apply (bool_decide_unpack _). vm_compute. reflexivity.
  - vm_compute. reflexivity.
  - vm_compute. reflexivity.
Defined.

(** ** The loader's tables *)

Lemma foldl_preserves {A B} (P : A → Prop) (f : A → B → A) (l : list B)
    (a : A) :
  (∀ a x, P a → P (f a x)) → P a → P (foldl f a l).
Proof.
  intros Hstep. revert a. induction l as [|x l IH]; intros a Ha; simpl; auto.
Qed.

(** A property that one element of the list establishes and no step
    destroys holds after the loop. *)
Lemma foldl_establishes {A B} (P : A → Prop) (f : A → B → A) (l : list B)
    (a : A) (x : B) :
  (∀ a y, P a → P (f a y)) → (∀ a, P (f a x)) → x ∈ l → P (foldl f a l).
Proof.
  intros Hkeep Hset. revert a.
  induction l as [|y l IH]; intros a Hx; simpl.
  - by apply elem_of_nil in Hx.
  - apply elem_of_cons in Hx as [-> |Hx].
    + apply foldl_preserves; auto.
    + by apply IH.
Qed.

Lemma _load_gene_mapping_row_classified (data : DataLoader) (row : GeneRow) :
  module_genes_classified data →
  module_genes_classified (_load_gene_mapping_row data row).
Proof.
  intros Hinv. unfold _load_gene_mapping_row.
  destruct (row_gene row) as [gene|]; [|done].
  case_decide; [done|].
  intros m genes g. simpl. intros Hm Hg.
  destruct (decide (g = gene)) as [-> |Hne].
  { rewrite lookup_insert_eq. by eexists. }
  rewrite lookup_insert_ne by done.
  destruct (decide (m = row_module_id row)) as [-> |Hm'].
  - rewrite lookup_insert_eq in Hm. simplify_eq.
    apply elem_of_union in Hg as [Hg|Hg]; [set_solver|].
    destruct (module_genes data !! row_module_id row) as [genes|] eqn:Hl;
      simpl in Hg; [by eapply Hinv|set_solver].
  - rewrite lookup_insert_ne in Hm by done. by eapply Hinv.
Qed.

Lemma _load_gene_mapping_classified (rows : list GeneRow) :
  module_genes_classified (_load_gene_mapping rows DataLoader_init).
Proof.
  unfold _load_gene_mapping. apply foldl_preserves.
  - apply _load_gene_mapping_row_classified.
  - intros m genes g Hm. simpl in Hm. by rewrite lookup_empty in Hm.
Qed.

(** [_build_indexes] leaves the profiles and the gene tables alone. *)
Lemma _build_indexes_tables (data : DataLoader) :
  module_profiles (_build_indexes data) = module_profiles data ∧
  gene_mapping (_build_indexes data) = gene_mapping data ∧
  module_genes (_build_indexes data) = module_genes data.
Proof.
  unfold _build_indexes.
  apply (foldl_preserves (λ d, module_profiles d = module_profiles data ∧
                               gene_mapping d = gene_mapping data ∧
                               module_genes d = module_genes data));
    [|done].
  intros d [m profile] Hd. unfold _build_indexes_module.
  apply (foldl_preserves (λ d, module_profiles d = module_profiles data ∧
                               gene_mapping d = gene_mapping data ∧
                               module_genes d = module_genes data));
    [|done].
  by intros d' [h ph] Hd'.
Qed.


Lemma load_classified (rows : list GeneRow)
    (profiles : gmap Z ModuleProfile) :
  module_genes_classified (load rows profiles).
Proof.
  unfold load, module_genes_classified.
  destruct (_build_indexes_tables
    {| module_profiles := profiles;
       gene_mapping := gene_mapping (_load_gene_mapping rows DataLoader_init);
       phenotype_to_modules :=
         phenotype_to_modules (_load_gene_mapping rows DataLoader_init);
       phenotype_name_to_hpo :=
         phenotype_name_to_hpo (_load_gene_mapping rows DataLoader_init);
       module_genes :=
         module_genes (_load_gene_mapping rows DataLoader_init) |})
    as (_ & -> & ->).
  simpl. apply _load_gene_mapping_classified.
Qed.

(** ** [rank_genes] without observations *)

Lemma alist_get_fresh {V} (k : string) (d : list (string * V)) :
  k ∉ map fst d → alist_get k d = None.
Proof.
  induction d as [|[k' v] d IH]; simpl; [done|].
  intros Hk. apply not_elem_of_cons in Hk as [Hne Hk].
  case_decide; [done|]. by apply IH.
Qed.

Lemma alist_set_fresh {V} (k : string) (v : V) (d : list (string * V)) :
  k ∉ map fst d → alist_set k v d = d ++ [(k, v)].
Proof.
  induction d as [|[k' v'] d IH]; simpl; [done|].
  intros Hk. apply not_elem_of_cons in Hk as [Hne Hk].
  case_decide; [done|]. by rewrite IH.
Qed.

(** Genes the first loop did not touch are appended, in order, with score
    zero and no supporting phenotype. *)
Lemma foldl_add_module_gene (l : list string) (gene_scores : gene_scores_t) :
  NoDup l → (∀ g, g ∈ l → g ∉ map fst gene_scores) →
  foldl add_module_gene gene_scores l =
  gene_scores ++ map (λ g, (g, (0%Q, []))) l.
Proof.
  revert gene_scores.
  induction l as [|g l IH]; intros gene_scores Hnodup Hfresh; simpl.
  - by rewrite app_nil_r.
  - apply NoDup_cons in Hnodup as [Hg Hnodup].
    unfold add_module_gene at 2.
    rewrite alist_get_fresh, alist_set_fresh by (apply Hfresh; left).
    rewrite IH; [by rewrite <- app_assoc|done|].
    intros g' Hg'. rewrite map_app. simpl.
    rewrite elem_of_app, list_elem_of_singleton.
    intros [Hin| ->]; [|done].
    by apply (Hfresh g'); [right|].
Qed.

Section untouched_genes.
Context (self : ScoringEngine) (module_id : Z).

Local Abbreviation untouched := (untouched_candidate self module_id).

Lemma gene_candidate_untouched (gene : string) (gene_info : GeneInfo) :
  get_gene_info (se_loader self) gene = Some gene_info →
  ∃ c, gene_candidate self module_id (gene, (0%Q, [])) = Some c ∧
       gc_gene c = gene ∧ untouched c.
Proof.
  intros Hinfo. unfold gene_candidate. rewrite Hinfo.
  eexists. split; [reflexivity|]. split; [done|].
  unfold untouched_candidate. simpl. repeat split.
  exists gene_info. repeat split; [done|].
  unfold stability_adjustment. repeat case_decide; lra.
Qed.

Lemma omap_gene_candidate_untouched (genes : list string) :
  (∀ g, g ∈ genes → is_Some (get_gene_info (se_loader self) g)) →
  map gc_gene (omap (gene_candidate self module_id)
                    (map (λ g, (g, (0%Q, []))) genes)) = genes ∧
  Forall untouched (omap (gene_candidate self module_id)
                         (map (λ g, (g, (0%Q, []))) genes)).
Proof.
  induction genes as [|g genes IH]; intros Hinfo; [done|].
  destruct (Hinfo g) as [gene_info Hg]; [left|].
  destruct (gene_candidate_untouched g gene_info Hg) as (c & Heq & Hc & Hu).
  destruct IH as [IH1 IH2].
  { intros g' Hg'. apply Hinfo. by right. }
  cbn [map omap list_omap]. rewrite Heq.
  split; [cbn [map]; by rewrite Hc, IH1|by constructor].
Qed.
End untouched_genes.

Lemma rank_genes_empty_general (self : ScoringEngine) (module_id : Z) :
  module_genes_classified (se_loader self) →
  is_Some (get_module_profile (se_loader self) module_id) →
  map gc_gene (rank_genes self module_id ∅) ≡ₚ
    elements (get_module_genes (se_loader self) module_id) ∧
  Forall (untouched_candidate self module_id) (rank_genes self module_id ∅).
Proof.
  intros Hclass [profile Hprofile]. unfold rank_genes. rewrite Hprofile.
  rewrite elements_empty. simpl.
  rewrite foldl_add_module_gene; [|apply NoDup_elements|].
  2: { intros g _. simpl. apply not_elem_of_nil. }
  simpl.
  destruct (omap_gene_candidate_untouched self module_id
              (elements (get_module_genes (se_loader self) module_id)))
    as [Hgenes Hall].
  { intros g Hg. apply elem_of_elements in Hg.
    unfold get_module_genes in Hg.
    destruct (module_genes (se_loader self) !! module_id) as [genes|] eqn:Hm;
      simpl in Hg; [by eapply Hclass|set_solver]. }
  split.
  - rewrite (Permutation_map _ (sort_desc_Permutation _ _ _)).
    by rewrite Hgenes.
  - apply Forall_forall. intros c Hc. apply elem_of_sort_desc in Hc.
    rewrite Forall_forall in Hall. by apply Hall.
Qed.

(** C6. On loaded data, for a known module and an empty observed set,
    [rank_genes] returns one [GeneCandidate] for every gene of the module's
    gene set and no other; each has no supporting phenotype and a support
    score that is its stability adjustment alone: plus [stability_bonus]
    for a core gene, minus half of it for an unstable one, zero otherwise. *)
Theorem rank_genes_no_observations (rows : list GeneRow)
    (profiles : gmap Z ModuleProfile) (config : ScoringConfig)
    (module_id : Z) :
  let self := {| se_loader := load rows profiles; se_config := config |} in
  is_Some (get_module_profile (se_loader self) module_id) →
  map gc_gene (rank_genes self module_id ∅) ≡ₚ
    elements (get_module_genes (se_loader self) module_id) ∧
  Forall (untouched_candidate self module_id) (rank_genes self module_id ∅).
Proof.
  intros self Hknown. apply rank_genes_empty_general; [|done].
  apply load_classified.
Qed.

Lemma rank_genes_no_observations_witness :
  map gc_gene (rank_genes ex_scorer 7 ∅) ≡ₚ
    elements (get_module_genes ex_loader 7) ∧
  Forall (untouched_candidate ex_scorer 7) (rank_genes ex_scorer 7 ∅).
Proof.
  apply (rank_genes_no_observations ex_rows ex_profiles
           ScoringConfig_default 7).
  apply (bool_decide_unpack _). vm_compute. reflexivity.
Defined.

Example ex_rank_genes_7 :
  map (λ c, (gc_gene c, Qred (gc_support_score c)))
      (rank_genes ex_scorer 7 ∅) =
  [("BBS1", 1 # 10); ("BBS2", 0); ("ARL6", - (1 # 20))]%Q.
Proof. vm_compute. reflexivity. Qed.

(** ** Unresolved identifiers *)








Lemma answer_history (self : InteractiveSession) (identifier : string)
    (response : Response) (phenotype_name : option string) :
  history (state (answer self identifier response phenotype_name)) =
  history (state self) ++
    [(history_name phenotype_name identifier,
      answer_key (loader self) identifier, response)].
Proof. unfold answer. by destruct response. Qed.




Example ex_lowercase_key_score :
  let session :=
    answer (InteractiveSession_init (load [] lowercase_key_profiles)
                                    None None)
           "hp:0000510" YES None in
  (score_module (scorer session) 3 (observed (state session))
                (excluded (state session))).1 == 1.
Proof. vm_compute. reflexivity. Qed.

(** * Further properties of the code *)

(** ** The indexes built by the loader *)

Lemma foldl_preserves_in {A B} (P : A → Prop) (f : A → B → A) (l : list B)
    (a : A) :
  (∀ a x, x ∈ l → P a → P (f a x)) → P a → P (foldl f a l).
Proof.
  revert a. induction l as [|x l IH]; intros a Hstep Ha; simpl; [done|].
  apply IH.
  - intros a' y Hy. apply Hstep. by right.
  - apply Hstep; [left|done].
Qed.

(** The gene table leaves the phenotype indexes empty. *)
Lemma _load_gene_mapping_indexes (rows : list GeneRow) :
  phenotype_to_modules (_load_gene_mapping rows DataLoader_init) = ∅ ∧
  phenotype_name_to_hpo (_load_gene_mapping rows DataLoader_init) = ∅.
Proof.
  unfold _load_gene_mapping.
  apply (foldl_preserves (λ d, phenotype_to_modules d = ∅ ∧
                               phenotype_name_to_hpo d = ∅)); [|done].
  intros d row Hd. unfold _load_gene_mapping_row.
  destruct (row_gene row); [|done]. by case_decide.
Qed.

Section index_membership.
Context (hpo_id : string).

(** The modules listed under [hpo_id]. *)
Local Abbreviation listed d := (default ∅ (phenotype_to_modules d !! hpo_id)).

Lemma _build_indexes_pheno_listed (m : Z) (d : DataLoader)
    (entry : string * PhenotypeProfile) (x : Z) :
  x ∈ listed (_build_indexes_pheno m d entry) ↔
  x ∈ listed d ∨ (x = m ∧ entry.1 = hpo_id).
Proof.
  destruct entry as [h ph]. simpl.
  destruct (decide (h = hpo_id)) as [->|Hne].
  - rewrite lookup_insert_eq. simpl.
    rewrite elem_of_union, elem_of_singleton. naive_solver.
  - rewrite lookup_insert_ne by done. naive_solver.
Qed.

Lemma _build_indexes_pheno_present (m : Z) (d : DataLoader)
    (entry : string * PhenotypeProfile) :
  is_Some (phenotype_to_modules (_build_indexes_pheno m d entry) !! hpo_id) ↔
  is_Some (phenotype_to_modules d !! hpo_id) ∨ entry.1 = hpo_id.
Proof.
  destruct entry as [h ph]. simpl.
  rewrite lookup_insert_is_Some. destruct (decide (h = hpo_id)); naive_solver.
Qed.

Lemma foldl_build_indexes_pheno_listed (m : Z)
    (l : list (string * PhenotypeProfile)) (d : DataLoader) (x : Z) :
  x ∈ listed (foldl (_build_indexes_pheno m) d l) ↔
  x ∈ listed d ∨ (x = m ∧ hpo_id ∈ map fst l).
Proof.
  revert d. induction l as [|e l IH]; intros d; simpl.
  - rewrite elem_of_nil. naive_solver.
  - rewrite IH, _build_indexes_pheno_listed, elem_of_cons. naive_solver.
Qed.

Lemma foldl_build_indexes_pheno_present (m : Z)
    (l : list (string * PhenotypeProfile)) (d : DataLoader) :
  is_Some (phenotype_to_modules
             (foldl (_build_indexes_pheno m) d l) !! hpo_id) ↔
  is_Some (phenotype_to_modules d !! hpo_id) ∨ hpo_id ∈ map fst l.
Proof.
  revert d. induction l as [|e l IH]; intros d; simpl.
  - rewrite elem_of_nil. naive_solver.
  - rewrite IH, _build_indexes_pheno_present, elem_of_cons. naive_solver.
Qed.

Lemma elem_of_map_to_list_keys (phenotypes : gmap string PhenotypeProfile) :
  hpo_id ∈ map fst (map_to_list phenotypes) ↔ is_Some (phenotypes !! hpo_id).
Proof.
  split.
  - intros Hin. apply list_elem_of_In, in_map_iff in Hin
      as ([h ph] & <- & Hin).
    apply list_elem_of_In, elem_of_map_to_list in Hin. by eexists.
  - intros [ph Hl]. apply list_elem_of_In, in_map_iff.
    exists (hpo_id, ph). split; [done|].
    by apply list_elem_of_In, elem_of_map_to_list.
Qed.

Lemma foldl_build_indexes_module_listed (l : list (Z * ModuleProfile))
    (d : DataLoader) (x : Z) :
  x ∈ listed (foldl _build_indexes_module d l) ↔
  x ∈ listed d ∨
  ∃ p, (x, p) ∈ l ∧ is_Some (mp_phenotypes p !! hpo_id).
Proof.
  revert d. induction l as [|[m p] l IH]; intros d; simpl.
  - split; [by left|]. intros [?|(p & Hin & _)]; [done|].
    by apply elem_of_nil in Hin.
  - rewrite IH. unfold _build_indexes_module.
    rewrite foldl_build_indexes_pheno_listed, elem_of_map_to_list_keys.
    split.
    + intros [[?|[-> ?]]|(p' & Hin & ?)]; [by left| |].
      * right. exists p. split; [left|done].
      * right. exists p'. split; [by right|done].
    + intros [?|(p' & Hin & ?)]; [by left; left|].
      apply elem_of_cons in Hin as [Heq|Hin].
      * simplify_eq. left; right. done.
      * right. by exists p'.
Qed.

Lemma foldl_build_indexes_module_present (l : list (Z * ModuleProfile))
    (d : DataLoader) :
  is_Some (phenotype_to_modules (foldl _build_indexes_module d l) !! hpo_id) ↔
  is_Some (phenotype_to_modules d !! hpo_id) ∨
  ∃ m p, (m, p) ∈ l ∧ is_Some (mp_phenotypes p !! hpo_id).
Proof.
  revert d. induction l as [|[m p] l IH]; intros d; simpl.
  - split; [by left|]. intros [?|(m & p & Hin & _)]; [done|].
    by apply elem_of_nil in Hin.
  - rewrite IH. unfold _build_indexes_module.
    rewrite foldl_build_indexes_pheno_present, elem_of_map_to_list_keys.
    split.
    + intros [[?|?]|(m' & p' & Hin & ?)]; [by left| |].
      * right. exists m, p. split; [left|done].
      * right. exists m', p'. split; [by right|done].
    + intros [?|(m' & p' & Hin & ?)]; [by left; left|].
      apply elem_of_cons in Hin as [Heq|Hin].
      * simplify_eq. left; right. done.
      * right. by exists m', p'.
Qed.
End index_membership.

Lemma load_index_listed (rows : list GeneRow)
    (profiles : gmap Z ModuleProfile) (hpo_id : string) (module_id : Z) :
  module_id ∈
    default ∅ (phenotype_to_modules (load rows profiles) !! hpo_id) ↔
  ∃ profile, profiles !! module_id = Some profile ∧
             is_Some (mp_phenotypes profile !! hpo_id).
Proof.
  unfold load, _build_indexes. simpl.
  destruct (_load_gene_mapping_indexes rows) as [Hidx _].
  rewrite foldl_build_indexes_module_listed. simpl.
  rewrite Hidx, lookup_empty. simpl. split.
  - intros [Hin|(p & Hin & Hp)]; [set_solver|].
    exists p. by apply elem_of_map_to_list in Hin.
  - intros (p & Hm & Hp). right. exists p.
    by apply elem_of_map_to_list in Hm.
Qed.

Lemma load_index_present (rows : list GeneRow)
    (profiles : gmap Z ModuleProfile) (hpo_id : string) :
  is_Some (phenotype_to_modules (load rows profiles) !! hpo_id) ↔
  ∃ module_id profile, profiles !! module_id = Some profile ∧
                       is_Some (mp_phenotypes profile !! hpo_id).
Proof.
  unfold load, _build_indexes. simpl.
  destruct (_load_gene_mapping_indexes rows) as [Hidx _].
  rewrite foldl_build_indexes_module_present. simpl.
  rewrite Hidx, lookup_empty. split.
  - intros [[? Hin]|(m & p & Hin & Hp)]; [done|].
    exists m, p. by apply elem_of_map_to_list in Hin.
  - intros (m & p & Hm & Hp). right. exists m, p.
    by apply elem_of_map_to_list in Hm.
Qed.

(** X1. After [load], the identifier index lists a module under an
    identifier exactly when that module's profile has the identifier, and
    an identifier is a key of the index exactly when some module has it. *)
Theorem load_phenotype_to_modules_exact (rows : list GeneRow)
    (profiles : gmap Z ModuleProfile) (hpo_id : string) :
  let data := load rows profiles in
  (∀ module_id,
     module_id ∈ default ∅ (phenotype_to_modules data !! hpo_id) ↔
     ∃ profile, profiles !! module_id = Some profile ∧
                is_Some (mp_phenotypes profile !! hpo_id)) ∧
  (is_Some (phenotype_to_modules data !! hpo_id) ↔
   ∃ module_id profile, profiles !! module_id = Some profile ∧
                        is_Some (mp_phenotypes profile !! hpo_id)).
Proof.
  simpl. split.
  - intros m. apply load_index_listed.
  - apply load_index_present.
Qed.

(** ** Resolving identifiers and names *)

(** What the name index may hold: under a lower-cased name, the identifier
    of a phenotype that carries the name. *)
Lemma _build_indexes_names_sound (data : DataLoader) :
  phenotype_name_to_hpo data = ∅ →
  ∀ n h, phenotype_name_to_hpo (_build_indexes data) !! n = Some h →
  ∃ m p ph, module_profiles data !! m = Some p ∧
            mp_phenotypes p !! h = Some ph ∧ lower (pp_name ph) = n.
Proof.
  intros Hempty. unfold _build_indexes.
  apply (foldl_preserves_in
    (λ d, ∀ n h, phenotype_name_to_hpo d !! n = Some h →
          ∃ m p ph, module_profiles data !! m = Some p ∧
                    mp_phenotypes p !! h = Some ph ∧ lower (pp_name ph) = n)).
  - intros d [m p] Hmp Hd. apply elem_of_map_to_list in Hmp.
    unfold _build_indexes_module.
    apply (foldl_preserves_in
      (λ d, ∀ n h, phenotype_name_to_hpo d !! n = Some h →
            ∃ m p ph, module_profiles data !! m = Some p ∧
                      mp_phenotypes p !! h = Some ph ∧
                      lower (pp_name ph) = n)); [|exact Hd].
    intros d' [h' ph'] Hph Hd' n h. apply elem_of_map_to_list in Hph.
    simpl.
    destruct (phenotype_name_to_hpo d' !! lower (pp_name ph')) eqn:Hl;
      [apply Hd'|].
    destruct (decide (n = lower (pp_name ph'))) as [->|Hne].
    + rewrite lookup_insert_eq. intros [= <-]. by exists m, p, ph'.
    + rewrite lookup_insert_ne by done. apply Hd'.
  - intros n h. by rewrite Hempty, lookup_empty.
Qed.

Lemma load_names_sound (rows : list GeneRow)
    (profiles : gmap Z ModuleProfile) (n h : string) :
  phenotype_name_to_hpo (load rows profiles) !! n = Some h →
  ∃ m p ph, profiles !! m = Some p ∧
            mp_phenotypes p !! h = Some ph ∧ lower (pp_name ph) = n.
Proof.
  unfold load. intros Hl.
  apply _build_indexes_names_sound in Hl; [done|].
  simpl. apply _load_gene_mapping_indexes.
Qed.

Lemma _build_indexes_pheno_name_keeps (module_id : Z) (data : DataLoader)
    (entry : string * PhenotypeProfile) (n : string) :
  is_Some (phenotype_name_to_hpo data !! n) →
  is_Some (phenotype_name_to_hpo
             (_build_indexes_pheno module_id data entry) !! n).
Proof.
  destruct entry as [h ph]. simpl. intros Hsome.
  destruct (phenotype_name_to_hpo data !! lower (pp_name ph)); [done|].
  apply lookup_insert_is_Some.
  destruct (decide (lower (pp_name ph) = n)); auto.
Qed.

Lemma load_names_complete (rows : list GeneRow)
    (profiles : gmap Z ModuleProfile) (m : Z) (p : ModuleProfile)
    (h : string) (ph : PhenotypeProfile) :
  profiles !! m = Some p → mp_phenotypes p !! h = Some ph →
  is_Some (phenotype_name_to_hpo (load rows profiles)
             !! lower (pp_name ph)).
Proof.
  intros Hm Hh. unfold load, _build_indexes. simpl.
  apply (foldl_establishes
    (λ d, is_Some (phenotype_name_to_hpo d !! lower (pp_name ph)))
    _ _ _ (m, p)).
  - intros d [m' p'] Hd. unfold _build_indexes_module.
    apply (foldl_preserves
      (λ d, is_Some (phenotype_name_to_hpo d !! lower (pp_name ph))));
      [|done].
    intros d' e. apply _build_indexes_pheno_name_keeps.
  - intros d. unfold _build_indexes_module.
    apply (foldl_establishes
      (λ d, is_Some (phenotype_name_to_hpo d !! lower (pp_name ph)))
      _ _ _ (h, ph)).
    + intros d' e. apply _build_indexes_pheno_name_keeps.
    + intros d'. simpl.
      destruct (phenotype_name_to_hpo d' !! lower (pp_name ph)) eqn:Hl.
      * rewrite Hl. by eexists.
      * rewrite lookup_insert_eq. by eexists.
    + by apply elem_of_map_to_list.
  - by apply elem_of_map_to_list.
Qed.

(** X2. After [load], whatever [resolve_phenotype] returns is the
    identifier of a phenotype of some module, and that phenotype is the
    input itself or carries the input as its name, letter case aside. *)
Theorem resolve_phenotype_sound (rows : list GeneRow)
    (profiles : gmap Z ModuleProfile) (identifier hpo_id : string) :
  resolve_phenotype (load rows profiles) identifier = Some hpo_id →
  ∃ module_id profile pheno,
    profiles !! module_id = Some profile ∧
    mp_phenotypes profile !! hpo_id = Some pheno ∧
    (hpo_id = identifier ∨ lower (pp_name pheno) = lower identifier).
Proof.
  unfold resolve_phenotype.
  destruct (String.prefix "HP:" identifier).
  - destruct (phenotype_to_modules (load rows profiles) !! identifier)
      as [ms|] eqn:Hl; [|done].
    intros [= <-].
    destruct (proj1 (load_index_present rows profiles identifier)
                (mk_is_Some _ _ Hl)) as (m & p & Hm & [ph Hph]).
    exists m, p, ph. auto.
  - intros Hl. apply load_names_sound in Hl as (m & p & ph & ? & ? & ?).
    exists m, p, ph. auto.
Qed.

Lemma resolve_phenotype_sound_witness :
  ∃ module_id profile pheno,
    ex_profiles !! module_id = Some profile ∧
    mp_phenotypes profile !! "HP:0001513" = Some pheno ∧
    ("HP:0001513" = "OBESITY" ∨ lower (pp_name pheno) = lower "OBESITY").
Proof.
  apply (resolve_phenotype_sound ex_rows ex_profiles).
  vm_compute. reflexivity.
Defined.

(** X3. After [load], a phenotype identifier of the data that starts with
    [HP:] resolves to itself. *)
Theorem resolve_phenotype_key_round_trip (rows : list GeneRow)
    (profiles : gmap Z ModuleProfile) (module_id : Z)
    (profile : ModuleProfile) (hpo_id : string) :
  profiles !! module_id = Some profile →
  is_Some (mp_phenotypes profile !! hpo_id) →
  String.prefix "HP:" hpo_id = true →
  resolve_phenotype (load rows profiles) hpo_id = Some hpo_id.
Proof.
  intros Hm Hh Hprefix. unfold resolve_phenotype. rewrite Hprefix.
  destruct (proj2 (load_index_present rows profiles hpo_id)) as [ms ->];
    [|done].
  by exists module_id, profile.
Qed.

Lemma resolve_phenotype_key_round_trip_witness :
  resolve_phenotype (load ex_rows ex_profiles) "HP:0000407" =
  Some "HP:0000407".
Proof.
  apply (resolve_phenotype_key_round_trip ex_rows ex_profiles 11
           ex_module_11).
  - vm_compute. reflexivity.
  - apply (bool_decide_unpack _). vm_compute. reflexivity.
  - reflexivity.
Defined.

(** X4. After [load], every spelling of a phenotype's name resolves: an
    input that does not start with [HP:] and lower-cases to the name of some
    phenotype of the data resolves to the identifier of a phenotype with
    that lower-cased name. *)
Theorem resolve_phenotype_by_name_complete (rows : list GeneRow)
    (profiles : gmap Z ModuleProfile) (module_id : Z)
    (profile : ModuleProfile) (hpo_id : string) (pheno : PhenotypeProfile)
    (identifier : string) :
  profiles !! module_id = Some profile →
  mp_phenotypes profile !! hpo_id = Some pheno →
  String.prefix "HP:" identifier = false →
  lower identifier = lower (pp_name pheno) →
  ∃ hpo_id' module_id' profile' pheno',
    resolve_phenotype (load rows profiles) identifier = Some hpo_id' ∧
    profiles !! module_id' = Some profile' ∧
    mp_phenotypes profile' !! hpo_id' = Some pheno' ∧
    lower (pp_name pheno') = lower identifier.
Proof.
  intros Hm Hh Hprefix Hlower.
  destruct (load_names_complete rows profiles module_id profile hpo_id pheno
              Hm Hh) as [h' Hl].
  destruct (load_names_sound rows profiles _ _ Hl) as (m' & p' & ph' & ? & ? & ?).
  exists h', m', p', ph'. unfold resolve_phenotype.
  rewrite Hprefix, Hlower. repeat split; try done.
Qed.

Lemma resolve_phenotype_by_name_complete_witness :
  ∃ hpo_id' module_id' profile' pheno',
    resolve_phenotype (load ex_rows ex_profiles) "rod-CONE dystrophy" =
      Some hpo_id' ∧
    ex_profiles !! module_id' = Some profile' ∧
    mp_phenotypes profile' !! hpo_id' = Some pheno' ∧
    lower (pp_name pheno') = lower "rod-CONE dystrophy".
Proof.
  apply (resolve_phenotype_by_name_complete ex_rows ex_profiles 7 ex_module_7
           "HP:0000510"
           (ex_phenotype "Rod-cone dystrophy" "HP:0000510" 90 10 ["BBS1"])).
  - vm_compute. reflexivity.
  - vm_compute. reflexivity.
  - reflexivity.
  - vm_compute. reflexivity.
Defined.

(** ** The gene tables *)

Lemma load_gene_tables (rows : list GeneRow)
    (profiles : gmap Z ModuleProfile) :
  gene_mapping (load rows profiles) =
    gene_mapping (_load_gene_mapping rows DataLoader_init) ∧
  module_genes (load rows profiles) =
    module_genes (_load_gene_mapping rows DataLoader_init).
Proof.
  unfold load.
  destruct (_build_indexes_tables
    {| module_profiles := profiles;
       gene_mapping := gene_mapping (_load_gene_mapping rows DataLoader_init);
       phenotype_to_modules :=
         phenotype_to_modules (_load_gene_mapping rows DataLoader_init);
       phenotype_name_to_hpo :=
         phenotype_name_to_hpo (_load_gene_mapping rows DataLoader_init);
       module_genes :=
         module_genes (_load_gene_mapping rows DataLoader_init) |})
    as (_ & -> & ->).
  done.
Qed.

(** Every entry of the gene table is filed under its own gene symbol, which
    is not empty, and the gene is listed under the entry's module. *)
Lemma _load_gene_mapping_listed (rows : list GeneRow) :
  ∀ g info,
    gene_mapping (_load_gene_mapping rows DataLoader_init) !! g = Some info →
    gi_gene info = g ∧ g ≠ "" ∧
    g ∈ get_module_genes (_load_gene_mapping rows DataLoader_init)
                         (gi_module_id info).
Proof.
  unfold _load_gene_mapping.
  apply (foldl_preserves
    (λ d, ∀ g info, gene_mapping d !! g = Some info →
          gi_gene info = g ∧ g ≠ "" ∧
          g ∈ get_module_genes d (gi_module_id info))).
  - intros d row Hd g info. unfold _load_gene_mapping_row.
    destruct (row_gene row) as [gene|]; [|apply Hd].
    case_decide as Hgene; [apply Hd|].
    unfold get_module_genes. simpl.
    destruct (decide (g = gene)) as [->|Hne].
    + rewrite lookup_insert_eq. intros [= <-].
      cbn [gi_gene gi_module_id gene_mapping module_genes].
      rewrite (lookup_insert_eq (module_genes d)). simpl. set_solver.
    + rewrite lookup_insert_ne by done. intros Hl.
      destruct (Hd g info Hl) as (? & ? & Hin).
      repeat split; try done.
      destruct (decide (gi_module_id info = row_module_id row)) as [Heq|Hm].
      * rewrite <- Heq, (lookup_insert_eq (module_genes d)). simpl.
        apply elem_of_union. by right.
      * by rewrite (lookup_insert_ne (module_genes d)).
  - intros g info. simpl. by rewrite lookup_empty.
Qed.

(** X5. After [load], the two gene tables agree: every gene with a
    [GeneInfo] is filed under its own non-empty symbol and belongs to the
    gene set of the module its [GeneInfo] names, and every gene of a
    module's gene set has a [GeneInfo]. *)
Theorem load_gene_tables_consistent (rows : list GeneRow)
    (profiles : gmap Z ModuleProfile) :
  let data := load rows profiles in
  (∀ gene info,
     get_gene_info data gene = Some info →
     gi_gene info = gene ∧ gene ≠ "" ∧
     gene ∈ get_module_genes data (gi_module_id info)) ∧
  (∀ module_id gene,
     gene ∈ get_module_genes data module_id →
     is_Some (get_gene_info data gene)).
Proof.
  simpl. split.
  - intros g info. unfold get_gene_info, get_module_genes.
    destruct (load_gene_tables rows profiles) as [-> ->].
    apply _load_gene_mapping_listed.
  - intros m g. unfold get_module_genes, get_gene_info. intros Hin.
    destruct (module_genes (load rows profiles) !! m) as [gs|] eqn:Hm;
      simpl in Hin; [|set_solver].
    by eapply load_classified.
Qed.

Lemma _load_gene_mapping_row_valid (d : DataLoader) (row : GeneRow)
    (gene : string) :
  row_gene row = Some gene → gene ≠ "" →
  gene_mapping (_load_gene_mapping_row d row) =
    <[gene := {| gi_gene := gene;
                 gi_module_id := row_module_id row;
                 gi_stability_score := row_stability_score row;
                 gi_classification := row_classification row |}]>
      (gene_mapping d) ∧
  module_genes (_load_gene_mapping_row d row) =
    <[row_module_id row :=
        {[gene]} ∪ default ∅ (module_genes d !! row_module_id row)]>
      (module_genes d).
Proof.
  intros Hrow Hne. unfold _load_gene_mapping_row. rewrite Hrow.
  by destruct (decide (gene = "")).
Qed.

(** X6. A later row for a gene replaces its [GeneInfo], while no module's
    gene set ever loses a gene: a gene listed twice under different modules
    stays in both gene sets. *)
Theorem load_later_row_overwrites (rows : list GeneRow) (row : GeneRow)
    (profiles : gmap Z ModuleProfile) (gene : string) :
  row_gene row = Some gene → gene ≠ "" →
  let data := load (rows ++ [row]) profiles in
  get_gene_info data gene =
    Some {| gi_gene := gene;
            gi_module_id := row_module_id row;
            gi_stability_score := row_stability_score row;
            gi_classification := row_classification row |} ∧
  gene ∈ get_module_genes data (row_module_id row) ∧
  ∀ module_id,
    get_module_genes (load rows profiles) module_id ⊆
    get_module_genes data module_id.
Proof.
  intros Hrow Hne. simpl. unfold get_gene_info, get_module_genes.
  destruct (load_gene_tables (rows ++ [row]) profiles) as [-> ->].
  destruct (load_gene_tables rows profiles) as [_ ->].
  unfold _load_gene_mapping. rewrite foldl_app. simpl.
  set (d := foldl _load_gene_mapping_row DataLoader_init rows).
  destruct (_load_gene_mapping_row_valid d row gene Hrow Hne) as [-> ->].
  split; [|split].
  - by rewrite lookup_insert_eq.
  - rewrite (lookup_insert_eq (module_genes d)). simpl. set_solver.
  - intros m. destruct (decide (m = row_module_id row)) as [->|Hm].
    + rewrite (lookup_insert_eq (module_genes d)). simpl. set_solver.
    + by rewrite (lookup_insert_ne (module_genes d)).
Qed.

Lemma load_later_row_overwrites_witness :
  let row := ex_gene_row "BBS1" 11 (3 # 10) "peripheral" in
  let data := load (ex_rows ++ [row]) ex_profiles in
  get_gene_info data "BBS1" =
    Some {| gi_gene := "BBS1";
            gi_module_id := row_module_id row;
            gi_stability_score := row_stability_score row;
            gi_classification := row_classification row |} ∧
  "BBS1" ∈ get_module_genes data (row_module_id row) ∧
  ∀ module_id,
    get_module_genes (load ex_rows ex_profiles) module_id ⊆
    get_module_genes data module_id.
Proof.
  apply (load_later_row_overwrites ex_rows
           (ex_gene_row "BBS1" 11 (3 # 10) "peripheral") ex_profiles "BBS1").
  - reflexivity.
  - discriminate.
Defined.

(** ** The explanation of a score *)
Section score_explanations.
Context (self : ScoringEngine) (profile : ModuleProfile).

(** The loops keep the running score and the contributions in step. *)
Lemma foldl_score_observed_account (l : list string) (st : score_state) :
  ((foldl (score_observed self profile) st l).1 -
   Qsum (map ei_contribution (foldl (score_observed self profile) st l).2) ==
   st.1 - Qsum (map ei_contribution st.2))%Q.
Proof.
  revert st. induction l as [|h l IH]; intros st; simpl; [reflexivity|].
  rewrite IH. unfold score_observed.
  destruct (mp_phenotypes profile !! h); simpl; [|reflexivity].
  rewrite map_app, Qsum_app. simpl. lra.
Qed.

Lemma foldl_score_excluded_account (l : list string) (st : score_state) :
  ((foldl (score_excluded self profile) st l).1 -
   Qsum (map ei_contribution (foldl (score_excluded self profile) st l).2) ==
   st.1 - Qsum (map ei_contribution st.2))%Q.
Proof.
  revert st. induction l as [|h l IH]; intros st; simpl; [reflexivity|].
  rewrite IH. unfold score_excluded.
  destruct (mp_phenotypes profile !! h) as [ph|]; simpl; [|reflexivity].
  destruct (Qltb 0 (pp_prevalence ph)); simpl; [|reflexivity].
  rewrite map_app, Qsum_app. simpl. lra.
Qed.

(** Every entry names an identifier of the loop's set that the module has. *)
Lemma foldl_score_observed_items (l : list string) (st : score_state)
    (P : ExplainabilityItem → Prop) :
  Forall P st.2 →
  (∀ h ph, h ∈ l → mp_phenotypes profile !! h = Some ph →
     P {| ei_phenotype_name := pp_name ph; ei_hpo_id := h;
          ei_contribution := score_phenotype self ph;
          ei_explanation :=
            PresentInModule (pp_prevalence ph) (pp_specificity ph) |}) →
  Forall P (foldl (score_observed self profile) st l).2.
Proof.
  revert st. induction l as [|h l IH]; intros st Hst HP; simpl; [done|].
  apply IH.
  - unfold score_observed.
    destruct (mp_phenotypes profile !! h) as [ph|] eqn:Hl; simpl; [|done].
    apply Forall_app. split; [done|]. constructor; [|constructor].
    apply HP; [left|done].
  - intros h' ph' Hin. apply HP. by right.
Qed.

Lemma foldl_score_excluded_items (l : list string) (st : score_state)
    (P : ExplainabilityItem → Prop) :
  Forall P st.2 →
  (∀ h ph, h ∈ l → mp_phenotypes profile !! h = Some ph →
     (0 < pp_prevalence ph)%Q →
     P {| ei_phenotype_name := pp_name ph; ei_hpo_id := h;
          ei_contribution :=
            (- (score_phenotype self ph *
                exclusion_penalty (se_config self)))%Q;
          ei_explanation := ExcludedButPresent |}) →
  Forall P (foldl (score_excluded self profile) st l).2.
Proof.
  revert st. induction l as [|h l IH]; intros st Hst HP; simpl; [done|].
  apply IH.
  - unfold score_excluded.
    destruct (mp_phenotypes profile !! h) as [ph|] eqn:Hl; simpl; [|done].
    destruct (Qltb 0 (pp_prevalence ph)) eqn:Hprev; simpl; [|done].
    apply Forall_app. split; [done|]. constructor; [|constructor].
    apply HP; [left|done|by apply Qltb_lt].
  - intros h' ph' Hin. apply HP. by right.
Qed.
End score_explanations.

(** X7. The explanation [score_module] returns accounts for the score: the
    score is the sum of the entries' contributions, floored at zero, and
    every entry names an observed or excluded identifier that the module's
    phenotype map has. *)
Theorem score_module_explained (self : ScoringEngine) (module_id : Z)
    (observed_ids excluded_ids : gset string) :
  let result := score_module self module_id observed_ids excluded_ids in
  result.1 == Qmax 0 (Qsum (map ei_contribution result.2)) ∧
  Forall (λ item,
            ei_hpo_id item ∈ observed_ids ∪ excluded_ids ∧
            is_Some (phenotypes_of (se_loader self) module_id
                       !! ei_hpo_id item)) result.2.
Proof.
  simpl. unfold score_module, phenotypes_of.
  destruct (get_module_profile (se_loader self) module_id) as [profile|];
    simpl; [|split; [reflexivity|constructor]].
  split.
  - apply Q.max_compat; [reflexivity|].
    pose proof (foldl_score_excluded_account self profile
      (elements excluded_ids)
      (foldl (score_observed self profile) (0%Q, [])
             (elements observed_ids))) as He.
    pose proof (foldl_score_observed_account self profile
      (elements observed_ids) (0%Q, [])) as Ho.
    simpl in Ho. lra.
  - apply foldl_score_excluded_items.
    + apply foldl_score_observed_items; [constructor|].
      intros h ph Hin Hl. simpl. apply elem_of_elements in Hin.
      split; [set_solver|by eexists].
    + intros h ph Hin Hl _. simpl. apply elem_of_elements in Hin.
      split; [set_solver|by eexists].
Qed.

(** X8. [get_module_explanation] returns the entries of [score_module],
    none dropped and none added, ordered by decreasing absolute
    contribution. *)
Theorem get_module_explanation_sorted (self : ScoringEngine) (module_id : Z)
    (observed_ids excluded_ids : gset string) :
  get_module_explanation self module_id observed_ids excluded_ids ≡ₚ
    (score_module self module_id observed_ids excluded_ids).2 ∧
  StronglySorted (score_desc abs_contribution)
    (get_module_explanation self module_id observed_ids excluded_ids).
Proof.
  unfold get_module_explanation.
  destruct (score_module self module_id observed_ids excluded_ids)
    as [score explanations]. simpl. split.
  - apply sort_desc_Permutation.
  - apply sort_desc_sorted.
Qed.

(** ** The order of a ranking *)

(** Inserting a match whose identifier is below all those of the list. *)
Lemma insert_desc_ranked (x : ModuleMatch) (l : list ModuleMatch) :
  StronglySorted ranked_before l →
  Forall (λ y, (mm_module_id x < mm_module_id y)%Z) l →
  StronglySorted ranked_before (insert_desc mm_score Qltb x l).
Proof.
  induction 1 as [|y l Hl IH Hy]; intros Hids; simpl.
  - repeat constructor.
  - apply Forall_cons in Hids as [Hxy Hids].
    destruct (Qltb (mm_score x) (mm_score y)) eqn:Hcmp.
    + apply Qltb_lt in Hcmp.
      constructor; [by apply IH|].
      apply Forall_forall. intros z Hz.
      rewrite insert_desc_Permutation in Hz.
      apply elem_of_cons in Hz as [-> |Hz].
      * by left.
      * rewrite Forall_forall in Hy. by apply Hy.
    + apply Qltb_ge in Hcmp.
      constructor; [by constructor|].
      assert (ranked_before x y) as Hxy'.
      { destruct (Qlt_le_dec (mm_score y) (mm_score x)); [by left|].
        right. split; [lra|done]. }
      constructor; [done|].
      apply Forall_forall. intros z Hz.
      rewrite Forall_forall in Hy, Hids.
      specialize (Hy z Hz). specialize (Hids z Hz).
      destruct (Qlt_le_dec (mm_score z) (mm_score x)); [by left|].
      right. split; [|done].
      destruct Hy as [?|[? _]]; lra.
Qed.

Lemma sort_desc_ranked (l : list ModuleMatch) :
  StronglySorted Z.lt (map mm_module_id l) →
  StronglySorted ranked_before (sort_desc mm_score Qltb l).
Proof.
  induction l as [|x l IH]; simpl; intros Hids; [constructor|].
  apply StronglySorted_inv in Hids as [Hids Hx].
  apply insert_desc_ranked; [by apply IH|].
  apply Forall_forall. intros y Hy. apply elem_of_sort_desc in Hy.
  apply (Forall_map mm_module_id (λ i, (mm_module_id x < i)%Z)) in Hx.
  rewrite Forall_forall in Hx. by apply Hx.
Qed.

(** The ranking order only looks at identifiers and scores. *)
Lemma ranked_same_id_score (l l' : list ModuleMatch) :
  map (λ m, (mm_module_id m, mm_score m)) l =
  map (λ m, (mm_module_id m, mm_score m)) l' →
  StronglySorted ranked_before l → StronglySorted ranked_before l'.
Proof.
  revert l'. induction l as [|x l IH]; intros [|x' l'] Heq Hs;
    simpl in Heq; try discriminate; [constructor|].
  injection Heq as Hid Hscore Hl.
  apply StronglySorted_inv in Hs as [Hs Hall].
  constructor; [by apply IH|].
  apply (Forall_map (λ m, (mm_module_id m, mm_score m))
           (λ p, (p.2 < mm_score x')%Q ∨
                 (mm_score x' == p.2 ∧ (mm_module_id x' < p.1)%Z))).
  rewrite <- Hl, <- Hid, <- Hscore.
  by apply (Forall_map (λ m, (mm_module_id m, mm_score m))
              (λ p, (p.2 < mm_score x)%Q ∨
                    (mm_score x == p.2 ∧ (mm_module_id x < p.1)%Z))).
Qed.

Lemma get_all_module_ids_ascending (loader : DataLoader) :
  StronglySorted Z.lt (get_all_module_ids loader).
Proof.
  pose proof (NoDup_get_all_module_ids loader) as Hnodup.
  assert (StronglySorted Z.le (get_all_module_ids loader)) as Hsorted.
  { apply StronglySorted_merge_sort; apply _. }
  induction Hsorted as [|x l Hl IH Hx]; [constructor|].
  apply NoDup_cons in Hnodup as [Hfresh Hnodup].
  constructor; [by apply IH|].
  apply Forall_forall. intros y Hy.
  rewrite Forall_forall in Hx. specialize (Hx y Hy).
  assert (x ≠ y) by (intros ->; done). lia.
Qed.

(** X9. The ranking is fully determined: of two matches of [rank_modules],
    the one listed first has the higher score or, at equal scores, the lower
    module identifier. *)
Theorem rank_modules_ties_by_ascending_id (self : ScoringEngine)
    (observed_ids excluded_ids : gset string) :
  StronglySorted ranked_before (rank_modules self observed_ids excluded_ids).
Proof.
  unfold rank_modules.
  eapply ranked_same_id_score;
    [symmetry; apply assign_confidence_id_score|].
  apply sort_desc_ranked. rewrite map_id_module_match.
  apply get_all_module_ids_ascending.
Qed.

(** A list that is already in descending order is left as it is. *)
Lemma sort_desc_sorted_id {A} (key : A → Q) (l : list A) :
  StronglySorted (score_desc key) l → sort_desc key Qltb l = l.
Proof.
  induction 1 as [|x l Hl IH Hx]; simpl; [done|].
  rewrite IH. destruct l as [|y l]; [done|]. simpl.
  apply Forall_cons in Hx as [Hxy _].
  by apply Qltb_ge in Hxy as ->.
Qed.

Lemma all_zero_sorted {A} (key : A → Q) (l : list A) :
  Forall (λ x, key x == 0) l → StronglySorted (score_desc key) l.
Proof.
  induction 1 as [|x l Hx Hl IH]; constructor; [done|].
  eapply Forall_impl; [exact Hl|].
  intros y Hy. unfold score_desc. simpl in Hy. lra.
Qed.

Lemma rank_modules_no_signal_general (self : ScoringEngine)
    (observed_ids excluded_ids : gset string) :
  Forall (λ module_id,
            (score_module self module_id observed_ids excluded_ids).1 == 0)
         (get_all_module_ids (se_loader self)) →
  rank_modules self observed_ids excluded_ids =
  map (module_match self observed_ids excluded_ids)
      (get_all_module_ids (se_loader self)).
Proof.
  intros Hzero. unfold rank_modules.
  assert (Forall (λ m, mm_score m == 0)
            (map (module_match self observed_ids excluded_ids)
                 (get_all_module_ids (se_loader self)))) as Hall.
  { apply Forall_map. eapply Forall_impl; [exact Hzero|].
    intros i Hi. simpl. by rewrite module_match_score. }
  rewrite sort_desc_sorted_id by (by apply all_zero_sorted).
  destruct (map _ _) as [|r0 [|r1 rest]] eqn:Hl; [done| |].
  - apply Forall_cons in Hall as [H0 _]. simpl.
    assert (Qltb 0 (mm_score r0) = false) as -> by (apply Qltb_ge; lra).
    done.
  - apply Forall_cons in Hall as [H0 _]. unfold assign_confidence.
    assert (Qltb 0 (mm_score r0) = false) as -> by (apply Qltb_ge; lra).
    done.
Qed.

(** X10. When no module scores above zero, [rank_modules] assigns no
    confidence: it lists the modules in ascending identifier order, each
    with confidence 0. *)
Theorem rank_modules_no_signal (self : ScoringEngine)
    (observed_ids excluded_ids : gset string) :
  Forall (λ module_id,
            (score_module self module_id observed_ids excluded_ids).1 == 0)
         (get_all_module_ids (se_loader self)) →
  map mm_module_id (rank_modules self observed_ids excluded_ids) =
    get_all_module_ids (se_loader self) ∧
  Forall (λ m, mm_confidence m = 0%Q)
         (rank_modules self observed_ids excluded_ids).
Proof.
  intros Hzero. rewrite rank_modules_no_signal_general by done. split.
  - apply map_id_module_match.
  - apply Forall_map, Forall_forall. intros i _. simpl.
    apply module_match_confidence.
Qed.

Lemma rank_modules_no_signal_witness :
  map mm_module_id (rank_modules ex_scorer {["HP:9999999"]} ∅) =
    get_all_module_ids (se_loader ex_scorer) ∧
  Forall (λ m, mm_confidence m = 0%Q)
         (rank_modules ex_scorer {["HP:9999999"]} ∅).
Proof.
  apply rank_modules_no_signal.
  apply (bool_decide_unpack _). vm_compute. reflexivity.
Defined.

Lemma module_match_empty (self : ScoringEngine) (module_id : Z) :
  let m := module_match self ∅ ∅ module_id in
  mm_score m = 0%Q ∧ mm_confidence m = 0%Q ∧
  mm_contributing_phenotypes m = [] ∧ mm_penalized_phenotypes m = [].
Proof.
  simpl. unfold module_match, score_module.
  destruct (get_module_profile (se_loader self) module_id); [|done].
  by rewrite elements_empty.
Qed.

Lemma rank_modules_empty_ids (self : ScoringEngine) :
  map mm_module_id (rank_modules self ∅ ∅) =
  get_all_module_ids (se_loader self).
Proof.
  rewrite rank_modules_no_signal_general; [apply map_id_module_match|].
  apply Forall_forall. intros i _. rewrite <- module_match_score.
  by rewrite (proj1 (module_match_empty self i)).
Qed.

(** X11. With nothing observed and nothing excluded, [rank_modules] lists
    every module in ascending identifier order with score 0, confidence 0
    and no contributing or penalized phenotype. *)
Theorem rank_modules_empty_query (self : ScoringEngine) :
  map mm_module_id (rank_modules self ∅ ∅) =
    get_all_module_ids (se_loader self) ∧
  Forall (λ m, mm_score m = 0%Q ∧ mm_confidence m = 0%Q ∧
               mm_contributing_phenotypes m = [] ∧
               mm_penalized_phenotypes m = [])
         (rank_modules self ∅ ∅).
Proof.
  assert (rank_modules self ∅ ∅ =
          map (module_match self ∅ ∅) (get_all_module_ids (se_loader self)))
    as ->.
  { apply rank_modules_no_signal_general, Forall_forall. intros i _.
    rewrite <- module_match_score.
    by rewrite (proj1 (module_match_empty self i)). }
  split.
  - apply map_id_module_match.
  - apply Forall_map, Forall_forall. intros i _.
    apply module_match_empty.
Qed.

(** ** The confidence without its clamp *)

Lemma clamp_unit_id (x : Q) :
  (0 <= x)%Q → (x <= 1)%Q → Qmin 1 (Qmax 0 x) == x.
Proof.
  intros H0 H1. rewrite (Q.max_r 0 x) by done. by apply Q.min_r.
Qed.

Lemma assign_confidence_unclamped (r0 r1 : ModuleMatch)
    (rest : list ModuleMatch) :
  (0 < mm_score r0)%Q → (0 <= mm_score r1)%Q →
  (mm_score r1 <= mm_score r0)%Q →
  ∃ c0,
    c0 == (mm_score r0 - mm_score r1) / mm_score r0 ∧
    assign_confidence (r0 :: r1 :: rest) =
    set_confidence c0 r0 ::
    map (λ m, set_confidence (mm_score m / mm_score r0 * (1 - c0))%Q m)
        (r1 :: rest).
Proof.
  intros Hpos H1 Hle. unfold assign_confidence.
  assert (Qltb 0 (mm_score r0) = true) as -> by (by apply Qltb_lt).
  eexists. split; [|reflexivity].
  assert (0 <= (mm_score r0 - mm_score r1) / mm_score r0)%Q
    by (apply Qle_shift_div_l; lra).
  assert ((mm_score r0 - mm_score r1) / mm_score r0 <= 1)%Q
    by (apply Qle_shift_div_r; lra).
  by apply clamp_unit_id.
Qed.

(** X12. With at least two modules and a positive top score, the clamp in
    [rank_modules] never changes anything: the confidence of the first match
    is the separation [(s0 - s1) / s0] itself, for [s0] and [s1] the scores
    of the first two matches, and every other match has confidence
    [(s / s0) * (1 - c0)], for [s] its own score and [c0] the confidence of
    the first. *)
Theorem rank_modules_separation_unclamped (self : ScoringEngine)
    (observed_ids excluded_ids : gset string)
    (m0 m1 : ModuleMatch) (rest : list ModuleMatch) :
  rank_modules self observed_ids excluded_ids = m0 :: m1 :: rest →
  (0 < mm_score m0)%Q →
  mm_confidence m0 == (mm_score m0 - mm_score m1) / mm_score m0 ∧
  Forall (λ m, mm_confidence m =
               (mm_score m / mm_score m0 * (1 - mm_confidence m0))%Q)
         (m1 :: rest).
Proof.
  unfold rank_modules.
  set (sorted := sort_desc mm_score Qltb _).
  assert (StronglySorted (score_desc mm_score) sorted) as Hsorted
    by apply sort_desc_sorted.
  assert (Forall (λ m, (0 <= mm_score m)%Q) sorted) as Hnonneg.
  { apply Forall_forall. intros m Hm.
    apply elem_of_sort_desc, list_elem_of_In, in_map_iff in Hm
      as (i & <- & _).
    rewrite module_match_score. apply score_module_nonneg. }
  clearbody sorted. intros Heq Hpos.
  pose proof (assign_confidence_scores sorted) as Hscores.
  rewrite Heq in Hscores.
  destruct sorted as [|r0 [|r1 rs]]; simpl in Hscores; try discriminate.
  injection Hscores as Hs0 Hs1 Hrs.
  apply StronglySorted_inv in Hsorted as [_ Hle].
  apply Forall_cons in Hle as [Hle _]. unfold score_desc in Hle.
  apply Forall_cons in Hnonneg as [_ Hnonneg].
  apply Forall_cons in Hnonneg as [Hn1 _].
  destruct (assign_confidence_unclamped r0 r1 rs) as (c0 & Hc0 & Hassign);
    [by rewrite <- Hs0|done|done|].
  rewrite Hassign in Heq. injection Heq as <- <- <-.
  split; [exact Hc0|].
  change (Forall (λ m, mm_confidence m =
                       (mm_score m / mm_score r0 * (1 - c0))%Q)
            (map (λ m, set_confidence
                         (mm_score m / mm_score r0 * (1 - c0))%Q m)
                 (r1 :: rs))).
  apply Forall_map, Forall_forall. intros m _. reflexivity.
Qed.

Lemma rank_modules_separation_unclamped_witness :
  match ex_ranking with
  | m0 :: m1 :: rest =>
      mm_confidence m0 == (mm_score m0 - mm_score m1) / mm_score m0 ∧
      Forall (λ m, mm_confidence m =
                   (mm_score m / mm_score m0 * (1 - mm_confidence m0))%Q)
             (m1 :: rest)
  | _ => True
  end.
Proof.
  cbv delta [ex_ranking] iota beta.
  lazymatch goal with
  | |- mm_confidence ?m0 == _ ∧ Forall _ (?m1 :: ?rest) =>
      apply (rank_modules_separation_unclamped
               ex_scorer {["HP:0000510"]} ∅ m0 m1 rest)
  end.
  - vm_compute. reflexivity.
  - vm_compute. reflexivity.
Defined.

(** ** [rank_genes] in general *)

Lemma Qpair_ltb_lt (a b : Q * Q) :
  Qpair_ltb a b = true ↔ (a.1 < b.1)%Q ∨ (a.1 == b.1 ∧ (a.2 < b.2)%Q).
Proof.
  unfold Qpair_ltb. destruct (a.1 ?= b.1)%Q eqn:Hcmp.
  - apply Qeq_alt in Hcmp. rewrite Qltb_lt. split; [by right|].
    intros [?|[_ ?]]; [lra|done].
  - apply Qlt_alt in Hcmp. split; [by left|done].
  - apply Qgt_alt in Hcmp. split; [done|]. intros [?|[? _]]; lra.
Qed.

Lemma Qpair_ltb_ge (a b : Q * Q) :
  Qpair_ltb a b = false ↔ (b.1 < a.1)%Q ∨ (a.1 == b.1 ∧ (b.2 <= a.2)%Q).
Proof.
  destruct (Qpair_ltb a b) eqn:Hcmp.
  - apply Qpair_ltb_lt in Hcmp. split; [done|].
    intros [?|[? ?]]; destruct Hcmp as [?|[? ?]]; lra.
  - split; [intros _|done].
    assert (¬ ((a.1 < b.1)%Q ∨ (a.1 == b.1 ∧ (a.2 < b.2)%Q))) as Hn.
    { intros H. apply Qpair_ltb_lt in H. congruence. }
    destruct (Qlt_le_dec b.1 a.1); [by left|]. right.
    destruct (Qlt_le_dec a.1 b.1); [exfalso; apply Hn; by left|].
    split; [lra|].
    destruct (Qlt_le_dec a.2 b.2); [|done].
    exfalso. apply Hn. right. split; [lra|done].
Qed.

Section sort_by_pair.
Context {A : Type} (key : A → Q * Q).

Lemma lex_desc_trans (x y z : A) :
  lex_desc key x y → lex_desc key y z → lex_desc key x z.
Proof.
  unfold lex_desc. intros [?|[? ?]] [?|[? ?]].
  - left. lra.
  - left. lra.
  - left. lra.
  - right. split; lra.
Qed.

Lemma insert_desc_lex_sorted (x : A) (l : list A) :
  StronglySorted (lex_desc key) l →
  StronglySorted (lex_desc key) (insert_desc key Qpair_ltb x l).
Proof.
  induction 1 as [|y l Hl IH Hy]; simpl.
  - repeat constructor.
  - destruct (Qpair_ltb (key x) (key y)) eqn:Hcmp.
    + constructor; [exact IH|].
      apply Forall_forall. intros z Hz.
      rewrite insert_desc_Permutation in Hz.
      apply elem_of_cons in Hz as [-> |Hz].
      * apply Qpair_ltb_lt in Hcmp. unfold lex_desc.
        destruct Hcmp as [?|[? ?]]; [by left|right; split; lra].
      * rewrite Forall_forall in Hy. by apply Hy.
    + apply Qpair_ltb_ge in Hcmp.
      constructor; [by constructor|].
      constructor; [exact Hcmp|].
      eapply Forall_impl; [exact Hy|].
      intros z Hz. by apply (lex_desc_trans x y z).
Qed.

Lemma sort_desc_lex_sorted (l : list A) :
  StronglySorted (lex_desc key) (sort_desc key Qpair_ltb l).
Proof.
  induction l as [|x l IH]; simpl.
  - constructor.
  - by apply insert_desc_lex_sorted.
Qed.
End sort_by_pair.

(** X13. [rank_genes] returns its candidates ordered by decreasing support
    score and, at equal support, by decreasing stability score. *)
Theorem rank_genes_sorted (self : ScoringEngine) (module_id : Z)
    (observed_ids : gset string) :
  StronglySorted (lex_desc gene_sort_key)
                 (rank_genes self module_id observed_ids).
Proof.
  unfold rank_genes.
  destruct (get_module_profile (se_loader self) module_id); [|constructor].
  apply (sort_desc_lex_sorted gene_sort_key).
Qed.

(** The keys of the score dictionary. *)
Section gene_score_keys.
Context {V : Type}.
Implicit Types d : list (string * V).

Lemma elem_of_add_key (k x : string) (keys : list string) :
  x ∈ add_key k keys ↔ x = k ∨ x ∈ keys.
Proof.
  unfold add_key. case_decide.
  - split; [by right|]. by intros [-> |?].
  - rewrite elem_of_app, list_elem_of_singleton. tauto.
Qed.

Lemma NoDup_add_key (k : string) (keys : list string) :
  NoDup keys → NoDup (add_key k keys).
Proof.
  intros Hnodup. unfold add_key. case_decide; [done|].
  apply NoDup_app. split; [done|]. split; [|apply NoDup_singleton].
  intros x Hx Hk. apply list_elem_of_singleton in Hk. by subst.
Qed.

Lemma alist_get_is_Some (k : string) d :
  is_Some (alist_get k d) ↔ k ∈ map fst d.
Proof.
  induction d as [|[k' v] d IH]; simpl.
  - rewrite elem_of_nil. split; [by intros [? ?]|done].
  - case_decide as Hk.
    + subst. split; [left|by eexists].
    + rewrite IH, elem_of_cons. naive_solver.
Qed.

Lemma alist_set_keys (k : string) (v : V) d :
  map fst (alist_set k v d) = add_key k (map fst d).
Proof.
  unfold add_key. induction d as [|[k' v'] d IH].
  - cbn [alist_set map fst].
    destruct (decide (k ∈ [])) as [Hin|_]; [|done].
    by apply elem_of_nil in Hin.
  - cbn [alist_set]. destruct (decide (k = k')) as [<-|Hk].
    + cbn [map fst].
      destruct (decide (k ∈ k :: map fst d)) as [_|Hn]; [done|].
      exfalso. apply Hn. left.
    + cbn [map fst]. rewrite IH.
      destruct (decide (k ∈ map fst d)) as [Hin|Hnin];
        destruct (decide (k ∈ k' :: map fst d)) as [Hin'|Hnin'].
      * done.
      * exfalso. apply Hnin'. by right.
      * apply elem_of_cons in Hin' as [?|?]; done.
      * done.
Qed.

Lemma alist_get_set_eq (k : string) (v : V) d :
  alist_get k (alist_set k v d) = Some v.
Proof.
  induction d as [|[k' v'] d IH]; simpl.
  - by rewrite decide_True.
  - case_decide as Hk; simpl.
    + by rewrite decide_True.
    + by rewrite decide_False.
Qed.
End gene_score_keys.

Lemma add_key_idem (k : string) (keys : list string) :
  add_key k (add_key k keys) = add_key k keys.
Proof.
  unfold add_key at 1. rewrite decide_True; [done|].
  apply elem_of_add_key. by left.
Qed.

Lemma support_gene_keys (contribution : Q) (pheno_name : string)
    (gene_scores : gene_scores_t) (gene : string) :
  map fst (support_gene contribution pheno_name gene_scores gene) =
  add_key gene (map fst gene_scores).
Proof.
  unfold support_gene.
  destruct (alist_get gene gene_scores) as [[c l]|] eqn:Hget.
  - rewrite Hget, alist_set_keys. done.
  - rewrite alist_get_set_eq, !alist_set_keys. apply add_key_idem.
Qed.

Lemma add_module_gene_keys (gene_scores : gene_scores_t) (gene : string) :
  map fst (add_module_gene gene_scores gene) =
  add_key gene (map fst gene_scores).
Proof.
  unfold add_module_gene.
  destruct (alist_get gene gene_scores) eqn:Hget.
  - unfold add_key. rewrite decide_True; [done|].
    apply alist_get_is_Some. by rewrite Hget.
  - apply alist_set_keys.
Qed.

(** A loop whose steps add one key each. *)
Lemma foldl_add_keys (f : gene_scores_t → string → gene_scores_t)
    (l : list string) (d : gene_scores_t) :
  (∀ d g, map fst (f d g) = add_key g (map fst d)) →
  (NoDup (map fst d) → NoDup (map fst (foldl f d l))) ∧
  (∀ x, x ∈ map fst (foldl f d l) ↔ x ∈ map fst d ∨ x ∈ l).
Proof.
  intros Hstep. revert d. induction l as [|g l IH]; intros d; simpl.
  - split; [done|]. intros x. rewrite elem_of_nil. tauto.
  - destruct (IH (f d g)) as [IH1 IH2]. split.
    + intros Hnodup. apply IH1. rewrite Hstep. by apply NoDup_add_key.
    + intros x. rewrite IH2, Hstep, elem_of_add_key, elem_of_cons. tauto.
Qed.

Section rank_genes_keys.
Context (self : ScoringEngine) (profile : ModuleProfile).

Lemma support_phenotype_keys (d : gene_scores_t) (h : string) :
  (NoDup (map fst d) →
   NoDup (map fst (support_phenotype self profile d h))) ∧
  (∀ x, x ∈ map fst (support_phenotype self profile d h) ↔
        x ∈ map fst d ∨
        ∃ ph, mp_phenotypes profile !! h = Some ph ∧ x ∈ pp_genes_with ph).
Proof.
  unfold support_phenotype.
  destruct (mp_phenotypes profile !! h) as [ph|].
  - destruct (foldl_add_keys
                (support_gene (score_phenotype self ph) (pp_name ph))
                (pp_genes_with ph) d) as [H1 H2].
    { intros. apply support_gene_keys. }
    split; [done|]. intros x. rewrite H2. naive_solver.
  - split; [done|]. intros x. naive_solver.
Qed.

Lemma foldl_support_phenotype_keys (l : list string) (d : gene_scores_t) :
  (NoDup (map fst d) →
   NoDup (map fst (foldl (support_phenotype self profile) d l))) ∧
  (∀ x, x ∈ map fst (foldl (support_phenotype self profile) d l) ↔
        x ∈ map fst d ∨
        ∃ h ph, h ∈ l ∧ mp_phenotypes profile !! h = Some ph ∧
                x ∈ pp_genes_with ph).
Proof.
  revert d. induction l as [|h l IH]; intros d; simpl.
  - split; [done|]. intros x. split; [by left|].
    intros [?|(h & ph & Hin & _)]; [done|]. by apply elem_of_nil in Hin.
  - destruct (IH (support_phenotype self profile d h)) as [IH1 IH2].
    destruct (support_phenotype_keys d h) as [S1 S2]. split.
    + intros Hnodup. by apply IH1, S1.
    + intros x. rewrite IH2, S2. split.
      * intros [[?|(ph & ? & ?)]|(h' & ph & ? & ? & ?)].
        -- by left.
        -- right. exists h, ph. split; [left|done].
        -- right. exists h', ph. split; [by right|done].
      * intros [?|(h' & ph & Hin & ? & ?)]; [by left; left|].
        apply elem_of_cons in Hin as [-> |Hin].
        -- left; right. by exists ph.
        -- right. by exists h', ph.
Qed.
End rank_genes_keys.

(** The candidates are the keys that have a [GeneInfo], in order. *)
Lemma omap_gene_candidate_genes (self : ScoringEngine) (module_id : Z)
    (d : gene_scores_t) :
  map gc_gene (omap (gene_candidate self module_id) d) =
  filter (λ g, is_Some (get_gene_info (se_loader self) g)) (map fst d).
Proof.
  induction d as [|[g [sc phs]] d IH]; [done|].
  cbn [map omap list_omap fst]. rewrite filter_cons.
  destruct (decide (is_Some (get_gene_info (se_loader self) g)))
    as [[info Hinfo]|Hnone].
  - unfold gene_candidate at 1. rewrite Hinfo.
    cbn [map gc_gene]. by rewrite IH.
  - unfold gene_candidate at 1.
    destruct (get_gene_info (se_loader self) g) as [info|]; [|exact IH].
    exfalso. apply Hnone. by eexists.
Qed.

Lemma omap_gene_candidate_info (self : ScoringEngine) (module_id : Z)
    (d : gene_scores_t) :
  Forall (λ c, gc_module_id c = module_id ∧
               ∃ info, get_gene_info (se_loader self) (gc_gene c) = Some info ∧
                       gc_classification c = gi_classification info ∧
                       gc_stability_score c = gi_stability_score info)
         (omap (gene_candidate self module_id) d).
Proof.
  induction d as [|[g [sc phs]] d IH]; [constructor|].
  cbn [omap list_omap]. unfold gene_candidate at 1.
  destruct (get_gene_info (se_loader self) g) as [info|] eqn:Hinfo;
    [|exact IH].
  constructor; [|exact IH]. simpl. split; [done|]. by exists info.
Qed.

(** X14. For a known module, [rank_genes] lists no gene twice; it lists
    exactly the genes with a [GeneInfo] that belong to the module's gene set
    or carry an observed phenotype of the module, and each candidate takes
    its classification and stability score from that [GeneInfo] and its
    module identifier from the call. *)
Theorem rank_genes_candidates (self : ScoringEngine) (module_id : Z)
    (profile : ModuleProfile) (observed_ids : gset string) :
  get_module_profile (se_loader self) module_id = Some profile →
  let candidates := rank_genes self module_id observed_ids in
  NoDup (map gc_gene candidates) ∧
  (∀ gene,
     gene ∈ map gc_gene candidates ↔
     is_Some (get_gene_info (se_loader self) gene) ∧
     (gene ∈ get_module_genes (se_loader self) module_id ∨
      ∃ hpo_id pheno,
        hpo_id ∈ observed_ids ∧
        mp_phenotypes profile !! hpo_id = Some pheno ∧
        gene ∈ pp_genes_with pheno)) ∧
  Forall (λ c, gc_module_id c = module_id ∧
               ∃ info, get_gene_info (se_loader self) (gc_gene c) = Some info ∧
                       gc_classification c = gi_classification info ∧
                       gc_stability_score c = gi_stability_score info)
         candidates.
Proof.
  intros Hprofile. simpl. unfold rank_genes. rewrite Hprofile.
  set (d1 := foldl (support_phenotype self profile) []
                   (elements observed_ids)).
  set (d2 := foldl add_module_gene d1
                   (elements (get_module_genes (se_loader self) module_id))).
  destruct (foldl_support_phenotype_keys self profile
              (elements observed_ids) []) as [N1 M1]. fold d1 in N1, M1.
  destruct (foldl_add_keys add_module_gene
              (elements (get_module_genes (se_loader self) module_id)) d1
              add_module_gene_keys) as [N2 M2]. fold d2 in N2, M2.
  assert (NoDup (map fst d2)) as Hnodup.
  { apply N2, N1. constructor. }
  split; [|split].
  - rewrite (Permutation_map _ (sort_desc_Permutation _ _ _)).
    rewrite omap_gene_candidate_genes. by apply NoDup_filter.
  - intros g.
    rewrite (Permutation_map _ (sort_desc_Permutation _ _ _)).
    rewrite omap_gene_candidate_genes, list_elem_of_filter, M2, M1.
    rewrite elem_of_elements. split.
    + intros [Hinfo [[Hnil|(h & ph & Hin & ? & ?)]|?]].
      * by apply elem_of_nil in Hnil.
      * split; [done|]. right. exists h, ph.
        by apply elem_of_elements in Hin.
      * split; [done|]. by left.
    + intros [Hinfo [?|(h & ph & Hin & ? & ?)]].
      * split; [done|]. by right.
      * split; [done|]. left; right. exists h, ph.
        by apply elem_of_elements in Hin.
  - apply Forall_forall. intros c Hc. apply elem_of_sort_desc in Hc.
    pose proof (omap_gene_candidate_info self module_id d2) as Hall.
    rewrite Forall_forall in Hall. by apply Hall.
Qed.

Lemma rank_genes_candidates_witness :
  let candidates := rank_genes ex_scorer 7 {["HP:0001513"]} in
  NoDup (map gc_gene candidates) ∧
  (∀ gene,
     gene ∈ map gc_gene candidates ↔
     is_Some (get_gene_info (se_loader ex_scorer) gene) ∧
     (gene ∈ get_module_genes (se_loader ex_scorer) 7 ∨
      ∃ hpo_id pheno,
        hpo_id ∈ ({["HP:0001513"]} : gset string) ∧
        mp_phenotypes ex_module_7 !! hpo_id = Some pheno ∧
        gene ∈ pp_genes_with pheno)) ∧
  Forall (λ c, gc_module_id c = 7%Z ∧
               ∃ info,
                 get_gene_info (se_loader ex_scorer) (gc_gene c) = Some info ∧
                 gc_classification c = gi_classification info ∧
                 gc_stability_score c = gi_stability_score info)
         candidates.
Proof.
  apply (rank_genes_candidates ex_scorer 7 ex_module_7).
  vm_compute. reflexivity.
Defined.

(** ** Slices and sorted candidate lists *)

Lemma py_take_take {A} (n : Z) (l : list A) : ∃ k, py_take n l = take k l.
Proof. unfold py_take. destruct (0 <=? n)%Z; by eexists. Qed.

Lemma length_py_take {A} (n : Z) (l : list A) :
  (0 ≤ n)%Z → length (py_take n l) = Z.to_nat n `min` length l.
Proof.
  intros Hn. unfold py_take.
  destruct (0 <=? n)%Z eqn:Hle; [apply length_take|lia].
Qed.

Lemma take_StronglySorted {A} (R : relation A) (k : nat) (l : list A) :
  StronglySorted R l → StronglySorted R (take k l).
Proof.
  intros Hs. rewrite <- (take_drop k l) in Hs.
  by apply StronglySorted_app_1_l in Hs.
Qed.

Lemma take_NoDup_map {A B} (f : A → B) (k : nat) (l : list A) :
  NoDup (map f l) → NoDup (map f (take k l)).
Proof.
  intros Hn. rewrite <- (take_drop k l), map_app in Hn.
  by apply NoDup_app in Hn as [? _].
Qed.

Lemma take_elem_of {A} (k : nat) (l : list A) (x : A) :
  x ∈ take k l → x ∈ l.
Proof.
  intros Hx. rewrite <- (take_drop k l). apply elem_of_app. by left.
Qed.

Lemma sorted_key_ext {A} (key key' : A → Q) (l : list A) :
  Forall (λ x, key x = key' x) l →
  StronglySorted (score_desc key) l → StronglySorted (score_desc key') l.
Proof.
  intros Hext Hs. induction Hs as [|x l Hl IH Hx]; [constructor|].
  apply Forall_cons in Hext as [Hx' Hext].
  constructor; [by apply IH|].
  apply Forall_forall. intros y Hy. unfold score_desc.
  rewrite Forall_forall in Hx, Hext.
  rewrite <- Hx', <- (Hext y Hy). by apply Hx.
Qed.

(** What survives sorting and slicing a list of scored candidates. *)
Section scored_candidates.
Context {B : Type} (score : B → Q).
Implicit Types l : list (Q * B).

Lemma top_candidates_sorted (n : Z) l :
  Forall (λ c, c.1 = score c.2) l →
  StronglySorted (score_desc score)
                 (map snd (py_take n (sort_desc fst Qltb l))).
Proof.
  intros Hscore.
  destruct (py_take_take n (sort_desc fst Qltb l)) as [k ->].
  apply (StronglySorted_fmap snd (score_desc (λ c : Q * B, score c.2))).
  { by intros x y. }
  apply take_StronglySorted.
  apply (sorted_key_ext fst); [|apply sort_desc_sorted].
  apply Forall_forall. intros c Hc. apply elem_of_sort_desc in Hc.
  rewrite Forall_forall in Hscore. by apply Hscore.
Qed.

Lemma top_candidates_elem_of (n : Z) l (x : B) :
  x ∈ map snd (py_take n (sort_desc fst Qltb l)) → x ∈ map snd l.
Proof.
  destruct (py_take_take n (sort_desc fst Qltb l)) as [k ->].
  intros Hx. apply list_elem_of_In, in_map_iff in Hx as (c & <- & Hc).
  apply list_elem_of_In, take_elem_of, elem_of_sort_desc in Hc.
  apply list_elem_of_In, in_map, list_elem_of_In, Hc.
Qed.

Lemma top_candidates_NoDup {C} (f : B → C) (n : Z) l :
  NoDup (map f (map snd l)) →
  NoDup (map f (map snd (py_take n (sort_desc fst Qltb l)))).
Proof.
  destruct (py_take_take n (sort_desc fst Qltb l)) as [k ->].
  rewrite !map_map. intros Hn. apply take_NoDup_map.
  by rewrite (Permutation_map _ (sort_desc_Permutation _ _ _)).
Qed.

Lemma top_candidates_length (n : Z) l :
  (0 ≤ n)%Z →
  length (map snd (py_take n (sort_desc fst Qltb l))) =
  Z.to_nat n `min` length l.
Proof.
  intros Hn. rewrite length_map, length_py_take by done.
  by rewrite (Permutation_length (sort_desc_Permutation _ _ _)).
Qed.
End scored_candidates.

(** ** Predictions *)

Lemma missing_candidate_Some (self : PredictionEngine)
    (already : gset string) (h : string) (ph : PhenotypeProfile)
    (c : Q * PhenotypePrediction) :
  missing_candidate self already (h, ph) = Some c →
  (h ∉ already) ∧
  (min_prevalence (pe_config self) <= pp_prevalence ph)%Q ∧
  (min_specificity (pe_config self) <= pp_specificity ph)%Q ∧
  c.1 = prediction_score c.2 ∧
  pr_hpo_id c.2 = h ∧ pr_name c.2 = pp_name ph ∧
  pr_prevalence c.2 = pp_prevalence ph ∧
  pr_specificity c.2 = pp_specificity ph.
Proof.
  unfold missing_candidate.
  destruct (decide (h ∈ already)); [done|].
  destruct (Qltb (pp_prevalence ph) _) eqn:Hp; [done|].
  destruct (Qltb (pp_specificity ph) _) eqn:Hs; [done|].
  intros [= <-]. apply Qltb_ge in Hp, Hs. by repeat split.
Qed.

Lemma omap_candidates_ids {B} (f : string * PhenotypeProfile → option (Q * B))
    (id : B → string) (l : list (string * PhenotypeProfile)) :
  (∀ e c, f e = Some c → id c.2 = e.1) →
  NoDup (map fst l) → NoDup (map id (map snd (omap f l))).
Proof.
  intros Hid. induction l as [|e l IH]; [constructor|].
  cbn [map omap list_omap]. intros Hn.
  apply NoDup_cons in Hn as [Hfresh Hn].
  destruct (f e) as [c|] eqn:Hfe; [|by apply IH].
  cbn [map]. apply NoDup_cons. split; [|by apply IH].
  rewrite (Hid e c Hfe). intros Hin. apply Hfresh.
  apply list_elem_of_In, in_map_iff in Hin as (b & Hb & Hin).
  apply in_map_iff in Hin as (c' & <- & Hin).
  apply list_elem_of_In, list_elem_of_omap in Hin as (e' & He' & Hfe').
  rewrite (Hid e' c' Hfe') in Hb. rewrite <- Hb.
  apply list_elem_of_In, in_map, list_elem_of_In, He'.
Qed.

(** X15. Every phenotype [predict_missing_phenotypes] returns is a
    phenotype of the module that is neither observed nor excluded and meets
    both thresholds; no phenotype is returned twice; the list is ordered by
    decreasing [prevalence * specificity / 100]; and a non-negative
    [max_predictions] bounds its length. *)
Theorem predict_missing_phenotypes_sound (self : PredictionEngine)
    (module_id : Z) (observed_ids excluded_ids : gset string) :
  let predictions :=
    predict_missing_phenotypes self module_id observed_ids excluded_ids in
  Forall (λ p,
            pr_hpo_id p ∉ observed_ids ∪ excluded_ids ∧
            predicts (phenotypes_of (pe_loader self) module_id) p ∧
            (min_prevalence (pe_config self) <= pr_prevalence p)%Q ∧
            (min_specificity (pe_config self) <= pr_specificity p)%Q)
         predictions ∧
  NoDup (map pr_hpo_id predictions) ∧
  StronglySorted (score_desc prediction_score) predictions ∧
  ((0 ≤ max_predictions (pe_config self))%Z →
   (List.length predictions ≤
    Z.to_nat (max_predictions (pe_config self)))%nat).
Proof.
  simpl. unfold predict_missing_phenotypes, phenotypes_of.
  destruct (get_module_profile (pe_loader self) module_id) as [profile|].
  2: { repeat split; try constructor. simpl. lia. }
  set (cands := omap _ _).
  assert (∀ c, c ∈ cands →
            ∃ h ph, mp_phenotypes profile !! h = Some ph ∧
                    missing_candidate self (observed_ids ∪ excluded_ids)
                                      (h, ph) = Some c) as Hcands.
  { intros c Hc. apply list_elem_of_omap in Hc as ([h ph] & Hin & Hf).
    apply elem_of_map_to_list in Hin. by exists h, ph. }
  split; [|split; [|split]].
  - apply Forall_forall. intros p Hp.
    apply top_candidates_elem_of, list_elem_of_In, in_map_iff in Hp
      as (c & <- & Hc).
    apply list_elem_of_In, Hcands in Hc as (h & ph & Hl & Hf).
    apply missing_candidate_Some in Hf
      as (Hfresh & Hprev & Hspec & _ & Hid & Hname & Hp & Hs).
    rewrite Hid, Hp, Hs. repeat split; try done.
    exists ph. by rewrite Hid.
  - apply top_candidates_NoDup.
    apply omap_candidates_ids; [|apply NoDup_fst_map_to_list].
    intros [h ph] c Hf. by apply missing_candidate_Some in Hf
      as (_ & _ & _ & _ & ? & _).
  - apply top_candidates_sorted, Forall_forall. intros c Hc.
    apply Hcands in Hc as (h & ph & _ & Hf).
    by apply missing_candidate_Some in Hf as (_ & _ & _ & ? & _).
  - intros Hn. rewrite top_candidates_length by done. lia.
Qed.

(** X16. [get_expected_phenotypes] returns phenotypes of the module, none
    twice, ordered by decreasing [prevalence * specificity / 100]; for a
    non-negative [top_n] it returns [top_n] of them, or all when the module
    has fewer. *)
Theorem get_expected_phenotypes_sound (self : PredictionEngine)
    (module_id : Z) (top_n : Z) :
  let expected := get_expected_phenotypes self module_id top_n in
  Forall (predicts (phenotypes_of (pe_loader self) module_id)) expected ∧
  NoDup (map pr_hpo_id expected) ∧
  StronglySorted (score_desc prediction_score) expected ∧
  ((0 ≤ top_n)%Z →
   List.length expected =
   Z.to_nat top_n `min` size (phenotypes_of (pe_loader self) module_id)).
Proof.
  simpl. unfold get_expected_phenotypes, phenotypes_of.
  destruct (get_module_profile (pe_loader self) module_id) as [profile|].
  2: { repeat split; try constructor. intros _. simpl.
       rewrite map_size_empty. lia. }
  split; [|split; [|split]].
  - apply Forall_forall. intros p Hp.
    apply top_candidates_elem_of, list_elem_of_In in Hp.
    rewrite map_map in Hp. apply in_map_iff in Hp as ([h ph] & <- & Hin).
    apply list_elem_of_In, elem_of_map_to_list in Hin. by exists ph.
  - apply top_candidates_NoDup. rewrite !map_map.
    rewrite (map_ext _ fst) by (by intros [h ph]).
    apply NoDup_fst_map_to_list.
  - apply top_candidates_sorted, Forall_map, Forall_forall.
    by intros [h ph] _.
  - intros Hn. rewrite top_candidates_length by done.
    by rewrite length_map, length_map_to_list.
Qed.

(** ** The next question *)
Section suggest_next_question_facts.
Context (second_profile : ModuleProfile) (already_asked : gset string).

Local Abbreviation weight := (weighted_discrimination second_profile).
Local Abbreviation step := (suggest_step second_profile already_asked).

Lemma suggest_step_cases (st : question_state) (h : string)
    (ph : PhenotypeProfile) :
  (askable second_profile already_asked h ph ∧ (st.2 < weight h ph)%Q ∧
   ∃ q, step st (h, ph) = (Some q, weight h ph) ∧
        pr_hpo_id q = h ∧ pr_prevalence q = pp_prevalence ph ∧
        pr_name q = pp_name ph ∧ pr_specificity q = pp_specificity ph) ∨
  (step st (h, ph) = st ∧
   (askable second_profile already_asked h ph → (weight h ph <= st.2)%Q)).
Proof.
  unfold suggest_step, askable, weighted_discrimination.
  destruct (decide (h ∈ already_asked)) as [Hin|Hnin].
  { right. split; [done|]. by intros [? _]. }
  destruct (Qltb _ 10) eqn:Havg.
  { right. split; [done|]. apply Qltb_lt in Havg. intros [_ ?]. lra. }
  apply Qltb_ge in Havg.
  destruct (Qltb st.2 _) eqn:Hbest.
  - left. apply Qltb_lt in Hbest. repeat split; try done.
    eexists. split; [reflexivity|done].
  - right. apply Qltb_ge in Hbest. split; [done|]. by intros _.
Qed.

(** What the loop has found after the entries [l]. *)
Lemma foldl_suggest_step (l : list (string * PhenotypeProfile))
    (st : question_state) :
  (st.2 <= (foldl step st l).2)%Q ∧
  (∀ h ph, (h, ph) ∈ l → askable second_profile already_asked h ph →
           (weight h ph <= (foldl step st l).2)%Q) ∧
  (foldl step st l = st ∨
   ∃ h ph q, (h, ph) ∈ l ∧ askable second_profile already_asked h ph ∧
             foldl step st l = (Some q, weight h ph) ∧
             (st.2 < weight h ph)%Q ∧
             pr_hpo_id q = h ∧ pr_prevalence q = pp_prevalence ph ∧
             pr_name q = pp_name ph ∧ pr_specificity q = pp_specificity ph).
Proof.
  revert st. induction l as [|[h ph] l IH]; intros st; cbn [foldl].
  - split; [lra|]. split; [|by left].
    intros h ph Hin. by apply elem_of_nil in Hin.
  - destruct (IH (step st (h, ph))) as (Hmono & Hmax & Hlast).
    destruct (suggest_step_cases st h ph)
      as [(Hask & Hlt & q & Hstep & Hq)|[Hstep Hle]].
    + rewrite Hstep in Hmono, Hmax, Hlast |- *. cbn [fst snd] in *.
      split; [lra|]. split.
      * intros h' ph' Hin Hask'.
        apply elem_of_cons in Hin as [Heq|Hin]; [|by apply Hmax].
        by simplify_eq.
      * right.
        destruct Hlast as [->|(h' & ph' & q' & Hin & ? & -> & Hlt' & ?)].
        -- exists h, ph, q. split; [left|done].
        -- exists h', ph', q'. split; [by right|].
           cbn [fst snd] in *.
           split; [done|]. split; [done|]. split; [lra|done].
    + rewrite Hstep in Hmono, Hmax, Hlast |- *.
      split; [done|]. split.
      * intros h' ph' Hin Hask'.
        apply elem_of_cons in Hin as [Heq|Hin]; [|by apply Hmax].
        simplify_eq. specialize (Hle Hask'). lra.
      * destruct Hlast as [->|(h' & ph' & q' & Hin & ? & -> & ?)];
          [by left|].
        right. exists h', ph', q'. split; [by right|done].
Qed.
End suggest_next_question_facts.

(** X17. Given two ranked modules with profiles, the phenotype
    [suggest_next_question] returns is a phenotype of the top module that
    was not asked and has a mean prevalence of at least 10; its weighted
    discrimination is positive and no askable phenotype of the top module
    has a greater one.  When it returns nothing, no askable phenotype has a
    positive weighted discrimination. *)
Theorem suggest_next_question_best (self : PredictionEngine)
    (top_module second_module : ModuleMatch) (rest : list ModuleMatch)
    (top_profile second_profile : ModuleProfile)
    (observed_ids excluded_ids : gset string) :
  get_module_profile (pe_loader self) (mm_module_id top_module) =
    Some top_profile →
  get_module_profile (pe_loader self) (mm_module_id second_module) =
    Some second_profile →
  match suggest_next_question self (top_module :: second_module :: rest)
                              observed_ids excluded_ids with
  | Some q =>
      ∃ pheno,
        mp_phenotypes top_profile !! pr_hpo_id q = Some pheno ∧
        pr_prevalence q = pp_prevalence pheno ∧
        askable second_profile (observed_ids ∪ excluded_ids)
                (pr_hpo_id q) pheno ∧
        (0 < weighted_discrimination second_profile (pr_hpo_id q) pheno)%Q ∧
        ∀ h ph,
          mp_phenotypes top_profile !! h = Some ph →
          askable second_profile (observed_ids ∪ excluded_ids) h ph →
          (weighted_discrimination second_profile h ph <=
           weighted_discrimination second_profile (pr_hpo_id q) pheno)%Q
  | None =>
      ∀ h ph,
        mp_phenotypes top_profile !! h = Some ph →
        askable second_profile (observed_ids ∪ excluded_ids) h ph →
        (weighted_discrimination second_profile h ph <= 0)%Q
  end.
Proof.
  intros Htop Hsecond. unfold suggest_next_question.
  rewrite Htop, Hsecond.
  destruct (foldl_suggest_step second_profile (observed_ids ∪ excluded_ids)
              (map_to_list (mp_phenotypes top_profile)) (None, 0%Q))
    as (_ & Hmax & Hlast).
  destruct Hlast
    as [Heq|(h & ph & q & Hin & Hask & Heq & Hpos & Hid & Hp & _)];
    rewrite Heq in Hmax |- *; cbn [fst snd] in *.
  - intros h ph Hl Hask.
    apply (Hmax h ph); [by apply elem_of_map_to_list|done].
  - apply elem_of_map_to_list in Hin.
    exists ph. rewrite Hid.
    split; [done|]. split; [done|]. split; [done|]. split; [done|].
    intros h' ph' Hl' Hask'.
    apply (Hmax h' ph'); [by apply elem_of_map_to_list|done].
Qed.

Lemma suggest_next_question_best_witness :
  match suggest_next_question
          (PredictionEngine_init ex_loader None) ex_ranking
          {["HP:0000510"]} ∅ with
  | Some q =>
      ∃ pheno,
        mp_phenotypes ex_module_7 !! pr_hpo_id q = Some pheno ∧
        pr_prevalence q = pp_prevalence pheno ∧
        askable ex_module_11 ({["HP:0000510"]} ∪ ∅) (pr_hpo_id q) pheno ∧
        (0 < weighted_discrimination ex_module_11 (pr_hpo_id q) pheno)%Q ∧
        ∀ h ph,
          mp_phenotypes ex_module_7 !! h = Some ph →
          askable ex_module_11 ({["HP:0000510"]} ∪ ∅) h ph →
          (weighted_discrimination ex_module_11 h ph <=
           weighted_discrimination ex_module_11 (pr_hpo_id q) pheno)%Q
  | None =>
      ∀ h ph,
        mp_phenotypes ex_module_7 !! h = Some ph →
        askable ex_module_11 ({["HP:0000510"]} ∪ ∅) h ph →
        (weighted_discrimination ex_module_11 h ph <= 0)%Q
  end.
Proof.
  cbv delta [ex_ranking] iota beta.
  lazymatch goal with
  | |- context [suggest_next_question _ (?m0 :: ?m1 :: ?rest) _ _] =>
      apply (suggest_next_question_best
               (PredictionEngine_init ex_loader None) m0 m1 rest
               ex_module_7 ex_module_11)
  end.
  - vm_compute. reflexivity.
  - vm_compute. reflexivity.
Defined.

Example ex_suggest_next_question :
  pr_hpo_id <$>
    suggest_next_question (PredictionEngine_init ex_loader None) ex_ranking
                          {["HP:0000510"]} ∅ = Some "HP:0001513".
Proof. vm_compute. reflexivity. Qed.

(** X18. When at most one module scores above zero, the runner-up of the
    ranking does not compete and [get_discriminative_questions] applied to
    the ranking returns nothing. *)
Theorem no_discriminative_question_without_runner_up (scorer_ : ScoringEngine)
    (predictor_ : PredictionEngine)
    (observed_ids excluded_ids : gset string) (top_n : Z) (k : Z) :
  Forall (λ j, j ≠ k →
               (score_module scorer_ j observed_ids excluded_ids).1 == 0)
         (get_all_module_ids (se_loader scorer_)) →
  get_discriminative_questions predictor_
    (rank_modules scorer_ observed_ids excluded_ids)
    observed_ids excluded_ids top_n = [].
Proof.
  intros Hzero.
  pose proof (rank_modules_sorted scorer_ observed_ids excluded_ids) as Hs.
  pose proof (rank_modules_scores scorer_ observed_ids excluded_ids) as Hsc.
  pose proof (rank_modules_ids scorer_ observed_ids excluded_ids) as Hids.
  assert (NoDup (map mm_module_id
                     (rank_modules scorer_ observed_ids excluded_ids)))
    as Hnodup by (rewrite Hids; apply NoDup_get_all_module_ids).
  assert (∀ m, m ∈ rank_modules scorer_ observed_ids excluded_ids →
               mm_module_id m ≠ k → mm_score m == 0) as Hother.
  { intros m Hm Hne. rewrite Forall_forall in Hsc.
    rewrite Forall_forall in Hzero.
    rewrite (Hsc m Hm). apply Hzero; [|done].
    rewrite <- Hids. apply list_elem_of_In, in_map, list_elem_of_In, Hm. }
  destruct (rank_modules scorer_ observed_ids excluded_ids)
    as [|m0 [|m1 rest]]; [done|done|].
  unfold get_discriminative_questions.
  assert (mm_score m1 <= 0)%Q as Hle.
  { destruct (decide (mm_module_id m1 = k)) as [H1|H1].
    - assert (mm_module_id m0 ≠ k) as H0.
      { intros H0. simpl in Hnodup. apply NoDup_cons in Hnodup as [Hf _].
        apply Hf. rewrite H0, <- H1. left. }
      assert (mm_score m0 == 0) as Hz by (apply Hother; [left|done]).
      apply StronglySorted_inv in Hs as [_ Hall].
      apply Forall_cons in Hall as [Hall _]. unfold score_desc in Hall. lra.
    - assert (mm_score m1 == 0) as Hz
        by (apply Hother; [right; left|done]).
      lra. }
  assert (Qltb 0 (mm_score m1) = false) as -> by (by apply Qltb_ge).
  done.
Qed.

Lemma no_discriminative_question_without_runner_up_witness :
  get_discriminative_questions (PredictionEngine_init ex_loader None)
    (rank_modules ex_scorer {["HP:0001513"]} ∅)
    {["HP:0001513"]} ∅ 5 = [].
Proof.
  apply (no_discriminative_question_without_runner_up ex_scorer _ _ _ _ 7).
  apply (bool_decide_unpack _). vm_compute. reflexivity.
Defined.

(** ** [explain_scoring] against [score_module] *)
Section explain_scoring_ids.
Context (profile : ModuleProfile).

Lemma foldl_explain_observed_ids (l : list string)
    (acc : list ExplainabilityItem) :
  map ei_hpo_id (foldl (explain_observed profile) acc l) =
  map ei_hpo_id acc ++ l.
Proof.
  revert acc. induction l as [|h l IH]; intros acc; cbn [foldl].
  - by rewrite app_nil_r.
  - rewrite IH. unfold explain_observed.
    destruct (mp_phenotypes profile !! h);
      by rewrite map_app, <- app_assoc.
Qed.

Lemma foldl_explain_excluded_ids (l : list string)
    (acc : list ExplainabilityItem) :
  map ei_hpo_id (foldl (explain_excluded profile) acc l) =
  map ei_hpo_id acc ++ List.filter (is_penalised (mp_phenotypes profile)) l.
Proof.
  revert acc. induction l as [|h l IH]; intros acc; cbn [foldl List.filter].
  - by rewrite app_nil_r.
  - rewrite IH. unfold explain_excluded, is_penalised.
    destruct (mp_phenotypes profile !! h) as [ph|]; [|done].
    destruct (Qltb 0 (pp_prevalence ph)); [|done].
    by rewrite map_app, <- app_assoc.
Qed.

End explain_scoring_ids.

Lemma filter_split {A} (p q : A → bool) (l : list A) :
  (∀ x, q x = negb (p x)) → l ≡ₚ List.filter p l ++ List.filter q l.
Proof.
  intros Hq. induction l as [|x l IH]; cbn [List.filter]; [done|].
  rewrite Hq. destruct (p x); cbn [negb app].
  - by constructor.
  - rewrite <- Permutation_middle. by constructor.
Qed.

Section score_module_ids.
Context (self : ScoringEngine) (profile : ModuleProfile).

Lemma observed_entries_ids (l : list string) :
  map ei_hpo_id (l ≫= observed_entries self profile) =
  List.filter (λ h, negb (is_absent (mp_phenotypes profile) h)) l.
Proof.
  induction l as [|h l IH]; [done|].
  rewrite bind_cons, map_app, IH. cbn [List.filter].
  unfold observed_entries, is_absent.
  by destruct (mp_phenotypes profile !! h).
Qed.

Lemma excluded_entries_ids (l : list string) :
  map ei_hpo_id (l ≫= excluded_entries self profile) =
  List.filter (is_penalised (mp_phenotypes profile)) l.
Proof.
  induction l as [|h l IH]; [done|].
  rewrite bind_cons, map_app, IH. cbn [List.filter].
  unfold excluded_entries, is_penalised.
  destruct (mp_phenotypes profile !! h) as [ph|]; [|done].
  by destruct (Qltb 0 (pp_prevalence ph)).
Qed.
End score_module_ids.

(** X19. The two explanations name the same phenotypes.  For a module with
    a profile and whatever the two configurations, the identifiers of the
    entries of [explain_scoring] are those of the entries of [score_module],
    each as often, together with the observed identifiers the module lacks,
    which only [explain_scoring] reports. *)
Theorem explain_scoring_covers_score_module (data : DataLoader)
    (scoring_config : option ScoringConfig)
    (prediction_config : option PredictionConfig) (module_id : Z)
    (profile : ModuleProfile) (observed_ids excluded_ids : gset string) :
  get_module_profile data module_id = Some profile →
  map ei_hpo_id
      (explain_scoring (PredictionEngine_init data prediction_config)
                       module_id observed_ids excluded_ids) ≡ₚ
  map ei_hpo_id
      (score_module (ScoringEngine_init data scoring_config)
                    module_id observed_ids excluded_ids).2 ++
  List.filter (is_absent (mp_phenotypes profile)) (elements observed_ids).
Proof.
  intros Hprofile.
  rewrite (score_module_entries _ module_id profile) by done.
  rewrite map_app, observed_entries_ids, excluded_entries_ids.
  unfold explain_scoring. cbn [pe_loader PredictionEngine_init].
  rewrite Hprofile.
  rewrite (Permutation_map _ (sort_desc_Permutation _ _ _)).
  rewrite foldl_explain_excluded_ids, foldl_explain_observed_ids.
  cbn [map app].
  rewrite (filter_split
             (λ h, negb (is_absent (mp_phenotypes profile) h))
             (is_absent (mp_phenotypes profile)) (elements observed_ids))
    at 1 by (intros x; by rewrite negb_involutive).
  rewrite <- !app_assoc. apply Permutation_app_head, Permutation_app_comm.
Qed.

Lemma explain_scoring_covers_score_module_witness :
  map ei_hpo_id
      (explain_scoring (PredictionEngine_init ex_loader None) 7
         {["HP:0001513"; "HP:7777777"]} {["HP:0000510"; "HP:0000407"]}) ≡ₚ
  map ei_hpo_id
      (score_module (ScoringEngine_init ex_loader None) 7
         {["HP:0001513"; "HP:7777777"]} {["HP:0000510"; "HP:0000407"]}).2 ++
  List.filter (is_absent (mp_phenotypes ex_module_7))
              (elements ({["HP:0001513"; "HP:7777777"]} : gset string)).
Proof.
  apply (explain_scoring_covers_score_module ex_loader None None 7
           ex_module_7).
  vm_compute. reflexivity.
Defined.

(** X20. For a known module, [explain_scoring] writes one entry for every
    observed identifier, whether the module has it or not, and one for every
    excluded identifier the module has with a prevalence above zero; other
    excluded identifiers get none. *)
Theorem explain_scoring_entries (self : PredictionEngine) (module_id : Z)
    (profile : ModuleProfile) (observed_ids excluded_ids : gset string) :
  get_module_profile (pe_loader self) module_id = Some profile →
  map ei_hpo_id
      (explain_scoring self module_id observed_ids excluded_ids) ≡ₚ
  elements observed_ids ++
  List.filter (is_penalised (mp_phenotypes profile)) (elements excluded_ids).
Proof.
  intros Hprofile. unfold explain_scoring. rewrite Hprofile.
  rewrite (Permutation_map _ (sort_desc_Permutation _ _ _)).
  by rewrite foldl_explain_excluded_ids, foldl_explain_observed_ids.
Qed.

Lemma explain_scoring_entries_witness :
  map ei_hpo_id
      (explain_scoring (PredictionEngine_init ex_loader None) 7
         {["HP:0001513"; "HP:7777777"]} {["HP:0000510"; "HP:0000407"]}) ≡ₚ
  elements ({["HP:0001513"; "HP:7777777"]} : gset string) ++
  List.filter (is_penalised (mp_phenotypes ex_module_7))
              (elements ({["HP:0000510"; "HP:0000407"]} : gset string)).
Proof.
  apply (explain_scoring_entries (PredictionEngine_init ex_loader None) 7
           ex_module_7).
  vm_compute. reflexivity.
Defined.

(** ** The session's cache and history *)

Lemma _update_cache_spec (self : InteractiveSession) :
  cache_coherent self →
  _cached_modules (_update_cache self) =
    rank_modules (scorer self) (observed (state self))
                 (excluded (state self)) ∧
  _cache_valid (_update_cache self) = true ∧
  state (_update_cache self) = state self ∧
  scorer (_update_cache self) = scorer self ∧
  predictor (_update_cache self) = predictor self.
Proof.
  intros Hinv. unfold _update_cache.
  destruct (_cache_valid self) eqn:Hvalid; [|done].
  by rewrite Hinv.
Qed.

Lemma step_cache_coherent (self : InteractiveSession) (op : Op) :
  cache_coherent self → cache_coherent (step self op).
Proof.
  intros Hinv. destruct op; unfold step.
  - by unfold cache_coherent, answer.
  - by unfold cache_coherent, reset.
  - unfold get_ranked_modules. cbn [fst]. intros _.
    destruct (_update_cache_spec self Hinv) as (-> & _ & -> & -> & _).
    done.
Qed.

Lemma run_cache_coherent (ops : list Op) (self : InteractiveSession) :
  cache_coherent self → cache_coherent (run ops self).
Proof.
  intros Hinv. unfold run. by apply foldl_preserves; [apply step_cache_coherent|].
Qed.

Lemma init_cache_coherent (data : DataLoader)
    (scoring_config : option ScoringConfig)
    (prediction_config : option PredictionConfig) :
  cache_coherent
    (InteractiveSession_init data scoring_config prediction_config).
Proof. by unfold cache_coherent. Qed.

(** X21. The cache of a session is never stale: after any sequence of
    answers, resets and queries, [get_ranked_modules] returns the ranking of
    the current observed and excluded sets, [get_best_module] its first
    element, and neither changes the recorded answers. *)
Theorem session_cache_never_stale (data : DataLoader)
    (scoring_config : option ScoringConfig)
    (prediction_config : option PredictionConfig) (ops : list Op) :
  let session :=
    run ops (InteractiveSession_init data scoring_config prediction_config) in
  let ranking :=
    rank_modules (scorer session) (observed (state session))
                 (excluded (state session)) in
  (get_ranked_modules session).2 = ranking ∧
  (get_best_module session).2 = head ranking ∧
  state (get_ranked_modules session).1 = state session ∧
  state (get_best_module session).1 = state session.
Proof.
  simpl.
  set (session := run ops _).
  assert (cache_coherent session) as Hinv
    by apply run_cache_coherent, init_cache_coherent.
  destruct (_update_cache_spec session Hinv) as (Hc & _ & Hst & _).
  unfold get_ranked_modules, get_best_module. cbn [fst snd].
  by rewrite Hc, Hst.
Qed.

Lemma last_response_snoc (entries : list (string * string * Response))
    (entry : string * string * Response) (key : string) :
  last_response (entries ++ [entry]) key =
  if decide (entry.1.2 = key) then Some entry.2
  else last_response entries key.
Proof. unfold last_response. by rewrite foldl_app. Qed.

Lemma step_last_response (self : InteractiveSession) (op : Op) :
  (∀ key r, key ∈ response_set (state self) r ↔
            last_response (history (state self)) key = Some r) →
  ∀ key r, key ∈ response_set (state (step self op)) r ↔
           last_response (history (state (step self op))) key = Some r.
Proof.
  intros Hinv key r. destruct op as [identifier response name| |];
    unfold step.
  - rewrite answer_response_set, answer_history, last_response_snoc.
    cbn [fst snd]. case_decide as Hkey.
    + split.
      * intros [[_ ->]|[Hne _]]; [done|]. by subst.
      * intros [= ->]. left. by subst.
    + rewrite <- Hinv. split.
      * intros [[-> _]|[_ ?]]; done.
      * intros ?. right. split; [|done]. by intros ->.
  - unfold reset. simpl. destruct r; simpl; set_solver.
  - unfold get_ranked_modules. cbn [fst].
    rewrite _update_cache_state. apply Hinv.
Qed.

(** X22. The three sets of a session are the latest-answer view of its
    history: after any sequence of answers, resets and queries, a key is in
    the set of a response exactly when the latest history entry filed under
    that key carries that response. *)
Theorem session_sets_follow_history (data : DataLoader)
    (scoring_config : option ScoringConfig)
    (prediction_config : option PredictionConfig) (ops : list Op)
    (key : string) (r : Response) :
  let st :=
    state (run ops (InteractiveSession_init data scoring_config
                                            prediction_config)) in
  key ∈ response_set st r ↔ last_response (history st) key = Some r.
Proof.
  simpl. revert key r. unfold run.
  apply (foldl_preserves
    (λ s, ∀ key r, key ∈ response_set (state s) r ↔
                   last_response (history (state s)) key = Some r)).
  - intros s op. apply step_last_response.
  - intros key r. simpl. destruct r; simpl; set_solver.
Qed.

(** ** A session without signal *)

Lemma head_rank_modules_empty (self : ScoringEngine) :
  match head (rank_modules self ∅ ∅) with
  | Some best => mm_score best = 0%Q
  | None => True
  end.
Proof.
  assert (rank_modules self ∅ ∅ =
          map (module_match self ∅ ∅) (get_all_module_ids (se_loader self)))
    as ->.
  { apply rank_modules_no_signal_general, Forall_forall. intros i _.
    rewrite <- module_match_score.
    by rewrite (proj1 (module_match_empty self i)). }
  destruct (get_all_module_ids (se_loader self)) as [|i ids]; [done|].
  cbn [map head]. apply module_match_empty.
Qed.

Lemma _update_cache_coherent (self : InteractiveSession) :
  cache_coherent self → cache_coherent (_update_cache self).
Proof.
  intros Hinv _.
  destruct (_update_cache_spec self Hinv) as (-> & _ & -> & -> & _). done.
Qed.

Section silent_session.
Context (self : InteractiveSession).
Hypothesis Hcoherent : cache_coherent self.
Hypothesis Hobserved : observed (state self) = ∅.
Hypothesis Hexcluded : excluded (state self) = ∅.

Lemma silent_best_module :
  match (get_best_module self).2 with
  | Some best => mm_score best = 0%Q
  | None => True
  end.
Proof.
  unfold get_best_module. cbn [snd].
  destruct (_update_cache_spec self Hcoherent) as (-> & _).
  rewrite Hobserved, Hexcluded. apply head_rank_modules_empty.
Qed.

Lemma silent_candidate_genes (top_n : Z) :
  (get_candidate_genes self top_n).2 = [].
Proof.
  unfold get_candidate_genes. pose proof silent_best_module as Hbest.
  destruct (get_best_module self) as [self' [best|]]; [|done].
  simpl in Hbest. by rewrite Hbest.
Qed.

Lemma silent_predicted_phenotypes (top_n : Z) :
  (get_predicted_phenotypes self top_n).2 = [].
Proof.
  unfold get_predicted_phenotypes. pose proof silent_best_module as Hbest.
  destruct (get_best_module self) as [self' [best|]]; [|done].
  simpl in Hbest. by rewrite Hbest.
Qed.
End silent_session.

(** X23. A session in which nothing is observed and nothing excluded (a
    fresh one, one just reset, or one with only unknown answers) proposes
    nothing: its best module, if any, has score 0, and it returns no
    candidate gene and no predicted phenotype. *)
Theorem session_without_signal (data : DataLoader)
    (scoring_config : option ScoringConfig)
    (prediction_config : option PredictionConfig) (ops : list Op)
    (top_n : Z) :
  let session :=
    run ops (InteractiveSession_init data scoring_config prediction_config) in
  observed (state session) = ∅ →
  excluded (state session) = ∅ →
  match (get_best_module session).2 with
  | Some best => mm_score best = 0%Q
  | None => True
  end ∧
  (get_candidate_genes session top_n).2 = [] ∧
  (get_predicted_phenotypes session top_n).2 = [].
Proof.
  intros session Hobs Hexc.
  assert (cache_coherent session) as Hinv
    by apply run_cache_coherent, init_cache_coherent.
  split; [|split].
  - by apply silent_best_module.
  - by apply silent_candidate_genes.
  - by apply silent_predicted_phenotypes.
Qed.

Lemma session_without_signal_witness :
  let session :=
    run [OpAnswer "HP:0001513" YES None; OpReset;
         OpAnswer "HP:0000510" UNKNOWN None]
        (InteractiveSession_init ex_loader None None) in
  match (get_best_module session).2 with
  | Some best => mm_score best = 0%Q
  | None => True
  end ∧
  (get_candidate_genes session 20).2 = [] ∧
  (get_predicted_phenotypes session 20).2 = [].
Proof.
  apply (session_without_signal ex_loader None None
           [OpAnswer "HP:0001513" YES None; OpReset;
            OpAnswer "HP:0000510" UNKNOWN None] 20).
  - vm_compute. reflexivity.
  - vm_compute. reflexivity.
Defined.

(** ** The query interface *)
Section resolve_phenotypes_facts.
Context (self : ClinicalSupportEngine).

Lemma _resolve_phenotypes_step_cases (st : gset string * list string)
    (x : string) :
  _resolve_phenotypes_step self st x =
  match resolves_to (cs_loader self) x with
  | Some h => ({[h]} ∪ st.1, st.2)
  | None => (st.1, st.2 ++ [x])
  end.
Proof.
  unfold _resolve_phenotypes_step, resolves_to.
  destruct (resolve_phenotype (cs_loader self) x) as [h|]; [|done].
  by destruct (decide (h = "")).
Qed.

Lemma foldl_resolve_phenotypes (l : list string)
    (st : gset string * list string) :
  (foldl (_resolve_phenotypes_step self) st l).2 =
    st.2 ++ List.filter (is_unmatched (cs_loader self)) l ∧
  ∀ h, h ∈ (foldl (_resolve_phenotypes_step self) st l).1 ↔
       h ∈ st.1 ∨ ∃ x, x ∈ l ∧ resolves_to (cs_loader self) x = Some h.
Proof.
  revert st. induction l as [|x l IH]; intros st; cbn [foldl List.filter].
  - split; [by rewrite app_nil_r|]. intros h. split; [by left|].
    intros [?|(x & Hin & _)]; [done|]. by apply elem_of_nil in Hin.
  - destruct (IH (_resolve_phenotypes_step self st x)) as [IH2 IH1].
    rewrite IH2. rewrite _resolve_phenotypes_step_cases in IH1 |- *.
    unfold is_unmatched at 2.
    destruct (resolves_to (cs_loader self) x) as [h'|] eqn:Hres.
    + rewrite bool_decide_eq_false_2 by done. split; [done|].
      intros h. rewrite IH1. cbn [fst]. rewrite elem_of_union,
        elem_of_singleton. split.
      * intros [[-> |?]|(y & Hin & ?)].
        -- right. exists x. split; [left|done].
        -- by left.
        -- right. exists y. split; [by right|done].
      * intros [?|(y & Hin & Hy)]; [by left; right|].
        apply elem_of_cons in Hin as [-> |Hin].
        -- left; left. congruence.
        -- right. by exists y.
    + rewrite bool_decide_eq_true_2 by done. cbn [snd].
      split; [by rewrite <- app_assoc|].
      intros h. rewrite IH1. cbn [fst]. split.
      * intros [?|(y & Hin & ?)]; [by left|].
        right. exists y. split; [by right|done].
      * intros [?|(y & Hin & Hy)]; [by left|].
        apply elem_of_cons in Hin as [-> |Hin]; [congruence|].
        right. by exists y.
Qed.

Lemma foldl_resolve_unmatched (junk : list string)
    (st : gset string * list string) :
  Forall (λ x, resolves_to (cs_loader self) x = None) junk →
  foldl (_resolve_phenotypes_step self) st junk = (st.1, st.2 ++ junk).
Proof.
  revert st. induction junk as [|x junk IH]; intros st Hjunk.
  - destruct st. cbn [foldl fst snd]. by rewrite app_nil_r.
  - apply Forall_cons in Hjunk as [Hx Hjunk]. cbn [foldl].
    rewrite IH by done.
    rewrite _resolve_phenotypes_step_cases, Hx. cbn [fst snd].
    by rewrite <- app_assoc.
Qed.

Lemma _resolve_phenotypes_app_unmatched (l junk : list string) :
  Forall (λ x, resolves_to (cs_loader self) x = None) junk →
  _resolve_phenotypes self (l ++ junk) =
  ((_resolve_phenotypes self l).1, (_resolve_phenotypes self l).2 ++ junk).
Proof.
  intros Hjunk. unfold _resolve_phenotypes. rewrite foldl_app.
  by apply foldl_resolve_unmatched.
Qed.
End resolve_phenotypes_facts.

(** X24. [_resolve_phenotypes] splits its inputs: the unmatched list is the
    inputs, in order and with repetitions, that do not resolve (or resolve
    to an empty identifier), and the resolved set holds exactly the
    resolutions of the others. *)
Theorem resolve_phenotypes_partition (self : ClinicalSupportEngine)
    (phenotypes : list string) :
  (_resolve_phenotypes self phenotypes).2 =
    List.filter (is_unmatched (cs_loader self)) phenotypes ∧
  ∀ hpo_id,
    hpo_id ∈ (_resolve_phenotypes self phenotypes).1 ↔
    ∃ identifier, identifier ∈ phenotypes ∧
                  resolves_to (cs_loader self) identifier = Some hpo_id.
Proof.
  unfold _resolve_phenotypes.
  destruct (foldl_resolve_phenotypes self phenotypes (∅, [])) as [H2 H1].
  split; [exact H2|]. intros h. rewrite H1. cbn [fst]. set_solver.
Qed.

(** X25. Inputs that do not resolve have no effect on a query beyond being
    reported: adding them to the observed list changes nothing in the
    result except the list of unmatched inputs, which gains them. *)
Theorem query_ignores_unmatched (self : ClinicalSupportEngine)
    (observed_list excluded_list junk : list string)
    (top_genes top_predictions : Z) :
  Forall (λ x, resolves_to (cs_loader self) x = None) junk →
  forget_unmatched
    (query self (observed_list ++ junk) excluded_list
           top_genes top_predictions) =
  forget_unmatched
    (query self observed_list excluded_list top_genes top_predictions) ∧
  qr_unmatched_inputs
    (query self (observed_list ++ junk) excluded_list
           top_genes top_predictions) =
  (_resolve_phenotypes self observed_list).2 ++ junk ++
  (_resolve_phenotypes self excluded_list).2.
Proof.
  intros Hjunk. unfold query.
  rewrite (_resolve_phenotypes_app_unmatched self observed_list junk Hjunk).
  destruct (_resolve_phenotypes self observed_list) as [obs unmatched_obs].
  destruct (_resolve_phenotypes self excluded_list) as [exc unmatched_exc].
  cbn [fst snd]. split; [reflexivity|].
  cbn [qr_unmatched_inputs]. by rewrite <- app_assoc.
Qed.

Lemma query_ignores_unmatched_witness :
  let self := ClinicalSupportEngine_init ex_rows ex_profiles None None in
  forget_unmatched
    (query self (["Obesity"] ++ ["NotARealPhenotype"]) [] 20 10) =
  forget_unmatched (query self ["Obesity"] [] 20 10) ∧
  qr_unmatched_inputs
    (query self (["Obesity"] ++ ["NotARealPhenotype"]) [] 20 10) =
  (_resolve_phenotypes self ["Obesity"]).2 ++ ["NotARealPhenotype"] ++
  (_resolve_phenotypes self []).2.
Proof.
  apply (query_ignores_unmatched
           (ClinicalSupportEngine_init ex_rows ex_profiles None None)
           ["Obesity"] [] ["NotARealPhenotype"] 20 10).
  apply (bool_decide_unpack _). vm_compute. reflexivity.
Defined.

Example ex_query_unmatched :
  let q := query (ClinicalSupportEngine_init ex_rows ex_profiles None None)
                 ["Rod-cone dystrophy"; "NotARealPhenotype"] [] 20 10 in
  qr_unmatched_inputs q = ["NotARealPhenotype"] ∧
  qr_observed_phenotypes q = ["HP:0000510"] ∧
  mm_module_id <$> qr_best_module q = Some 7%Z.
Proof. vm_compute. repeat split. Qed.

Lemma foldl_alternatives_step_silent (self : ClinicalSupportEngine)
    (observed_ids : gset string) (modules : list ModuleMatch)
    (acc : list GeneCandidate) :
  Forall (λ m, mm_score m = 0%Q) modules →
  foldl (alternatives_step self observed_ids) acc modules = acc.
Proof.
  induction 1 as [|m modules Hm _ IH]; [done|].
  cbn [foldl]. unfold alternatives_step at 2. by rewrite Hm.
Qed.

(** X26. A query with no input finds nothing: every module is listed, in
    ascending identifier order, with score 0 and confidence 0; the best
    module is the first of them; and the result has no candidate gene, no
    alternative gene, no prediction, no discriminative question, no
    explanation and no unmatched input. *)
Theorem query_without_input (self : ClinicalSupportEngine)
    (top_genes top_predictions : Z) :
  let q := query self [] [] top_genes top_predictions in
  map mm_module_id (qr_matched_modules q) =
    get_all_module_ids (se_loader (cs_scorer self)) ∧
  Forall (λ m, mm_score m = 0%Q ∧ mm_confidence m = 0%Q)
         (qr_matched_modules q) ∧
  qr_best_module q = head (qr_matched_modules q) ∧
  qr_candidate_genes q = [] ∧
  qr_alternative_genes q = [] ∧
  qr_predicted_phenotypes q = [] ∧
  qr_discriminative_questions q = [] ∧
  qr_explanation q = [] ∧
  qr_observed_phenotypes q = [] ∧
  qr_excluded_phenotypes q = [] ∧
  qr_unmatched_inputs q = [].
Proof.
  simpl. unfold query, _resolve_phenotypes. cbn [foldl].
  set (scorer_ := cs_scorer self).
  assert (rank_modules scorer_ ∅ ∅ =
          map (module_match scorer_ ∅ ∅)
              (get_all_module_ids (se_loader scorer_))) as Hrank.
  { apply rank_modules_no_signal_general, Forall_forall. intros i _.
    rewrite <- module_match_score.
    by rewrite (proj1 (module_match_empty scorer_ i)). }
  assert (Forall (λ m, mm_score m = 0%Q ∧ mm_confidence m = 0%Q)
                 (rank_modules scorer_ ∅ ∅)) as Hzero.
  { rewrite Hrank. apply Forall_map, Forall_forall. intros i _.
    destruct (module_match_empty scorer_ i) as (? & ? & _). by split. }
  clear Hrank.
  pose proof (rank_modules_empty_ids scorer_) as Hids.
  destruct (rank_modules scorer_ ∅ ∅) as [|m0 ranked] eqn:Hr.
  { cbn. rewrite elements_empty. by repeat split. }
  apply Forall_cons in Hzero as [[Hs0 Hc0] Hrest].
  cbn [head qr_matched_modules qr_best_module qr_candidate_genes
       qr_alternative_genes qr_predicted_phenotypes
       qr_discriminative_questions qr_explanation qr_observed_phenotypes
       qr_excluded_phenotypes qr_unmatched_inputs].
  rewrite Hs0. cbn [Qltb Qcompare].
  assert (Qltb 0 0 = false) as -> by done.
  rewrite elements_empty.
  split; [exact Hids|]. split; [by constructor|].
  split; [done|]. split; [done|]. split.
  { case_decide; [|done]. cbn [drop].
    rewrite foldl_alternatives_step_silent; [done|].
    apply Forall_take. eapply Forall_impl; [exact Hrest|]. by intros m [? _]. }
  split; [done|]. split; [|done].
  unfold get_discriminative_questions.
  destruct ranked as [|m1 ranked]; [done|].
  apply Forall_cons in Hrest as [[Hs1 _] _]. by rewrite Hs1.
Qed.

(** ** [query_gene] *)

Lemma module_gene_entry_cases (self : ClinicalSupportEngine)
    (gene : string) (module_id : Z) (g : string) :
  match module_gene_entry self gene module_id g with
  | Some c =>
      g ≠ gene ∧ gc_gene c = g ∧ gc_module_id c = module_id ∧
      gc_support_score c = 0%Q ∧ gc_supporting_phenotypes c = [] ∧
      ∃ info, get_gene_info (cs_loader self) g = Some info ∧
              gc_classification c = gi_classification info ∧
              gc_stability_score c = gi_stability_score info
  | None => ¬ (g ≠ gene ∧ is_Some (get_gene_info (cs_loader self) g))
  end.
Proof.
  unfold module_gene_entry.
  destruct (get_gene_info (cs_loader self) g) as [info|].
  - destruct (decide (g = gene)) as [Heq|Hne]; [by intros [? _]|].
    simpl. repeat split; try done. by exists info.
  - by intros [_ [? ?]].
Qed.

Lemma omap_module_gene_entry_genes (self : ClinicalSupportEngine)
    (gene : string) (module_id : Z) (l : list string) :
  map gc_gene (omap (module_gene_entry self gene module_id) l) =
  filter (λ g, g ≠ gene ∧ is_Some (get_gene_info (cs_loader self) g)) l.
Proof.
  induction l as [|g l IH]; [done|].
  cbn [omap list_omap]. rewrite filter_cons.
  pose proof (module_gene_entry_cases self gene module_id g) as Hg.
  destruct (module_gene_entry self gene module_id g) as [c|].
  - destruct Hg as (Hne & Hc & _ & _ & _ & info & Hinfo & _).
    destruct (decide (g ≠ gene ∧
                      is_Some (get_gene_info (cs_loader self) g)))
      as [_|Hn].
    + cbn [map]. by rewrite Hc, IH.
    + exfalso. apply Hn. split; [done|by eexists].
  - destruct (decide (g ≠ gene ∧
                      is_Some (get_gene_info (cs_loader self) g)))
      as [Hy|_]; [done|exact IH].
Qed.

Lemma omap_module_gene_entry_all (self : ClinicalSupportEngine)
    (gene : string) (module_id : Z) (l : list string) :
  Forall (λ c, gc_support_score c = 0%Q ∧ gc_supporting_phenotypes c = [] ∧
               gc_module_id c = module_id)
         (omap (module_gene_entry self gene module_id) l).
Proof.
  induction l as [|g l IH]; [constructor|].
  cbn [omap list_omap].
  pose proof (module_gene_entry_cases self gene module_id g) as Hg.
  destruct (module_gene_entry self gene module_id g) as [c|]; [|exact IH].
  destruct Hg as (_ & _ & ? & ? & ? & _). by constructor.
Qed.

(** X27. [query_gene] answers exactly for the genes that have a [GeneInfo].
    Its result reports that gene's module, stability and classification;
    the other genes it lists are the classified genes of that module's gene
    set, the queried gene left out, none twice, each with support 0, ordered
    by decreasing stability score. *)
Theorem query_gene_result (self : ClinicalSupportEngine) (gene : string)
    (top_phenotypes : Z) :
  match query_gene self gene top_phenotypes with
  | None => get_gene_info (cs_loader self) gene = None
  | Some r =>
      gq_gene r = gene ∧
      (∃ info, get_gene_info (cs_loader self) gene = Some info ∧
               gq_module_id r = gi_module_id info ∧
               gq_stability_score r = gi_stability_score info ∧
               gq_classification r = gi_classification info) ∧
      NoDup (map gc_gene (gq_module_genes r)) ∧
      (∀ g, g ∈ map gc_gene (gq_module_genes r) ↔
            g ≠ gene ∧
            g ∈ get_module_genes (cs_loader self) (gq_module_id r) ∧
            is_Some (get_gene_info (cs_loader self) g)) ∧
      Forall (λ c, gc_support_score c = 0%Q ∧
                   gc_supporting_phenotypes c = [] ∧
                   gc_module_id c = gq_module_id r)
             (gq_module_genes r) ∧
      StronglySorted (score_desc gc_stability_score) (gq_module_genes r)
  end.
Proof.
  unfold query_gene.
  destruct (get_gene_info (cs_loader self) gene) as [info|] eqn:Hinfo;
    [|done].
  cbn [gq_gene gq_module_id gq_stability_score gq_classification
       gq_module_genes].
  split; [done|]. split; [by exists info|]. split; [|split; [|split]].
  - rewrite (Permutation_map _ (sort_desc_Permutation _ _ _)).
    rewrite omap_module_gene_entry_genes.
    apply NoDup_filter, NoDup_elements.
  - intros g.
    rewrite (Permutation_map _ (sort_desc_Permutation _ _ _)).
    rewrite omap_module_gene_entry_genes.
    rewrite list_elem_of_filter, elem_of_elements. tauto.
  - apply Forall_forall. intros c Hc. apply elem_of_sort_desc in Hc.
    pose proof (omap_module_gene_entry_all self gene (gi_module_id info)
      (elements (get_module_genes (cs_loader self) (gi_module_id info))))
      as Hall.
    rewrite Forall_forall in Hall. by apply Hall.
  - apply sort_desc_sorted.
Qed.

Example ex_query_gene :
  let engine := ClinicalSupportEngine_init ex_rows ex_profiles None None in
  (map gc_gene <$> (gq_module_genes <$> query_gene engine "BBS1" 20)) =
    Some ["BBS2"; "ARL6"] ∧
  query_gene engine "NOTAREALGENE" 20 = None.
Proof. vm_compute. by split. Qed.

(** ** Discriminative questions *)

Lemma discriminative_candidate_Some (top_module second_module : ModuleMatch)
    (second_profile : ModuleProfile) (already_asked : gset string)
    (h : string) (ph : PhenotypeProfile) (c : Q * PhenotypePrediction) :
  discriminative_candidate top_module second_module second_profile
                           already_asked (h, ph) = Some c →
  askable second_profile already_asked h ph ∧
  c.1 = question_weight second_profile c.2 ∧
  pr_hpo_id c.2 = h ∧ pr_name c.2 = pp_name ph ∧
  pr_prevalence c.2 = pp_prevalence ph ∧
  pr_specificity c.2 = pp_specificity ph.
Proof.
  unfold discriminative_candidate, askable.
  destruct (decide (h ∈ already_asked)); [done|].
  destruct (Qltb _ 10) eqn:Havg; [done|].
  intros [= <-]. apply Qltb_ge in Havg. by repeat split.
Qed.

(** X28. Given two ranked modules with profiles and a runner-up that scores
    above zero, every question [get_discriminative_questions] returns is a
    phenotype of the top module that was not asked and has a mean prevalence
    of at least 10; no phenotype is returned twice, the list is ordered by
    decreasing weighted discrimination, and a non-negative [top_n] bounds
    its length. *)
Theorem get_discriminative_questions_sound (self : PredictionEngine)
    (top_module second_module : ModuleMatch) (rest : list ModuleMatch)
    (top_profile second_profile : ModuleProfile)
    (observed_ids excluded_ids : gset string) (top_n : Z) :
  get_module_profile (pe_loader self) (mm_module_id top_module) =
    Some top_profile →
  get_module_profile (pe_loader self) (mm_module_id second_module) =
    Some second_profile →
  let questions :=
    get_discriminative_questions self (top_module :: second_module :: rest)
                                 observed_ids excluded_ids top_n in
  Forall (λ q, ∃ pheno,
            mp_phenotypes top_profile !! pr_hpo_id q = Some pheno ∧
            pr_prevalence q = pp_prevalence pheno ∧
            askable second_profile (observed_ids ∪ excluded_ids)
                    (pr_hpo_id q) pheno) questions ∧
  NoDup (map pr_hpo_id questions) ∧
  StronglySorted (score_desc (question_weight second_profile)) questions ∧
  ((0 ≤ top_n)%Z → (List.length questions ≤ Z.to_nat top_n)%nat).
Proof.
  intros Htop Hsecond. simpl. unfold get_discriminative_questions.
  destruct (negb (Qltb 0 (mm_score second_module))).
  { repeat split; try constructor. simpl. lia. }
  rewrite Htop, Hsecond.
  set (cands := omap _ _).
  assert (∀ c, c ∈ cands →
            ∃ h ph, mp_phenotypes top_profile !! h = Some ph ∧
                    discriminative_candidate top_module second_module
                      second_profile (observed_ids ∪ excluded_ids) (h, ph) =
                    Some c) as Hcands.
  { intros c Hc. apply list_elem_of_omap in Hc as ([h ph] & Hin & Hf).
    apply elem_of_map_to_list in Hin. by exists h, ph. }
  split; [|split; [|split]].
  - apply Forall_forall. intros q Hq.
    apply top_candidates_elem_of, list_elem_of_In, in_map_iff in Hq
      as (c & <- & Hc).
    apply list_elem_of_In, Hcands in Hc as (h & ph & Hl & Hf).
    apply discriminative_candidate_Some in Hf
      as (Hask & _ & Hid & _ & Hp & _).
    exists ph. by rewrite Hid.
  - apply top_candidates_NoDup.
    apply omap_candidates_ids; [|apply NoDup_fst_map_to_list].
    intros [h ph] c Hf.
    by apply discriminative_candidate_Some in Hf as (_ & _ & ? & _).
  - apply top_candidates_sorted, Forall_forall. intros c Hc.
    apply Hcands in Hc as (h & ph & _ & Hf).
    by apply discriminative_candidate_Some in Hf as (_ & ? & _).
  - intros Hn. rewrite top_candidates_length by done. lia.
Qed.

Lemma get_discriminative_questions_sound_witness :
  match ex_ranking with
  | top_module :: second_module :: rest =>
      let questions :=
        get_discriminative_questions (PredictionEngine_init ex_loader None)
          (top_module :: second_module :: rest) {["HP:0000510"]} ∅ 5 in
      Forall (λ q, ∃ pheno,
                mp_phenotypes ex_module_7 !! pr_hpo_id q = Some pheno ∧
                pr_prevalence q = pp_prevalence pheno ∧
                askable ex_module_11 ({["HP:0000510"]} ∪ ∅)
                        (pr_hpo_id q) pheno) questions ∧
      NoDup (map pr_hpo_id questions) ∧
      StronglySorted (score_desc (question_weight ex_module_11)) questions ∧
      ((0 ≤ 5)%Z → (List.length questions ≤ Z.to_nat 5)%nat)
  | _ => True
  end.
Proof.
  cbv delta [ex_ranking] iota beta.
  lazymatch goal with
  | |- context [get_discriminative_questions _ (?m0 :: ?m1 :: ?rest) _ _ _] =>
      apply (get_discriminative_questions_sound
               (PredictionEngine_init ex_loader None) m0 m1 rest
               ex_module_7 ex_module_11)
  end.
  - vm_compute. reflexivity.
  - vm_compute. reflexivity.
Defined.

(** The question suggested is never one already asked. *)
Lemma suggest_next_question_fresh (self : PredictionEngine)
    (ranked_modules : list ModuleMatch)
    (observed_ids excluded_ids : gset string) :
  match suggest_next_question self ranked_modules observed_ids excluded_ids
  with
  | Some q => pr_hpo_id q ∉ observed_ids ∪ excluded_ids
  | None => True
  end.
Proof.
  unfold suggest_next_question.
  destruct ranked_modules as [|top_module [|second_module rest]];
    [done|done|].
  destruct (get_module_profile _ (mm_module_id top_module))
    as [top_profile|]; [|done].
  destruct (get_module_profile _ (mm_module_id second_module))
    as [second_profile|]; [|done].
  destruct (foldl_suggest_step second_profile (observed_ids ∪ excluded_ids)
              (map_to_list (mp_phenotypes top_profile)) (None, 0%Q))
    as (_ & _ & Hlast).
  destruct Hlast as [Heq|(h & ph & q & _ & Hask & Heq & _ & Hid & _)];
    rewrite Heq; cbn [fst]; [done|].
  rewrite Hid. apply Hask.
Qed.

(** X29. A session never asks again: after any sequence of answers, resets
    and queries, the phenotype [get_next_question] returns, if any, is in
    none of the observed, excluded and unknown sets. *)
Theorem session_next_question_not_asked (data : DataLoader)
    (scoring_config : option ScoringConfig)
    (prediction_config : option PredictionConfig) (ops : list Op) :
  let session :=
    run ops (InteractiveSession_init data scoring_config prediction_config) in
  match (get_next_question session).2 with
  | Some q => pr_hpo_id q ∉ asked (state session)
  | None => True
  end.
Proof.
  simpl. set (session := run ops _).
  unfold get_next_question.
  pose proof (_update_cache_state session) as Hst.
  destruct (_cached_modules (_update_cache session)) as [|m cached] eqn:Hc;
    [done|].
  cbn [snd]. rewrite Hst.
  pose proof (suggest_next_question_fresh
                (predictor (_update_cache session)) (m :: cached)
                (observed (state session))
                (excluded (state session) ∪ unknown (state session))) as Hq.
  destruct (suggest_next_question _ _ _ _) as [q|]; [|done].
  unfold asked. set_solver.
Qed.

(** ** The support score of a gene *)

Lemma alist_get_set {V} (g k : string) (v : V) (d : list (string * V)) :
  alist_get g (alist_set k v d) =
  if decide (g = k) then Some v else alist_get g d.
Proof.
  induction d as [|[k' v'] d IH]; cbn [alist_set alist_get].
  - destruct (decide (g = k)); [done|]. done.
  - destruct (decide (k = k')) as [<-|Hk]; cbn [alist_get].
    + destruct (decide (g = k)); done.
    + rewrite IH. destruct (decide (g = k')) as [->|]; [|done].
      by rewrite decide_False.
Qed.

Lemma alist_get_elem_of {V} (g : string) (v : V) (d : list (string * V)) :
  NoDup (map fst d) → (g, v) ∈ d → alist_get g d = Some v.
Proof.
  induction d as [|[k' v'] d IH]; cbn [map alist_get fst].
  - intros _ Hin. by apply elem_of_nil in Hin.
  - intros Hn Hin. apply NoDup_cons in Hn as [Hfresh Hn].
    apply elem_of_cons in Hin as [Heq|Hin].
    + simplify_eq. by rewrite decide_True.
    + rewrite decide_False; [by apply IH|].
      intros ->. apply Hfresh.
      apply list_elem_of_In, (in_map fst _ (k', v)), list_elem_of_In, Hin.
Qed.

Lemma support_gene_score (contribution : Q) (pheno_name : string)
    (d : gene_scores_t) (x g : string) :
  score_in (support_gene contribution pheno_name d x) g ==
  (score_in d g + (if decide (x = g) then contribution else 0))%Q.
Proof.
  unfold support_gene, score_in.
  destruct (alist_get x d) as [[c l]|] eqn:Hget.
  - rewrite Hget, alist_get_set.
    destruct (decide (g = x)) as [->|Hne].
    + rewrite Hget, decide_True by done. reflexivity.
    + rewrite decide_False by done. destruct (alist_get g d) as [[? ?]|]; lra.
  - rewrite alist_get_set_eq, !alist_get_set.
    destruct (decide (g = x)) as [->|Hne].
    + rewrite Hget, decide_True by done. lra.
    + rewrite decide_False by done. destruct (alist_get g d) as [[? ?]|]; lra.
Qed.

Lemma foldl_support_gene_score (contribution : Q) (pheno_name : string)
    (genes : list string) (d : gene_scores_t) (g : string) :
  score_in (foldl (support_gene contribution pheno_name) d genes) g ==
  (score_in d g +
   Qsum (map (λ x, if decide (x = g) then contribution else 0%Q) genes))%Q.
Proof.
  revert d. induction genes as [|x genes IH]; intros d.
  - simpl. lra.
  - cbn [foldl]. rewrite IH, support_gene_score. simpl. lra.
Qed.

Lemma foldl_support_phenotype_score (self : ScoringEngine)
    (profile : ModuleProfile) (l : list string) (d : gene_scores_t)
    (g : string) :
  score_in (foldl (support_phenotype self profile) d l) g ==
  (score_in d g + Qsum (map (phenotype_support self profile g) l))%Q.
Proof.
  revert d. induction l as [|h l IH]; intros d.
  - simpl. lra.
  - cbn [foldl]. rewrite IH.
    change (Qsum (map ?f (h :: l))) with (f h + Qsum (map f l))%Q.
    set (rest := Qsum (map (phenotype_support self profile g) l)).
    unfold support_phenotype, phenotype_support.
    destruct (mp_phenotypes profile !! h) as [ph|]; [|lra].
    cbv zeta. rewrite foldl_support_gene_score. lra.
Qed.

Lemma foldl_add_module_gene_score (l : list string) (d : gene_scores_t)
    (g : string) :
  score_in (foldl add_module_gene d l) g = score_in d g.
Proof.
  revert d. induction l as [|x l IH]; intros d; [done|].
  cbn [foldl]. rewrite IH. unfold add_module_gene, score_in.
  destruct (alist_get x d) eqn:Hx; [done|].
  rewrite alist_get_set. destruct (decide (g = x)) as [->|]; [|done].
  by rewrite Hx.
Qed.

Lemma gene_candidate_score (self : ScoringEngine) (module_id : Z)
    (g : string) (sc : Q) (phs : list string) (c : GeneCandidate) :
  gene_candidate self module_id (g, (sc, phs)) = Some c →
  gc_gene c = g ∧
  ∃ info, get_gene_info (se_loader self) g = Some info ∧
          gc_support_score c ==
          sc + stability_adjustment (se_config self)
                                    (gi_classification info).
Proof.
  unfold gene_candidate.
  destruct (get_gene_info (se_loader self) g) as [info|]; [|done].
  intros [= <-]. split; [done|]. exists info. split; [done|].
  unfold stability_adjustment. simpl. repeat case_decide; lra.
Qed.

(** X30. For a known module, the support score of every candidate
    [rank_genes] returns is the sum, over the observed identifiers the
    module has, of the phenotype score counted once per occurrence of the
    gene in the phenotype's [genes_with], plus the stability adjustment of
    the gene's classification. *)
Theorem rank_genes_support_score (self : ScoringEngine) (module_id : Z)
    (profile : ModuleProfile) (observed_ids : gset string) :
  get_module_profile (se_loader self) module_id = Some profile →
  Forall (λ c,
            ∃ info,
              get_gene_info (se_loader self) (gc_gene c) = Some info ∧
              gc_support_score c ==
              set_sum (phenotype_support self profile (gc_gene c))
                      observed_ids +
              stability_adjustment (se_config self)
                                   (gi_classification info))
         (rank_genes self module_id observed_ids).
Proof.
  intros Hprofile. unfold rank_genes. rewrite Hprofile.
  set (d1 := foldl (support_phenotype self profile) []
                   (elements observed_ids)).
  set (d2 := foldl add_module_gene d1
                   (elements (get_module_genes (se_loader self) module_id))).
  destruct (foldl_support_phenotype_keys self profile
              (elements observed_ids) []) as [N1 _]. fold d1 in N1.
  destruct (foldl_add_keys add_module_gene
              (elements (get_module_genes (se_loader self) module_id)) d1
              add_module_gene_keys) as [N2 _]. fold d2 in N2.
  assert (NoDup (map fst d2)) as Hnodup.
  { apply N2, N1. constructor. }
  apply Forall_forall. intros c Hc.
  apply elem_of_sort_desc, list_elem_of_omap in Hc
    as ([g [sc phs]] & Hin & Hcand).
  apply gene_candidate_score in Hcand as (-> & info & Hinfo & Hscore).
  exists info. split; [done|]. rewrite Hscore.
  assert (sc = score_in d2 g) as ->.
  { unfold score_in. by rewrite (alist_get_elem_of g (sc, phs) d2). }
  unfold d2. rewrite foldl_add_module_gene_score.
  unfold d1. rewrite foldl_support_phenotype_score.
  unfold set_sum, score_in. simpl. lra.
Qed.

Lemma rank_genes_support_score_witness :
  Forall (λ c,
            ∃ info,
              get_gene_info (se_loader ex_scorer) (gc_gene c) = Some info ∧
              gc_support_score c ==
              set_sum (phenotype_support ex_scorer ex_module_7 (gc_gene c))
                      {["HP:0001513"; "HP:0000510"]} +
              stability_adjustment (se_config ex_scorer)
                                   (gi_classification info))
         (rank_genes ex_scorer 7 {["HP:0001513"; "HP:0000510"]}).
Proof.
  apply (rank_genes_support_score ex_scorer 7 ex_module_7).
  vm_compute. reflexivity.
Defined.

Example ex_rank_genes_supported :
  map (λ c, (gc_gene c, Qred (gc_support_score c)))
      (rank_genes ex_scorer 7 {["HP:0001513"; "HP:0000510"]}) =
  [("BBS1", 23 # 10); ("BBS2", 6 # 5); ("ARL6", - (1 # 20))]%Q.
Proof. vm_compute. reflexivity. Qed.
